(** * The vault orchestrator (package vault, vault.go)

    A shallow embedding of the orchestrator of the PII vault: the data
    model, the error values, the collaborators the orchestrator calls
    through interfaces (VaultDB, Privatiser, Logger, the struct validator,
    the id mint, the clock and bcrypt), and every public operation of
    [Vault], written in the order in which the Go code performs its steps.

    The orchestrator holds no state of its own: everything it does to the
    outside goes through an interface.  An operation is therefore embedded
    as a finite tree of interface calls ([Prog]); [exec] runs such a tree
    against an implementation of the interfaces and records the calls it
    made, in order. *)

From Stdlib Require Import Ascii.
From stdpp Require Import base option list strings gmap fin_maps pretty.

Set Default Proof Using "Type".
Open Scope string_scope.
Open Scope list_scope.

(** ** Data model *)

Record Field := mkField {
  fld_Type : string;
  fld_IsIndexed : bool
}.

Record Collection := mkCollection {
  col_Id : string;
  col_Name : string;
  col_Fields : gmap string Field;
  col_CreatedAt : string;
  col_UpdatedAt : string;
  col_Description : string
}.

Record Subject := mkSubject {
  sub_Id : string;
  sub_Eid : string;
  sub_CreatedAt : string;
  sub_UpdatedAt : string;
  sub_Metadata : string
}.

(** [type Record map[string]string]: field name -> value. *)
Abbreviation Record_ := (gmap string string) (only parsing).

(** [PolicyAction] and [PolicyEffect] are string types in the source. *)
Abbreviation PolicyAction := string (only parsing).
Abbreviation PolicyEffect := string (only parsing).

Definition PolicyActionRead : PolicyAction := "read".
Definition PolicyActionWrite : PolicyAction := "write".
Definition EffectDeny : PolicyEffect := "deny".
Definition EffectAllow : PolicyEffect := "allow".

Record Policy := mkPolicy {
  pol_Id : string;
  pol_Name : string;
  pol_Description : string;
  pol_Effect : PolicyEffect;
  pol_Actions : list PolicyAction;
  pol_Resources : list string;
  pol_CreatedAt : string;
  pol_UpdatedAt : string
}.

Record Principal := mkPrincipal {
  prin_Id : string;
  prin_Username : string;
  prin_Password : string;
  prin_Description : string;
  prin_CreatedAt : string;
  prin_UpdatedAt : string;
  prin_Policies : list string
}.

Record Request := mkRequest {
  Actor : Principal;
  Action : PolicyAction;
  Resource : string
}.

Definition COLLECTIONS_PPATH : string := "/collections".
Definition PRINCIPALS_PPATH : string := "/principals".
Definition RECORDS_PPATH : string := "/records".
Definition POLICIES_PPATH : string := "/policies".
Definition SUBJECTS_PPATH : string := "/subjects".

(** The zero values Go gives to a struct literal with no fields. *)
Definition zeroField : Field := mkField "" false.
Definition zeroPrincipal : Principal := mkPrincipal "" "" "" "" "" "" [].
Definition zeroRequest : Request := mkRequest zeroPrincipal "" "".

(** ** Errors *)

Record ValidationError := mkValidationError {
  FailedField : string;
  Tag : string;
  Value : string
}.

(** The error values the orchestrator builds or passes on.  [ErrNotFound],
    [ErrConflict] and [ErrIndexError] are the sentinels of the errors file;
    [OtherError] stands for every error of a collaborator that the
    orchestrator does not build itself (crypto, transport, [fmt.Errorf]). *)
Inductive error :=
| ForbiddenError (request : Request)
| NotFoundError (resourceName resourceValue : string)
| ValueError (Msg : string)
| ValidationErrors (errs : list ValidationError)
| ErrNotFound
| ErrConflict
| ErrIndexError
| OtherError (msg : string).

(** A Go result [(T, error)] whose value is only read when the error is
    nil; a Go result [error] is [result unit]. *)
Inductive result (A : Type) :=
| Ok (a : A)
| Err (e : error).
Arguments Ok {A} a.
Arguments Err {A} e.

Definition is_forbidden {A} (r : result A) : bool :=
  match r with
  | Err (ForbiddenError _) => true
  | _ => false
  end.

(** ** The interfaces the orchestrator calls *)

(** What [validator.Struct] is given. *)
Inductive Payload :=
| PCollection (c : Collection)
| PPrincipal (p : Principal)
| PPolicy (p : Policy)
| PSubject (s : Subject).

(** What [validator.Struct] answers: nil, an [InvalidValidationError], or
    the list of field errors as (Field, Tag, Param). *)
Inductive ValidatorOutcome :=
| VNil
| VInvalid
| VFieldErrors (errs : list (string * string * string)).

(** One constructor per method of [VaultDB], [Privatiser], [Logger] and
    per library call with an effect. *)
Inductive Op :=
| DbGetCollection (name : string)
| DbGetCollections
| DbCreateCollection (col : Collection)
| DbDeleteCollection (name : string)
| DbCreateRecords (collectionName : string) (records : list Record_)
| DbGetRecords (collectionName : string) (recordIDs : list string)
| DbGetRecordsFilter (collectionName fieldName value : string)
| DbUpdateRecord (collectionName recordID : string) (record : Record_)
| DbDeleteRecord (collectionName recordID : string)
| DbGetPrincipal (username : string)
| DbCreatePrincipal (principal : Principal)
| DbDeletePrincipal (username : string)
| DbGetPolicy (policyId : string)
| DbGetPolicies (policyIds : list string)
| DbCreatePolicy (p : Policy)
| DbDeletePolicy (policyId : string)
| DbCreateToken (tokenId value : string)
| DbDeleteToken (tokenId : string)
| DbGetTokenValue (tokenId : string)
| DbCreateSubject (subject : Subject)
| DbGetSubject (subjectId : string)
| DbDeleteSubject (subjectId : string)
| DbFlush
| PrivEncrypt (s : string)
| PrivDecrypt (s : string)
| LoggerError (msg : string)
| ValidatorStruct (payload : Payload)
| GenerateId (prefix : string)
| TimeNow
| BcryptGenerateFromPassword (password : string)
| BcryptCompareHashAndPassword (hash password : string).

(** The Go result type of each call.  [Encrypt], [Decrypt] and
    [GenerateFromPassword] answer a pair because the source reads the value
    of some of them without looking at the error. *)
Definition Resp (o : Op) : Type :=
  match o with
  | DbGetCollection _ => result Collection
  | DbGetCollections => result (list string)
  | DbCreateCollection _ => result unit
  | DbDeleteCollection _ => result unit
  | DbCreateRecords _ _ => result (list string)
  | DbGetRecords _ _ => result (gmap string Record_)
  | DbGetRecordsFilter _ _ _ => result (list string)
  | DbUpdateRecord _ _ _ => result unit
  | DbDeleteRecord _ _ => result unit
  | DbGetPrincipal _ => result Principal
  | DbCreatePrincipal _ => result unit
  | DbDeletePrincipal _ => result unit
  | DbGetPolicy _ => result Policy
  | DbGetPolicies _ => result (list Policy)
  | DbCreatePolicy _ => result unit
  | DbDeletePolicy _ => result unit
  | DbCreateToken _ _ => result unit
  | DbDeleteToken _ => result unit
  | DbGetTokenValue _ => result string
  | DbCreateSubject _ => result unit
  | DbGetSubject _ => result Subject
  | DbDeleteSubject _ => result unit
  | DbFlush => result unit
  | PrivEncrypt _ => (string * option error)%type
  | PrivDecrypt _ => (string * option error)%type
  | LoggerError _ => unit
  | ValidatorStruct _ => ValidatorOutcome
  | GenerateId _ => string
  | TimeNow => string
  | BcryptGenerateFromPassword _ => (string * option error)%type
  | BcryptCompareHashAndPassword _ _ => option error
  end.

(** Calls on [vault.Db]. *)
Definition is_storage (o : Op) : bool :=
  match o with
  | PrivEncrypt _ | PrivDecrypt _ | LoggerError _ | ValidatorStruct _
  | GenerateId _ | TimeNow | BcryptGenerateFromPassword _
  | BcryptCompareHashAndPassword _ _ => false
  | _ => true
  end.

(** The one storage call the policy engine makes. *)
Definition is_policy_fetch (o : Op) : bool :=
  match o with
  | DbGetPolicies _ => true
  | _ => false
  end.

(** Storage calls that change what is stored. *)
Definition is_storage_write (o : Op) : bool :=
  match o with
  | DbCreateCollection _ | DbDeleteCollection _ | DbCreateRecords _ _
  | DbUpdateRecord _ _ _ | DbDeleteRecord _ _ | DbCreatePrincipal _
  | DbDeletePrincipal _ | DbCreatePolicy _ | DbDeletePolicy _
  | DbCreateToken _ _ | DbDeleteToken _ | DbCreateSubject _
  | DbDeleteSubject _ | DbFlush => true
  | _ => false
  end.

(** ** Programs over the interfaces *)

Inductive Prog (A : Type) : Type :=
| Ret (a : A)
| Vis (o : Op) (k : Resp o → Prog A).
Arguments Ret {A} a.
Arguments Vis {A} o k.

Fixpoint bind {A B} (m : Prog A) (f : A → Prog B) : Prog B :=
  match m with
  | Ret a => f a
  | Vis o k => Vis o (λ x, bind (k x) f)
  end.

Definition call (o : Op) : Prog (Resp o) := Vis o Ret.

Notation "'let*' x ':=' m 'in' k" := (bind m (λ x, k))
  (at level 10, x pattern, m at level 100, k at level 200, only parsing).

(** [x, err := m; if err != nil { return nil, err }; k] *)
Definition bindE {A B} (m : Prog (result A)) (f : A → Prog (result B))
  : Prog (result B) :=
  bind m (λ r, match r with
              | Ok a => f a
              | Err e => Ret (Err e)
              end).

Notation "'let?' x ':=' m 'in' k" := (bindE m (λ x, k))
  (at level 10, x pattern, m at level 100, k at level 200, only parsing).

(** A [for ... range] loop whose body may return an error from the
    enclosing function and otherwise updates the loop state. *)
Fixpoint for_range {T S} (l : list T) (s : S)
    (body : T → S → Prog (result S)) : Prog (result S) :=
  match l with
  | [] => Ret (Ok s)
  | x :: l' => let? s' := body x s in for_range l' s' body
  end.

(** The loop without its calls: a fold that stops at the first error. *)
Fixpoint fold_result {T S} (step : T → S → result S) (l : list T) (s : S)
  : result S :=
  match l with
  | [] => Ok s
  | x :: l' =>
      match step x s with
      | Ok s' => fold_result step l' s'
      | Err e => Err e
      end
  end.

(** An implementation of the interfaces over a world [W]. *)
Definition Handler (W : Type) : Type := ∀ o : Op, W → Resp o * W.

(** Runs a program: its value, the world it leaves, and the calls it made
    in order. *)
Fixpoint exec {W A} (h : Handler W) (p : Prog A) (w : W) : A * W * list Op :=
  match p with
  | Ret a => (a, w, [])
  | Vis o k =>
      let '(x, w1) := h o w in
      let '(a, w2, tr) := exec h (k x) w1 in
      (a, w2, o :: tr)
  end.

(** The programs that only make calls satisfying [Q]. *)
Inductive calls_only {A} (Q : Op → Prop) : Prog A → Prop :=
| calls_only_Ret a : calls_only Q (Ret a)
| calls_only_Vis o k :
    Q o → (∀ x, calls_only Q (k x)) → calls_only Q (Vis o k).


(** ** Pure collaborators *)

(** The policy engine: [EvaluateRequest(request, policies)]. *)
Class PolicyEngine := {
  EvaluateRequest : Request → list Policy → bool
}.

(** The PType engine: [GetPType(PTypeName(t), value)] validates a raw value
    under the type named [t]; [PType_Get v format] is [v.Get(format)]. *)
Class PTypeEngine := {
  PType : Type;
  GetPType : string → string → result PType;
  PType_Get : PType → string → result string
}.

(** Go leaves the order of [range] over a map unspecified: any enumeration
    of the entries may be the one a loop sees. *)
Class RangeOrder := {
  range_of : ∀ {V : Type}, gmap string V → list (string * V);
  range_of_perm : ∀ {V : Type} (m : gmap string V), range_of m ≡ₚ map_to_list m
}.

(** ** String helpers *)

(** [strings.HasPrefix(s, p)] *)
Definition HasPrefix (s p : string) : bool := String.prefix p s.

(** [strings.Split(s, sep)] for a one-character separator. *)
Fixpoint Split (s : string) (sep : ascii) : list string :=
  match s with
  | EmptyString => [""]
  | String c s' =>
      if decide (c = sep) then "" :: Split s' sep
      else match Split s' sep with
           | [] => [String c ""]
           | w :: ws => String c w :: ws
           end
  end.

Definition slash : ascii := "/"%char.

(** Whether the character occurs in the string. *)
Fixpoint contains (c : ascii) (s : string) : bool :=
  match s with
  | EmptyString => false
  | String c' s' => bool_decide (c' = c) || contains c s'
  end.

(** Field assignments through a pointer. *)
Definition set_col_Id (c : Collection) (id : string) : Collection :=
  mkCollection id (col_Name c) (col_Fields c) (col_CreatedAt c)
    (col_UpdatedAt c) (col_Description c).

Definition set_prin_Password (p : Principal) (pw : string) : Principal :=
  mkPrincipal (prin_Id p) (prin_Username p) pw (prin_Description p)
    (prin_CreatedAt p) (prin_UpdatedAt p) (prin_Policies p).

Definition set_prin_Id (p : Principal) (id : string) : Principal :=
  mkPrincipal id (prin_Username p) (prin_Password p) (prin_Description p)
    (prin_CreatedAt p) (prin_UpdatedAt p) (prin_Policies p).

Definition set_prin_CreatedAt (p : Principal) (t : string) : Principal :=
  mkPrincipal (prin_Id p) (prin_Username p) (prin_Password p)
    (prin_Description p) t (prin_UpdatedAt p) (prin_Policies p).

Definition set_pol_Id (p : Policy) (id : string) : Policy :=
  mkPolicy id (pol_Name p) (pol_Description p) (pol_Effect p) (pol_Actions p)
    (pol_Resources p) (pol_CreatedAt p) (pol_UpdatedAt p).

Definition set_sub_Id (s : Subject) (id : string) : Subject :=
  mkSubject id (sub_Eid s) (sub_CreatedAt s) (sub_UpdatedAt s) (sub_Metadata s).

Definition set_sub_CreatedAt (s : Subject) (t : string) : Subject :=
  mkSubject (sub_Id s) (sub_Eid s) t (sub_UpdatedAt s) (sub_Metadata s).

(** ** The orchestrator *)

Section Vault.
Context {PE : PolicyEngine} {PT : PTypeEngine} {RO : RangeOrder}.

Definition ValidateAction (request : Request) : Prog (result bool) :=
  let? policies := call (DbGetPolicies (prin_Policies (Actor request))) in
  let allowed := EvaluateRequest request policies in
  if allowed then Ret (Ok true) else Ret (Ok false).

(** [vault.Validate(payload)]; the panic on a nil validator is left out. *)
Definition Validate (payload : Payload) : Prog (result unit) :=
  let* out := call (ValidatorStruct payload) in
  match out with
  | VNil => Ret (Ok tt)
  | VInvalid => Ret (Err (ValidationErrors []))
  | VFieldErrors errs =>
      let errors :=
        (λ '(f, t, v), mkValidationError f t v) <$> errs in
      if decide (length errors = 0) then Ret (Ok tt)
      else Ret (Err (ValidationErrors errors))
  end.

Definition GetCollection (principal : Principal) (name : string)
  : Prog (result Collection) :=
  let request := mkRequest principal PolicyActionRead
                   (COLLECTIONS_PPATH +:+ "/" +:+ name) in
  let? allowed := ValidateAction request in
  if negb allowed then Ret (Err (ForbiddenError request)) else
  let? col := call (DbGetCollection name) in
  Ret (Ok col).

Definition GetCollections (principal : Principal)
  : Prog (result (list string)) :=
  let request := mkRequest principal PolicyActionRead COLLECTIONS_PPATH in
  let? allowed := ValidateAction request in
  if negb allowed then Ret (Err (ForbiddenError request)) else
  let? cols := call (DbGetCollections) in
  Ret (Ok cols).

(** The operations that take a pointer and assign through it answer the
    struct as the caller sees it afterwards, next to the error. *)
Definition CreateCollection (principal : Principal) (col : Collection)
  : Prog (Collection * result unit) :=
  let request := mkRequest principal PolicyActionWrite COLLECTIONS_PPATH in
  let* r := ValidateAction request in
  match r with
  | Err err => Ret (col, Err err)
  | Ok allowed =>
    if negb allowed then Ret (col, Err (ForbiddenError request)) else
    let* v := Validate (PCollection col) in
    match v with
    | Err err => Ret (col, Err err)
    | Ok _ =>
      let* id := call (GenerateId "col") in
      let col := set_col_Id col id in
      let* err := call (DbCreateCollection col) in
      Ret (col, err : result unit)
    end
  end.

Definition DeleteCollection (principal : Principal) (name : string)
  : Prog (result unit) :=
  let request := mkRequest principal PolicyActionWrite
                   (COLLECTIONS_PPATH +:+ "/" +:+ name) in
  let? allowed := ValidateAction request in
  if negb allowed then Ret (Err (ForbiddenError request)) else
  let? _ := call (DbDeleteCollection name) in
  Ret (Ok tt).

Definition CreateRecords (principal : Principal) (collectionName : string)
    (records : list Record_) : Prog (result (list string)) :=
  let request := mkRequest principal PolicyActionWrite
                   (COLLECTIONS_PPATH +:+ "/" +:+ collectionName +:+ RECORDS_PPATH) in
  let? allowed := ValidateAction request in
  if negb allowed then Ret (Err (ForbiddenError request)) else
  let? collection := call (DbGetCollection collectionName) in
  let? encryptedRecords :=
    for_range (zip (seq 0 (length records)) records)
      (replicate (length records) (∅ : Record_))
      (λ '(i, record) encryptedRecords,
        let? encryptedRecord :=
          for_range (range_of record) (∅ : Record_)
            (λ '(fieldName, fieldValue) encryptedRecord,
              match col_Fields collection !! fieldName with
              | None =>
                  Ret (Err (ValueError ("Field " +:+ fieldName +:+
                         " not found on collection " +:+ collectionName)))
              | Some fld =>
                  match GetPType (fld_Type fld) fieldValue with
                  | Err err => Ret (Err err)
                  | Ok _ =>
                      let* (encryptedValue, err) := call (PrivEncrypt fieldValue) in
                      match err with
                      | Some e => Ret (Err e)
                      | None =>
                          Ret (Ok (<[fieldName := encryptedValue]> encryptedRecord))
                      end
                  end
              end) in
        Ret (Ok (<[i := encryptedRecord]> encryptedRecords))) in
  call (DbCreateRecords collectionName encryptedRecords).

Definition GetRecords (principal : Principal) (collectionName : string)
    (recordIDs : list string) (returnFormats : gmap string string)
  : Prog (result (gmap string Record_)) :=
  if decide (length recordIDs = 0)
  then Ret (Err (ValueError "recordIDs must not be empty")) else
  let? _ := for_range recordIDs tt (λ recordID _,
         for_range (range_of returnFormats) tt (λ '(field, format) _,
           let _request := mkRequest principal PolicyActionRead
               (COLLECTIONS_PPATH +:+ "/" +:+ collectionName +:+ RECORDS_PPATH
                  +:+ "/" +:+ recordID +:+ "/" +:+ field +:+ "." +:+ format) in
           let? allowed := ValidateAction _request in
           if negb allowed then Ret (Err (ForbiddenError _request))
           else Ret (Ok tt))) in
  let? col := call (DbGetCollection collectionName) in
  let? _ := for_range (range_of returnFormats) tt (λ '(field, _) _,
         match col_Fields col !! field with
         | None =>
             Ret (Err (NotFoundError ("Field " +:+ field +:+
                    " not found on collection " +:+ collectionName) ""))
         | Some _ => Ret (Ok tt)
         end) in
  let? encryptedRecords := call (DbGetRecords collectionName recordIDs) in
  if decide (size encryptedRecords = 0)
  then Ret (Err (NotFoundError "record" (hd "" recordIDs))) else
  for_range (range_of encryptedRecords) (∅ : gmap string Record_)
    (λ '(recordId, record) records,
      let? decryptedRecord :=
        for_range (range_of returnFormats) (∅ : Record_)
          (λ '(field, format) decryptedRecord,
            let* (decryptedValue, err) :=
               call (PrivDecrypt (default "" (record !! field))) in
            match err with
            | Some e => Ret (Err e)
            | None =>
                match GetPType
                        (fld_Type (default zeroField (col_Fields col !! field)))
                        decryptedValue with
                | Err e => Ret (Err e)
                | Ok privValue =>
                    match PType_Get privValue format with
                    | Err e => Ret (Err e)
                    | Ok v => Ret (Ok (<[field := v]> decryptedRecord))
                    end
                end
            end) in
      Ret (Ok (<[recordId := decryptedRecord]> records))).

Definition GetRecordsFilter (principal : Principal)
    (collectionName fieldName value : string)
    (returnFormats : gmap string string)
  : Prog (result (gmap string Record_)) :=
  let* (val, _) := call (PrivEncrypt value) in
  let? recordIds := call (DbGetRecordsFilter collectionName fieldName val) in
  GetRecords principal collectionName recordIds returnFormats.

Definition UpdateRecord (principal : Principal)
    (collectionName recordID : string) (record : Record_)
  : Prog (result unit) :=
  let request := mkRequest principal PolicyActionWrite
                   (COLLECTIONS_PPATH +:+ "/" +:+ collectionName +:+ RECORDS_PPATH) in
  let? allowed := ValidateAction request in
  if negb allowed then Ret (Err (ForbiddenError request)) else
  let? encryptedRecord :=
    for_range (range_of record) (∅ : Record_)
      (λ '(recordFieldName, recordFieldValue) encryptedRecord,
        let* (encryptedValue, err) := call (PrivEncrypt recordFieldValue) in
        match err with
        | Some e => Ret (Err e)
        | None =>
            Ret (Ok (<[recordFieldName := encryptedValue]> encryptedRecord))
        end) in
  let? _ := call (DbUpdateRecord collectionName recordID encryptedRecord) in
  Ret (Ok tt).

Definition DeleteRecord (principal : Principal)
    (collectionName recordID : string) : Prog (result unit) :=
  let request := mkRequest principal PolicyActionWrite
                   (COLLECTIONS_PPATH +:+ "/" +:+ collectionName +:+ RECORDS_PPATH) in
  let? allowed := ValidateAction request in
  if negb allowed then Ret (Err (ForbiddenError request)) else
  let? _ := call (DbDeleteRecord collectionName recordID) in
  Ret (Ok tt).

Definition GetPrincipal (principal : Principal) (username : string)
  : Prog (result Principal) :=
  let request := mkRequest principal PolicyActionRead
                   (PRINCIPALS_PPATH +:+ "/" +:+ username +:+ "/") in
  let? allowed := ValidateAction request in
  if negb allowed then Ret (Err (ForbiddenError request)) else
  call (DbGetPrincipal username).

Definition CreatePrincipal (actor : Principal) (principal : Principal)
  : Prog (Principal * result unit) :=
  let request := mkRequest actor PolicyActionWrite PRINCIPALS_PPATH in
  let* r := ValidateAction request in
  match r with
  | Err err => Ret (principal, Err err)
  | Ok allowed =>
    if negb allowed then Ret (principal, Err (ForbiddenError request)) else
    let* (hashedPassword, _) :=
       call (BcryptGenerateFromPassword (prin_Password principal)) in
    let principal := set_prin_Password principal hashedPassword in
    let* id := call (GenerateId "prin") in
    let principal := set_prin_Id principal id in
    let* now := call TimeNow in
    let principal := set_prin_CreatedAt principal now in
    let* v := Validate (PPrincipal principal) in
    match v with
    | Err err => Ret (principal, Err err)
    | Ok _ =>
      let* err := call (DbCreatePrincipal principal) in
      Ret (principal, err : result unit)
    end
  end.

Definition DeletePrincipal (principal : Principal) (username : string)
  : Prog (result unit) :=
  let request := mkRequest principal PolicyActionWrite
                   (PRINCIPALS_PPATH +:+ "/" +:+ username +:+ "/") in
  let? allowed := ValidateAction request in
  if negb allowed then Ret (Err (ForbiddenError request)) else
  let? _ := call (DbDeletePrincipal username) in
  Ret (Ok tt).

Definition Login (username password : string) : Prog (result Principal) :=
  if bool_decide (username = "") || bool_decide (password = "")
  then Ret (Err (ValueError "username and password must not be empty")) else
  let* r := call (DbGetPrincipal username) in
  match r with
  | Err _ =>
      let* _ := call (LoggerError "Error getting principal") in
      Ret (Err (ForbiddenError zeroRequest))
  | Ok dbPrincipal =>
      if bool_decide (prin_Username dbPrincipal = "")
         || bool_decide (prin_Password dbPrincipal = "")
      then Ret (Err (ForbiddenError zeroRequest)) else
      let* compareErr := call (BcryptCompareHashAndPassword
                           (prin_Password dbPrincipal) password) in
      match compareErr with
      | Some _ => Ret (Err (ForbiddenError zeroRequest))
      | None => Ret (Ok dbPrincipal)
      end
  end.

(** The first resource of [resources] that does not start with a slash. *)
Definition first_bad_resource (resources : list string) : option string :=
  head (filter (λ resource, HasPrefix resource "/" = false) resources).

Definition CreatePolicy (principal : Principal) (p : Policy)
  : Prog (Policy * result unit) :=
  let request := mkRequest principal PolicyActionWrite POLICIES_PPATH in
  match first_bad_resource (pol_Resources p) with
  | Some resource =>
      Ret (p, Err (ValueError ("resources must start with a slash - '" +:+
                     resource +:+ "' is not a valid resource")))
  | None =>
    let* r := ValidateAction request in
    match r with
    | Err err => Ret (p, Err err)
    | Ok allowed =>
      if negb allowed then Ret (p, Err (ForbiddenError request)) else
      let* v := Validate (PPolicy p) in
      match v with
      | Err err => Ret (p, Err err)
      | Ok _ =>
        let* id := call (GenerateId "pol") in
        let p := set_pol_Id p id in
        let* err := call (DbCreatePolicy p) in
        Ret (p, err : result unit)
      end
    end
  end.

Definition GetPolicy (principal : Principal) (policyId : string)
  : Prog (result Policy) :=
  let request := mkRequest principal PolicyActionRead
                   (POLICIES_PPATH +:+ "/" +:+ policyId) in
  let? allowed := ValidateAction request in
  if negb allowed then Ret (Err (ForbiddenError request)) else
  call (DbGetPolicy policyId).

Definition DeletePolicy (principal : Principal) (policyId : string)
  : Prog (result unit) :=
  let request := mkRequest principal PolicyActionWrite
                   (POLICIES_PPATH +:+ "/" +:+ policyId) in
  let? allowed := ValidateAction request in
  if negb allowed then Ret (Err (ForbiddenError request)) else
  let? _ := call (DbDeletePolicy policyId) in
  Ret (Ok tt).

Definition GetPrincipalPolicies (principal : Principal)
  : Prog (result (list Policy)) :=
  let request := mkRequest principal PolicyActionRead POLICIES_PPATH in
  let? allowed := ValidateAction request in
  if negb allowed then Ret (Err (ForbiddenError request)) else
  let? policies := call (DbGetPolicies (prin_Policies principal)) in
  Ret (Ok policies).

Definition CreateToken (principal : Principal)
    (collectionName recordId fieldName returnFormat : string)
  : Prog (result string) :=
  let? records := GetRecords principal collectionName [recordId]
               {[ fieldName := returnFormat ]} in
  let* tokenId := call (GenerateId "tok") in
  match range_of records with
  | (recordId, _) :: _ =>
      let* err := call (DbCreateToken tokenId
                    (collectionName +:+ "/" +:+ recordId +:+ "/" +:+
                     fieldName +:+ "/" +:+ returnFormat)) in
      match err with
      | Err err => Ret (Err err)
      | Ok _ => Ret (Ok tokenId)
      end
  | [] => Ret (Err (NotFoundError "record" recordId))
  end.

Definition DeleteToken (tokenId : string) : Prog (result unit) :=
  call (DbDeleteToken tokenId).

Definition GetTokenValue (principal : Principal) (tokenId : string)
  : Prog (result Record_) :=
  let? recordAndFieldStr := call (DbGetTokenValue tokenId) in
  match Split recordAndFieldStr slash with
  | [collectionName; recordId; fieldName; returnFormat] =>
      let? records := GetRecords principal collectionName [recordId]
                   {[ fieldName := returnFormat ]} in
      match range_of records with
      | (_, record) :: _ => Ret (Ok record)
      | [] => Ret (Err (NotFoundError "record" recordId))
      end
  | _ =>
      Ret (Err (OtherError ("invalid token value: " +:+ recordAndFieldStr +:+
                  " stored in token: " +:+ tokenId)))
  end.

Definition CreateSubject (actor : Principal) (subject : Subject)
  : Prog (Subject * result unit) :=
  let request := mkRequest actor PolicyActionWrite SUBJECTS_PPATH in
  let* r := ValidateAction request in
  match r with
  | Err err => Ret (subject, Err err)
  | Ok allowed =>
    if negb allowed then Ret (subject, Err (ForbiddenError request)) else
    let* id := call (GenerateId "sub") in
    let subject := set_sub_Id subject id in
    let* now := call TimeNow in
    let subject := set_sub_CreatedAt subject now in
    let* v := Validate (PSubject subject) in
    match v with
    | Err err => Ret (subject, Err err)
    | Ok _ =>
      let* err := call (DbCreateSubject subject) in
      Ret (subject, err : result unit)
    end
  end.

Definition GetSubject (actor : Principal) (subjectId : string)
  : Prog (result Subject) :=
  let request := mkRequest actor PolicyActionRead
                   (SUBJECTS_PPATH +:+ "/" +:+ subjectId) in
  let? allowed := ValidateAction request in
  if negb allowed then Ret (Err (ForbiddenError request)) else
  call (DbGetSubject subjectId).

Definition DeleteSubject (actor : Principal) (subjectId : string)
  : Prog (result unit) :=
  let request := mkRequest actor PolicyActionWrite
                   (SUBJECTS_PPATH +:+ "/" +:+ subjectId) in
  let? allowed := ValidateAction request in
  if negb allowed then Ret (Err (ForbiddenError request)) else
  let? _ := call (DbDeleteSubject subjectId) in
  Ret (Ok tt).

End Vault.

(** ** The policy engine of section 4.5 *)

Module SpecPolicy.

(** The pattern without its trailing [*], when it has one. *)
Fixpoint trailing_star (pattern : string) : option string :=
  match pattern with
  | EmptyString => None
  | String c EmptyString => if decide (c = "*"%char) then Some "" else None
  | String c rest => String c <$> trailing_star rest
  end.

(** Pattern match: a trailing [*] matches any suffix, a pattern without
    one matches exactly. *)
Definition matchResource (pattern resource : string) : bool :=
  match trailing_star pattern with
  | Some pre => String.prefix pre resource
  | None => bool_decide (pattern = resource)
  end.

(** A policy matches a request on both resource pattern and action. *)
Definition policyMatches (request : Request) (p : Policy) : bool :=
  existsb (λ pattern, matchResource pattern (Resource request)) (pol_Resources p)
  && existsb (λ a, bool_decide (a = Action request)) (pol_Actions p).

(** One pass over the attached policies: a matching deny settles the
    decision, a matching allow is remembered. *)
Fixpoint evaluate (request : Request) (policies : list Policy)
    (allowed : bool) : bool :=
  match policies with
  | [] => allowed
  | p :: rest =>
      if policyMatches request p then
        if bool_decide (pol_Effect p = EffectDeny) then false
        else if bool_decide (pol_Effect p = EffectAllow)
             then evaluate request rest true
             else evaluate request rest allowed
      else evaluate request rest allowed
  end.

(** Modelled from the spec: [EvaluateRequest], the policy engine that
    [ValidateAction] calls, is not among the source files; this is the
    aggregation of section 4.5 (explicit deny wins, else a matching allow,
    else default deny) written as the loop over the attached policies. *)
Definition EvaluateRequest (request : Request) (policies : list Policy) : bool :=
  evaluate request policies false.

Definition engine : PolicyEngine := Build_PolicyEngine EvaluateRequest.

(** Some attached policy matches [request] on resource and action and
    has effect [effect]. *)
Definition matching (request : Request) (policies : list Policy)
    (effect : PolicyEffect) : Prop :=
  ∃ p, p ∈ policies ∧ policyMatches request p = true ∧ pol_Effect p = effect.

End SpecPolicy.

(** ** The PType engine of section 4.1 *)

Module SpecPType.

Record value := mkValue { kind : string; raw : string }.

Definition catalog : list string :=
  ["string"; "name"; "phoneNumber"; "date"; "email"].

Fixpoint masked (s : string) : string :=
  match s with
  | EmptyString => ""
  | String _ rest => String "*"%char (masked rest)
  end.

Fixpoint first_n (n : nat) (s : string) : string :=
  match n, s with
  | S n', String c rest => String c (first_n n' rest)
  | _, _ => ""
  end.

Definition first_four (s : string) : string := first_n 4 s.
Definition last_four (s : string) : string :=
  String.rev (first_n 4 (String.rev s)).

(** Modelled from the spec: [GetPType] and the [Get] method of a PType
    are not among the source files; the catalog and the projections are
    those section 4.1 names, and parsing accepts every raw string of a
    type of the catalog (the spec gives no validation rule). *)
Definition GetPType (typeName raw : string) : result value :=
  if bool_decide (typeName ∈ catalog) then Ok (mkValue typeName raw)
  else Err (ValueError ("unknown type " +:+ typeName)).

Definition Get (v : value) (format : string) : result string :=
  if bool_decide (format = "plain") then Ok (raw v)
  else if bool_decide (format = "masked")
            && bool_decide (kind v ∈ ["string"; "name"])
  then Ok (masked (raw v))
  else if bool_decide (format = "last_four")
            && bool_decide (kind v = "phoneNumber")
  then Ok (last_four (raw v))
  else if bool_decide (format = "first_four")
            && bool_decide (kind v = "phoneNumber")
  then Ok (first_four (raw v))
  else Err (OtherError ("format error: " +:+ format)).

Definition engine : PTypeEngine := Build_PTypeEngine value GetPType Get.

End SpecPType.

(** The enumeration of a map in key order, one of the orders Go may use. *)
Definition keyOrder : RangeOrder :=
  {| range_of := λ V m, map_to_list m;
     range_of_perm := λ V m, reflexivity (map_to_list m) |}.

(** ** An in-memory storage backend and the other collaborators *)

Module MemStore.

Record Store := mkStore {
  collections : gmap string Collection;
  records : gmap string (gmap string (gmap string string));
  principals : gmap string Principal;
  policies : gmap string Policy;
  tokens : gmap string string;
  subjects : gmap string Subject;
  minted : nat;
  logged : list string
}.

Definition empty : Store := mkStore ∅ ∅ ∅ ∅ ∅ ∅ 0 [].

Definition set_collections (s : Store) v :=
  mkStore v (records s) (principals s) (policies s) (tokens s) (subjects s)
    (minted s) (logged s).
Definition set_records (s : Store) v :=
  mkStore (collections s) v (principals s) (policies s) (tokens s)
    (subjects s) (minted s) (logged s).
Definition set_principals (s : Store) v :=
  mkStore (collections s) (records s) v (policies s) (tokens s) (subjects s)
    (minted s) (logged s).
Definition set_policies (s : Store) v :=
  mkStore (collections s) (records s) (principals s) v (tokens s)
    (subjects s) (minted s) (logged s).
Definition set_tokens (s : Store) v :=
  mkStore (collections s) (records s) (principals s) (policies s) v
    (subjects s) (minted s) (logged s).
Definition set_subjects (s : Store) v :=
  mkStore (collections s) (records s) (principals s) (policies s) (tokens s)
    v (minted s) (logged s).
Definition set_minted (s : Store) v :=
  mkStore (collections s) (records s) (principals s) (policies s) (tokens s)
    (subjects s) v (logged s).
Definition set_logged (s : Store) v :=
  mkStore (collections s) (records s) (principals s) (policies s) (tokens s)
    (subjects s) (minted s) v.

(** The records of a collection ([∅] when none was stored). *)
Definition records_of (s : Store) (collectionName : string)
  : gmap string (gmap string string) :=
  default ∅ (records s !! collectionName).

(** Ids [rec_n], [rec_(n+1)], ... for a batch. *)
Definition mint_ids (n : nat) (count : nat) : list string :=
  (λ i, "rec_" +:+ pretty i) <$> seq n count.

Definition insert_all (ids : list string) (rs : list (gmap string string))
    (m : gmap string (gmap string string)) : gmap string (gmap string string) :=
  foldr (λ '(id, r) acc, <[id := r]> acc) m (zip ids rs).

(** The records among [ids] that are stored. *)
Definition found (m : gmap string (gmap string string)) (ids : list string)
  : gmap string (gmap string string) :=
  list_to_map (omap (λ id, (λ r, (id, r)) <$> m !! id) ids).

(** A symmetric cipher as two functions. *)
Record Privatiser := mkPrivatiser {
  Encrypt : string → string * option error;
  Decrypt : string → string * option error
}.

(** The struct tags of the source: [required], [min=3], [max=32]. *)
Definition required (field value : string) : list (string * string * string) :=
  if bool_decide (value = "") then [(field, "required", "")] else [].
Definition minmax (field value : string) (lo hi : nat)
  : list (string * string * string) :=
  ((if bool_decide (String.length value < lo) then [(field, "min", pretty lo)] else [])
   ++ (if bool_decide (hi < String.length value) then [(field, "max", pretty hi)] else []))%list.

Definition validate (payload : Payload) : ValidatorOutcome :=
  let errs :=
    (match payload with
     | PCollection c =>
         required "Name" (col_Name c) ++ minmax "Name" (col_Name c) 3 32
     | PPrincipal p =>
         required "Username" (prin_Username p)
         ++ minmax "Username" (prin_Username p) 3 32
         ++ required "Password" (prin_Password p)
         ++ minmax "Password" (prin_Password p) 3 (String.length (prin_Password p))
     | PPolicy p =>
         required "Effect" (pol_Effect p)
         ++ (if bool_decide (pol_Actions p = []) then [("Actions", "required", "")] else [])
         ++ (if bool_decide (pol_Resources p = []) then [("Resources", "required", "")] else [])
     | PSubject s => required "Eid" (sub_Eid s)
     end)%list in
  match errs with
  | [] => VNil
  | _ => VFieldErrors errs
  end.

(** Modelled from the spec: the storage backend behind [VaultDB] is not
    among the source files; this is the capability surface of section 4.7
    over finite maps.  Lookups of a missing entity answer [ErrNotFound],
    duplicates of a collection name or a principal answer [ErrConflict],
    a lookup by a field that is not indexed answers [ErrIndexError],
    get-many answers the entities that exist, and an update is a per-field
    patch.  The cipher is a parameter; the validator follows the struct
    tags, ids are minted from a counter, and a password hash is the
    password behind a fixed prefix. *)
Definition handler (P : Privatiser) : Handler Store :=
  λ o, match o return Store → Resp o * Store with
  | DbGetCollection name => λ s,
      (match collections s !! name with
       | Some c => Ok c
       | None => Err ErrNotFound
       end, s)
  | DbGetCollections => λ s, (Ok (map_to_list (collections s)).*1, s)
  | DbCreateCollection col => λ s,
      match collections s !! col_Name col with
      | Some _ => (Err ErrConflict, s)
      | None => (Ok tt, set_collections s (<[col_Name col := col]> (collections s)))
      end
  | DbDeleteCollection name => λ s,
      match collections s !! name with
      | None => (Err ErrNotFound, s)
      | Some _ =>
          if bool_decide (records_of s name = ∅)
          then (Ok tt, set_collections s (delete name (collections s)))
          else (Err ErrConflict, s)
      end
  | DbCreateRecords collectionName rs => λ s,
      match collections s !! collectionName with
      | None => (Err ErrNotFound, s)
      | Some _ =>
          let ids := mint_ids (minted s) (length rs) in
          (Ok ids,
           set_minted
             (set_records s
                (<[collectionName := insert_all ids rs (records_of s collectionName)]>
                   (records s)))
             (minted s + length rs))
      end
  | DbGetRecords collectionName recordIDs => λ s,
      (Ok (found (records_of s collectionName) recordIDs), s)
  | DbGetRecordsFilter collectionName fieldName value => λ s,
      (match collections s !! collectionName with
       | None => Err ErrNotFound
       | Some c =>
           match col_Fields c !! fieldName with
           | Some (mkField _ true) =>
               Ok (map_to_list
                     (filter (λ kv, kv.2 !! fieldName = Some value)
                        (records_of s collectionName))).*1
           | _ => Err ErrIndexError
           end
       end, s)
  | DbUpdateRecord collectionName recordID patch => λ s,
      match records_of s collectionName !! recordID with
      | None => (Err ErrNotFound, s)
      | Some old =>
          (Ok tt,
           set_records s
             (<[collectionName :=
                  <[recordID := patch ∪ old]> (records_of s collectionName)]>
                (records s)))
      end
  | DbDeleteRecord collectionName recordID => λ s,
      match records_of s collectionName !! recordID with
      | None => (Err ErrNotFound, s)
      | Some _ =>
          (Ok tt,
           set_records s
             (<[collectionName := delete recordID (records_of s collectionName)]>
                (records s)))
      end
  | DbGetPrincipal username => λ s,
      (match principals s !! username with
       | Some p => Ok p
       | None => Err ErrNotFound
       end, s)
  | DbCreatePrincipal p => λ s,
      match principals s !! prin_Username p with
      | Some _ => (Err ErrConflict, s)
      | None => (Ok tt, set_principals s (<[prin_Username p := p]> (principals s)))
      end
  | DbDeletePrincipal username => λ s,
      match principals s !! username with
      | None => (Err ErrNotFound, s)
      | Some _ => (Ok tt, set_principals s (delete username (principals s)))
      end
  | DbGetPolicy policyId => λ s,
      (match policies s !! policyId with
       | Some p => Ok p
       | None => Err ErrNotFound
       end, s)
  | DbGetPolicies policyIds => λ s,
      (Ok (omap (λ id, policies s !! id) policyIds), s)
  | DbCreatePolicy p => λ s,
      (Ok tt, set_policies s (<[pol_Id p := p]> (policies s)))
  | DbDeletePolicy policyId => λ s,
      match policies s !! policyId with
      | None => (Err ErrNotFound, s)
      | Some _ => (Ok tt, set_policies s (delete policyId (policies s)))
      end
  | DbCreateToken tokenId value => λ s,
      (Ok tt, set_tokens s (<[tokenId := value]> (tokens s)))
  | DbDeleteToken tokenId => λ s,
      match tokens s !! tokenId with
      | None => (Err ErrNotFound, s)
      | Some _ => (Ok tt, set_tokens s (delete tokenId (tokens s)))
      end
  | DbGetTokenValue tokenId => λ s,
      (match tokens s !! tokenId with
       | Some v => Ok v
       | None => Err ErrNotFound
       end, s)
  | DbCreateSubject sub => λ s,
      (Ok tt, set_subjects s (<[sub_Id sub := sub]> (subjects s)))
  | DbGetSubject subjectId => λ s,
      (match subjects s !! subjectId with
       | Some v => Ok v
       | None => Err ErrNotFound
       end, s)
  | DbDeleteSubject subjectId => λ s,
      match subjects s !! subjectId with
      | None => (Err ErrNotFound, s)
      | Some _ => (Ok tt, set_subjects s (delete subjectId (subjects s)))
      end
  | DbFlush => λ s, (Ok tt, mkStore ∅ ∅ ∅ ∅ ∅ ∅ (minted s) (logged s))
  | PrivEncrypt v => λ s, (Encrypt P v, s)
  | PrivDecrypt v => λ s, (Decrypt P v, s)
  | LoggerError msg => λ s, (tt, set_logged s (logged s ++ [msg])%list)
  | ValidatorStruct payload => λ s, (validate payload, s)
  | GenerateId pre => λ s,
      (pre +:+ "_" +:+ pretty (minted s), set_minted s (S (minted s)))
  | TimeNow => λ s, ("2023-01-01T00:00:00Z", s)
  | BcryptGenerateFromPassword pw => λ s, (("$2a$10$" +:+ pw, None), s)
  | BcryptCompareHashAndPassword hash pw => λ s,
      (if bool_decide (hash = "$2a$10$" +:+ pw) then None
       else Some (OtherError "hashedPassword is not the hash of the given password"),
       s)
  end.

(** A cipher that puts a marker in front of the plaintext. *)
Definition markPrivatiser : Privatiser :=
  mkPrivatiser
    (λ v, ("enc:" +:+ v, None))
    (λ c, if String.prefix "enc:" c
          then (String.substring 4 (String.length c - 4) c, None)
          else ("", Some (OtherError "cipher: message authentication failed"))).

(** A cipher whose [Encrypt] always fails. *)
Definition brokenPrivatiser : Privatiser :=
  mkPrivatiser
    (λ _, ("", Some (OtherError "cipher: invalid key size")))
    (λ _, ("", Some (OtherError "cipher: invalid key size"))).

End MemStore.


(** ** The field loops over a cipher without state *)

(** One round of the inner loop of [CreateRecords] and one round of the
    inner loop of [GetRecords], as functions of the loop state: on the
    in-memory backend the cipher is a pair of functions, so a round is
    determined by its entry and the record built so far. *)
Definition encrypt_field {PT : PTypeEngine} (P : MemStore.Privatiser)
    (collection : Collection) (collectionName : string)
  : string * string → gmap string string → result (gmap string string) :=
  λ '(fieldName, fieldValue) encryptedRecord,
    match col_Fields collection !! fieldName with
    | None =>
        Err (ValueError ("Field " +:+ fieldName +:+
               " not found on collection " +:+ collectionName))
    | Some fld =>
        match GetPType (fld_Type fld) fieldValue with
        | Err err => Err err
        | Ok _ =>
            match MemStore.Encrypt P fieldValue with
            | (_, Some e) => Err e
            | (encryptedValue, None) =>
                Ok (<[fieldName := encryptedValue]> encryptedRecord)
            end
        end
    end.

Definition render_field {PT : PTypeEngine} (P : MemStore.Privatiser)
    (col : Collection) (record : gmap string string)
  : string * string → gmap string string → result (gmap string string) :=
  λ '(field, format) decryptedRecord,
    match MemStore.Decrypt P (default "" (record !! field)) with
    | (_, Some e) => Err e
    | (decryptedValue, None) =>
        match GetPType (fld_Type (default zeroField (col_Fields col !! field)))
                decryptedValue with
        | Err e => Err e
        | Ok privValue =>
            match PType_Get privValue format with
            | Err e => Err e
            | Ok v => Ok (<[field := v]> decryptedRecord)
            end
        end
    end.

(** ** The operations that ask the policy engine first *)

(** The operations of [Vault] whose first call to a collaborator is the
    policy engine's, with their arguments. *)
Inductive GatedOp :=
| OpGetCollection (name : string)
| OpGetCollections
| OpCreateCollection (col : Collection)
| OpDeleteCollection (name : string)
| OpCreateRecords (collectionName : string) (records : list Record_)
| OpGetRecords (collectionName : string) (recordIDs : list string)
    (returnFormats : gmap string string)
| OpUpdateRecord (collectionName recordID : string) (record : Record_)
| OpDeleteRecord (collectionName recordID : string)
| OpGetPrincipal (username : string)
| OpCreatePrincipal (principal : Principal)
| OpDeletePrincipal (username : string)
| OpCreatePolicy (p : Policy)
| OpGetPolicy (policyId : string)
| OpDeletePolicy (policyId : string)
| OpGetPrincipalPolicies
| OpCreateToken (collectionName recordId fieldName returnFormat : string)
| OpCreateSubject (subject : Subject)
| OpGetSubject (subjectId : string)
| OpDeleteSubject (subjectId : string).

Definition error_of {A} (r : result A) : option error :=
  match r with
  | Ok _ => None
  | Err e => Some e
  end.

(** The error an operation returns, whatever else it returns. *)
Definition returned_error {A} (m : Prog A) (f : A → option error)
  : Prog (option error) :=
  bind m (λ a, Ret (f a)).

Section Gated.
Context {PE : PolicyEngine} {PT : PTypeEngine} {RO : RangeOrder}.

Definition run_gated (principal : Principal) (op : GatedOp)
  : Prog (option error) :=
  match op with
  | OpGetCollection name => returned_error (GetCollection principal name) error_of
  | OpGetCollections => returned_error (GetCollections principal) error_of
  | OpCreateCollection col =>
      returned_error (CreateCollection principal col) (λ r, error_of r.2)
  | OpDeleteCollection name =>
      returned_error (DeleteCollection principal name) error_of
  | OpCreateRecords c rs => returned_error (CreateRecords principal c rs) error_of
  | OpGetRecords c ids formats =>
      returned_error (GetRecords principal c ids formats) error_of
  | OpUpdateRecord c id r => returned_error (UpdateRecord principal c id r) error_of
  | OpDeleteRecord c id => returned_error (DeleteRecord principal c id) error_of
  | OpGetPrincipal u => returned_error (GetPrincipal principal u) error_of
  | OpCreatePrincipal p =>
      returned_error (CreatePrincipal principal p) (λ r, error_of r.2)
  | OpDeletePrincipal u => returned_error (DeletePrincipal principal u) error_of
  | OpCreatePolicy p =>
      returned_error (CreatePolicy principal p) (λ r, error_of r.2)
  | OpGetPolicy id => returned_error (GetPolicy principal id) error_of
  | OpDeletePolicy id => returned_error (DeletePolicy principal id) error_of
  | OpGetPrincipalPolicies =>
      returned_error (GetPrincipalPolicies principal) error_of
  | OpCreateToken c id f format =>
      returned_error (CreateToken principal c id f format) error_of
  | OpCreateSubject s =>
      returned_error (CreateSubject principal s) (λ r, error_of r.2)
  | OpGetSubject id => returned_error (GetSubject principal id) error_of
  | OpDeleteSubject id => returned_error (DeleteSubject principal id) error_of
  end.

Definition record_path (collectionName recordID field format : string) : string :=
  COLLECTIONS_PPATH +:+ "/" +:+ collectionName +:+ RECORDS_PPATH
    +:+ "/" +:+ recordID +:+ "/" +:+ field +:+ "." +:+ format.

(** The request an operation submits to the policy engine first. *)
Definition first_request (principal : Principal) (op : GatedOp) : Request :=
  match op with
  | OpGetCollection name =>
      mkRequest principal PolicyActionRead (COLLECTIONS_PPATH +:+ "/" +:+ name)
  | OpGetCollections => mkRequest principal PolicyActionRead COLLECTIONS_PPATH
  | OpCreateCollection _ => mkRequest principal PolicyActionWrite COLLECTIONS_PPATH
  | OpDeleteCollection name =>
      mkRequest principal PolicyActionWrite (COLLECTIONS_PPATH +:+ "/" +:+ name)
  | OpCreateRecords c _ | OpUpdateRecord c _ _ | OpDeleteRecord c _ =>
      mkRequest principal PolicyActionWrite
        (COLLECTIONS_PPATH +:+ "/" +:+ c +:+ RECORDS_PPATH)
  | OpGetRecords c ids formats =>
      match ids, range_of formats with
      | id :: _, (field, format) :: _ =>
          mkRequest principal PolicyActionRead (record_path c id field format)
      | _, _ => zeroRequest
      end
  | OpGetPrincipal u =>
      mkRequest principal PolicyActionRead (PRINCIPALS_PPATH +:+ "/" +:+ u +:+ "/")
  | OpCreatePrincipal _ => mkRequest principal PolicyActionWrite PRINCIPALS_PPATH
  | OpDeletePrincipal u =>
      mkRequest principal PolicyActionWrite (PRINCIPALS_PPATH +:+ "/" +:+ u +:+ "/")
  | OpCreatePolicy _ => mkRequest principal PolicyActionWrite POLICIES_PPATH
  | OpGetPolicy id =>
      mkRequest principal PolicyActionRead (POLICIES_PPATH +:+ "/" +:+ id)
  | OpDeletePolicy id =>
      mkRequest principal PolicyActionWrite (POLICIES_PPATH +:+ "/" +:+ id)
  | OpGetPrincipalPolicies => mkRequest principal PolicyActionRead POLICIES_PPATH
  | OpCreateToken c id f format =>
      mkRequest principal PolicyActionRead (record_path c id f format)
  | OpCreateSubject _ => mkRequest principal PolicyActionWrite SUBJECTS_PPATH
  | OpGetSubject id =>
      mkRequest principal PolicyActionRead (SUBJECTS_PPATH +:+ "/" +:+ id)
  | OpDeleteSubject id =>
      mkRequest principal PolicyActionWrite (SUBJECTS_PPATH +:+ "/" +:+ id)
  end.

(** The inputs on which the operation reaches the policy engine:
    [CreatePolicy] checks the resources before, [GetRecords] checks the
    id list before and asks once per id and requested field. *)
Definition reaches_engine (op : GatedOp) : Prop :=
  match op with
  | OpCreatePolicy p => first_bad_resource (pol_Resources p) = None
  | OpGetRecords _ ids formats => ids ≠ [] ∧ formats ≠ ∅
  | _ => True
  end.

End Gated.

(** On the in-memory backend: the policies attached to a principal that
    exist, and a principal allowed to read every requested field of every
    requested record in its requested format. *)
Definition attached (s : MemStore.Store) (principal : Principal) : list Policy :=
  omap (λ id, MemStore.policies s !! id) (prin_Policies principal).

Definition may_read {PE : PolicyEngine} (s : MemStore.Store) (principal : Principal)
    (collectionName : string) (recordIDs : list string)
    (returnFormats : gmap string string) : Prop :=
  ∀ id field format,
    id ∈ recordIDs → returnFormats !! field = Some format →
    EvaluateRequest
      (mkRequest principal PolicyActionRead
         (record_path collectionName id field format))
      (attached s principal) = true.

(** What C1 asks of a run: the returned error is a Forbidden, the first
    call is the policy engine's fetch, and no other call on storage was
    made. *)
Definition forbidden_first {W} (out : option error * W * list Op) : Prop :=
  (∃ request, out.1.1 = Some (ForbiddenError request))
  ∧ (∃ ids, head out.2 = Some (DbGetPolicies ids))
  ∧ Forall (λ o, is_storage o = true → is_policy_fetch o = true) out.2.

(** ** A small vault *)

Module Fixture.

Definition adminRead : Policy :=
  mkPolicy "admin-read" "" "" EffectAllow [PolicyActionRead] ["/*"] "" "".
Definition adminWrite : Policy :=
  mkPolicy "admin-write" "" "" EffectAllow [PolicyActionWrite] ["/*"] "" "".
Definition admin : Principal :=
  mkPrincipal "prin_a" "admin" "$2a$10$secret" "" "" "" ["admin-read"; "admin-write"].
Definition nobody : Principal :=
  mkPrincipal "prin_n" "nobody" "$2a$10$hunter2" "" "" "" [].

Definition customers : Collection :=
  mkCollection "col_c" "customers"
    {[ "first_name" := mkField "string" true ]} "" "" "".

(** One collection, the two admin policies, both principals, no record. *)
Definition store0 : MemStore.Store :=
  MemStore.mkStore {[ "customers" := customers ]} ∅
    {[ "admin" := admin; "nobody" := nobody ]}
    {[ "admin-read" := adminRead; "admin-write" := adminWrite ]} ∅ ∅ 0 [].

(** [store0] after [CreateRecords] of [{first_name: John}]. *)
Definition store1 : MemStore.Store :=
  MemStore.mkStore {[ "customers" := customers ]}
    {[ "customers" := {[ "rec_0" := {[ "first_name" := "enc:John" ]} ]} ]}
    {[ "admin" := admin; "nobody" := nobody ]}
    {[ "admin-read" := adminRead; "admin-write" := adminWrite ]} ∅ ∅ 1 [].

(** [store1] after [CreateToken] over [rec_0], and then after
    [DeleteRecord] of [rec_0]. *)
Definition store2 : MemStore.Store :=
  MemStore.mkStore {[ "customers" := customers ]}
    {[ "customers" := {[ "rec_0" := {[ "first_name" := "enc:John" ]} ]} ]}
    {[ "admin" := admin; "nobody" := nobody ]}
    {[ "admin-read" := adminRead; "admin-write" := adminWrite ]}
    {[ "tok_1" := "customers/rec_0/first_name/plain" ]} ∅ 2 [].




Definition mem : Handler MemStore.Store := MemStore.handler MemStore.markPrivatiser.
Definition broken : Handler MemStore.Store := MemStore.handler MemStore.brokenPrivatiser.

(** A policy whose resource does not start with a slash. *)
Definition badPolicy : Policy :=
  mkPolicy "" "bad" "" EffectAllow [PolicyActionRead] ["customers"] "" "".

End Fixture.

(** ** Token payloads *)

(** How often the character occurs in the string. *)
Fixpoint count_char (c : ascii) (s : string) : nat :=
  match s with
  | EmptyString => 0
  | String c' s' => (if decide (c' = c) then 1 else 0) + count_char c s'
  end.

(** ** The operations that only read *)

(** The operations of [Vault] that return stored data, with their
    arguments; [Login] takes no acting principal. *)
Inductive ReadOp :=
| ReadCollection (name : string)
| ReadCollections
| ReadRecords (collectionName : string) (recordIDs : list string)
    (returnFormats : gmap string string)
| ReadRecordsFilter (collectionName fieldName value : string)
    (returnFormats : gmap string string)
| ReadPrincipal (username : string)
| ReadPolicy (policyId : string)
| ReadPrincipalPolicies
| ReadSubject (subjectId : string)
| ReadTokenValue (tokenId : string)
| ReadLogin (username password : string).

Section Reads.
Context {PE : PolicyEngine} {PT : PTypeEngine} {RO : RangeOrder}.

Definition run_read (principal : Principal) (op : ReadOp)
  : Prog (option error) :=
  match op with
  | ReadCollection name => returned_error (GetCollection principal name) error_of
  | ReadCollections => returned_error (GetCollections principal) error_of
  | ReadRecords c ids formats =>
      returned_error (GetRecords principal c ids formats) error_of
  | ReadRecordsFilter c f v formats =>
      returned_error (GetRecordsFilter principal c f v formats) error_of
  | ReadPrincipal u => returned_error (GetPrincipal principal u) error_of
  | ReadPolicy id => returned_error (GetPolicy principal id) error_of
  | ReadPrincipalPolicies =>
      returned_error (GetPrincipalPolicies principal) error_of
  | ReadSubject id => returned_error (GetSubject principal id) error_of
  | ReadTokenValue tokenId =>
      returned_error (GetTokenValue principal tokenId) error_of
  | ReadLogin username password =>
      returned_error (Login username password) error_of
  end.

End Reads.

(** The storage call that reads a collection and its schema. *)
Definition is_schema_read (o : Op) : bool :=
  match o with
  | DbGetCollection _ => true
  | _ => false
  end.

(** ** A principal with a narrow policy *)

Module Scenario.

(** Read access to the first name of one record, in any projection. *)
Definition nameOnly : Policy :=
  mkPolicy "name-only" "" "" EffectAllow [PolicyActionRead]
    ["/collections/customers/records/rec_0/first_name.*"] "" "".

Definition clerk : Principal :=
  mkPrincipal "prin_c" "clerk" "$2a$10$letmein" "" "" "" ["name-only"].

(** The small vault with one record, and the clerk and its policy. *)
Definition store : MemStore.Store :=
  MemStore.mkStore {[ "customers" := Fixture.customers ]}
    {[ "customers" := {[ "rec_0" := {[ "first_name" := "enc:John" ]} ]} ]}
    {[ "admin" := Fixture.admin; "clerk" := clerk ]}
    {[ "admin-read" := Fixture.adminRead; "admin-write" := Fixture.adminWrite;
       "name-only" := nameOnly ]} ∅ ∅ 1 [].

End Scenario.

(** ** The field loop of UpdateRecord over a cipher without state *)

(** One round of the loop of [UpdateRecord], as a function of the loop
    state: the value is encrypted and stored under its field name, with no
    look at the schema. *)
Definition encrypt_value (P : MemStore.Privatiser)
  : string * string → gmap string string → result (gmap string string) :=
  λ '(recordFieldName, recordFieldValue) encryptedRecord,
    match MemStore.Encrypt P recordFieldValue with
    | (_, Some e) => Err e
    | (encryptedValue, None) =>
        Ok (<[recordFieldName := encryptedValue]> encryptedRecord)
    end.

(** ** A storage backend that is down *)

Definition ErrDown : error := OtherError "dial tcp: connection refused".

(** Every storage call answers the same transport error; the other
    collaborators work. *)
Definition downHandler : Handler unit :=
  λ o w,
    (match o return Resp o with
     | DbGetCollection _ => Err ErrDown
     | DbGetCollections => Err ErrDown
     | DbCreateCollection _ => Err ErrDown
     | DbDeleteCollection _ => Err ErrDown
     | DbCreateRecords _ _ => Err ErrDown
     | DbGetRecords _ _ => Err ErrDown
     | DbGetRecordsFilter _ _ _ => Err ErrDown
     | DbUpdateRecord _ _ _ => Err ErrDown
     | DbDeleteRecord _ _ => Err ErrDown
     | DbGetPrincipal _ => Err ErrDown
     | DbCreatePrincipal _ => Err ErrDown
     | DbDeletePrincipal _ => Err ErrDown
     | DbGetPolicy _ => Err ErrDown
     | DbGetPolicies _ => Err ErrDown
     | DbCreatePolicy _ => Err ErrDown
     | DbDeletePolicy _ => Err ErrDown
     | DbCreateToken _ _ => Err ErrDown
     | DbDeleteToken _ => Err ErrDown
     | DbGetTokenValue _ => Err ErrDown
     | DbCreateSubject _ => Err ErrDown
     | DbGetSubject _ => Err ErrDown
     | DbDeleteSubject _ => Err ErrDown
     | DbFlush => Err ErrDown
     | PrivEncrypt v => (v, None)
     | PrivDecrypt v => (v, None)
     | LoggerError _ => tt
     | ValidatorStruct _ => VNil
     | GenerateId pre => pre +:+ "_0"
     | TimeNow => "2023-01-01T00:00:00Z"
     | BcryptGenerateFromPassword pw => (pw, None)
     | BcryptCompareHashAndPassword _ _ => None
     end, w).

(** ** The operations that are one storage call behind the policy check *)

(** The storage call of an operation that, once allowed, makes this one
    call and returns its answer. *)
Definition storage_call (principal : Principal) (op : GatedOp) : option Op :=
  match op with
  | OpGetCollection name => Some (DbGetCollection name)
  | OpGetCollections => Some DbGetCollections
  | OpDeleteCollection name => Some (DbDeleteCollection name)
  | OpDeleteRecord c id => Some (DbDeleteRecord c id)
  | OpGetPrincipal u => Some (DbGetPrincipal u)
  | OpDeletePrincipal u => Some (DbDeletePrincipal u)
  | OpGetPolicy id => Some (DbGetPolicy id)
  | OpDeletePolicy id => Some (DbDeletePolicy id)
  | OpGetPrincipalPolicies => Some (DbGetPolicies (prin_Policies principal))
  | OpGetSubject id => Some (DbGetSubject id)
  | OpDeleteSubject id => Some (DbDeleteSubject id)
  | _ => None
  end.

(** The error in the answer of a call, when its answer has one. *)
Definition resp_error (o : Op) : Resp o → option error :=
  match o return Resp o → option error with
  | DbGetCollection _ => error_of
  | DbGetCollections => error_of
  | DbCreateCollection _ => error_of
  | DbDeleteCollection _ => error_of
  | DbCreateRecords _ _ => error_of
  | DbGetRecords _ _ => error_of
  | DbGetRecordsFilter _ _ _ => error_of
  | DbUpdateRecord _ _ _ => error_of
  | DbDeleteRecord _ _ => error_of
  | DbGetPrincipal _ => error_of
  | DbCreatePrincipal _ => error_of
  | DbDeletePrincipal _ => error_of
  | DbGetPolicy _ => error_of
  | DbGetPolicies _ => error_of
  | DbCreatePolicy _ => error_of
  | DbDeletePolicy _ => error_of
  | DbCreateToken _ _ => error_of
  | DbDeleteToken _ => error_of
  | DbGetTokenValue _ => error_of
  | DbCreateSubject _ => error_of
  | DbGetSubject _ => error_of
  | DbDeleteSubject _ => error_of
  | DbFlush => error_of
  | PrivEncrypt _ => snd
  | PrivDecrypt _ => snd
  | LoggerError _ => λ _, None
  | ValidatorStruct _ => λ _, None
  | GenerateId _ => λ _, None
  | TimeNow => λ _, None
  | BcryptGenerateFromPassword _ => snd
  | BcryptCompareHashAndPassword _ _ => id
  end.

(** * Properties *)

(** ** Running programs *)

Section Exec.
Context {W : Type} (h : Handler W).

Lemma exec_bind {A B} (m : Prog A) (f : A → Prog B) (w : W) :
  exec h (bind m f) w =
    let '(a, w1, t1) := exec h m w in
    let '(b, w2, t2) := exec h (f a) w1 in
    (b, w2, t1 ++ t2).
Proof.
  revert w. induction m as [a | o k IH]; intros w; simpl.
  - by destruct (exec h (f a) w) as [[b w2] t2].
  - destruct (h o w) as [x w1]. rewrite IH.
    destruct (exec h (k x) w1) as [[a w2] t1].
    by destruct (exec h (f a) w2) as [[b w3] t2].
Qed.

Lemma exec_bindE {A B} (m : Prog (result A)) (f : A → Prog (result B)) (w : W) :
  exec h (bindE m f) w =
    let '(r, w1, t1) := exec h m w in
    match r with
    | Ok a => let '(b, w2, t2) := exec h (f a) w1 in (b, w2, t1 ++ t2)
    | Err e => (Err e, w1, t1)
    end.
Proof.
  unfold bindE. rewrite exec_bind.
  destruct (exec h m w) as [[[a | e] w1] t1]; simpl; [done |].
  by rewrite app_nil_r.
Qed.

Lemma exec_call (o : Op) (w : W) :
  exec h (call o) w = ((h o w).1, (h o w).2, [o]).
Proof. unfold call. simpl. by destruct (h o w). Qed.

(** A successful [bindE] ran both halves successfully. *)
Lemma exec_bindE_Ok {A B} (m : Prog (result A)) (f : A → Prog (result B))
    (w w' : W) (b : B) (t : list Op) :
  exec h (bindE m f) w = (Ok b, w', t) →
  ∃ a w1 t1 t2,
    exec h m w = (Ok a, w1, t1) ∧ exec h (f a) w1 = (Ok b, w', t2)
    ∧ t = t1 ++ t2.
Proof.
  rewrite exec_bindE.
  destruct (exec h m w) as [[[a | e] w1] t1]; [| done].
  destruct (exec h (f a) w1) as [[r w2] t2] eqn:Hf.
  intros [= -> -> <-]. by exists a, w1, t1, t2.
Qed.

Lemma exec_for_range_nil {T S} (s : S) (body : T → S → Prog (result S)) (w : W) :
  exec h (for_range [] s body) w = (Ok s, w, []).
Proof. done. Qed.

Lemma exec_for_range_cons {T S} (x : T) (l : list T) (s : S)
    (body : T → S → Prog (result S)) (w : W) :
  exec h (for_range (x :: l) s body) w =
    let '(r, w1, t1) := exec h (body x s) w in
    match r with
    | Ok s' => let '(b, w2, t2) := exec h (for_range l s' body) w1 in
               (b, w2, t1 ++ t2)
    | Err e => (Err e, w1, t1)
    end.
Proof. simpl. apply exec_bindE. Qed.

End Exec.

Lemma calls_only_bind {A B} (Q : Op → Prop) (m : Prog A) (f : A → Prog B) :
  calls_only Q m → (∀ a, calls_only Q (f a)) → calls_only Q (bind m f).
Proof.
  intros Hm Hf. induction Hm as [a | o k HQ Hk IH]; simpl; [done |].
  constructor; auto.
Qed.

Lemma calls_only_bindE {A B} (Q : Op → Prop) (m : Prog (result A))
    (f : A → Prog (result B)) :
  calls_only Q m → (∀ a, calls_only Q (f a)) → calls_only Q (bindE m f).
Proof.
  intros Hm Hf. apply calls_only_bind; [done |].
  intros [a | e]; [done | constructor].
Qed.

Lemma calls_only_call (Q : Op → Prop) (o : Op) : Q o → calls_only Q (call o).
Proof. intros HQ. constructor; [done | constructor]. Qed.

Lemma calls_only_for_range {T S} (Q : Op → Prop) (l : list T) (s : S)
    (body : T → S → Prog (result S)) :
  (∀ x s', calls_only Q (body x s')) → calls_only Q (for_range l s body).
Proof.
  intros Hb. revert s. induction l as [| x l IH]; intros s; simpl.
  - constructor.
  - apply calls_only_bindE; auto.
Qed.

(** A program that only makes calls satisfying [Q] leaves only such calls
    in its trace, and preserves what those calls preserve. *)
Lemma calls_only_trace {W A} (h : Handler W) (Q : Op → Prop) (p : Prog A) (w : W) :
  calls_only Q p → Forall Q (exec h p w).2.
Proof.
  intros Hp. revert w. induction Hp as [a | o k HQ Hk IH]; intros w; simpl.
  - constructor.
  - destruct (h o w) as [x w1]. specialize (IH x w1).
    destruct (exec h (k x) w1) as [[a w2] t]. simpl in *. by constructor.
Qed.

Lemma calls_only_preserve {W A} (h : Handler W) (Q : Op → Prop) (p : Prog A) (w : W) :
  (∀ o w0, Q o → (h o w0).2 = w0) →
  calls_only Q p → (exec h p w).1.2 = w.
Proof.
  intros HQw Hp. revert w. induction Hp as [a | o k HQ Hk IH]; intros w; simpl.
  - done.
  - specialize (HQw o w HQ). destruct (h o w) as [x w1]. simpl in HQw. subst w1.
    specialize (IH x w). by destruct (exec h (k x) w) as [[a w2] t].
Qed.

(** ** The policy decision *)

Section PolicyDecision.
Import SpecPolicy.

Lemma evaluate_true request policies allowed :
  evaluate request policies allowed = true ↔
    ¬ matching request policies EffectDeny
    ∧ (allowed = true ∨ matching request policies EffectAllow).
Proof.
  unfold matching. revert allowed.
  induction policies as [| p rest IH]; intros allowed; simpl.
  - split.
    + intros ->. split; [| by left]. intros (p & Hp & _). by inversion Hp.
    + intros [_ [-> | (p & Hp & _)]]; [done | by inversion Hp].
  - destruct (policyMatches request p) eqn:Hm.
    + case_bool_decide as Hd.
      * split; [done |]. intros [Hno _]. exfalso. apply Hno.
        exists p. split; [left | done].
      * case_bool_decide as Ha.
        -- rewrite IH. split.
           ++ intros [Hno _]. split.
              ** intros (q & Hq & Hqm & Hqe).
                 apply elem_of_cons in Hq as [-> | Hq]; [done |].
                 apply Hno. by exists q.
              ** right. exists p. split; [left | done].
           ++ intros [Hno _]. split; [| by left].
              intros (q & Hq & Hqm & Hqe). apply Hno. exists q.
              split; [by right | done].
        -- rewrite IH. split.
           ++ intros [Hno Hal]. split.
              ** intros (q & Hq & Hqm & Hqe).
                 apply elem_of_cons in Hq as [-> | Hq]; [done |].
                 apply Hno. by exists q.
              ** destruct Hal as [-> | (q & Hq & Hqm & Hqe)]; [by left |].
                 right. exists q. split; [by right | done].
           ++ intros [Hno Hal]. split.
              ** intros (q & Hq & Hqm & Hqe). apply Hno. exists q.
                 split; [by right | done].
              ** destruct Hal as [-> | (q & Hq & Hqm & Hqe)]; [by left |].
                 apply elem_of_cons in Hq as [-> | Hq]; [done |].
                 right. by exists q.
    + rewrite IH. split.
      * intros [Hno Hal]. split.
        -- intros (q & Hq & Hqm & Hqe).
           apply elem_of_cons in Hq as [-> | Hq]; [congruence |].
           apply Hno. by exists q.
        -- destruct Hal as [-> | (q & Hq & Hqm & Hqe)]; [by left |].
           right. exists q. split; [by right | done].
      * intros [Hno Hal]. split.
        -- intros (q & Hq & Hqm & Hqe). apply Hno. exists q.
           split; [by right | done].
        -- destruct Hal as [-> | (q & Hq & Hqm & Hqe)]; [by left |].
           apply elem_of_cons in Hq as [-> | Hq]; [congruence |].
           right. by exists q.
Qed.

Lemma EvaluateRequest_true request policies :
  EvaluateRequest request policies = true ↔
    ¬ matching request policies EffectDeny
    ∧ matching request policies EffectAllow.
Proof.
  unfold EvaluateRequest. rewrite evaluate_true. naive_solver.
Qed.

End PolicyDecision.

Lemma exec_ValidateAction {PE : PolicyEngine} {W} (h : Handler W) (w w' : W)
    (request : Request) (ps : list Policy) :
  h (DbGetPolicies (prin_Policies (Actor request))) w = (Ok ps, w') →
  exec h (ValidateAction request) w =
    (Ok (EvaluateRequest request ps), w',
     [DbGetPolicies (prin_Policies (Actor request))]).
Proof.
  intros Hh. unfold ValidateAction, call. rewrite exec_bindE. simpl.
  rewrite Hh. by destruct (EvaluateRequest request ps).
Qed.

Lemma exec_ValidateAction_Err {PE : PolicyEngine} {W} (h : Handler W) (w w' : W)
    (request : Request) (e : error) :
  h (DbGetPolicies (prin_Policies (Actor request))) w = (Err e, w') →
  exec h (ValidateAction request) w =
    (Err e, w', [DbGetPolicies (prin_Policies (Actor request))]).
Proof.
  intros Hh. unfold ValidateAction, call. rewrite exec_bindE. simpl.
  by rewrite Hh.
Qed.

(** C3. Under the policy engine of section 4.5, for every storage backend
    and every request, when the backend answers the attached policies [ps]
    the decision of [ValidateAction] is: deny if some attached policy
    matching on resource and action has effect deny; otherwise allow if
    some matching policy has effect allow; otherwise deny.  With no policy
    attached the decision is deny, and on the in-memory backend a principal
    with an empty policy list is denied every request. *)
Theorem C3_policy_decision {W} (h : Handler W) (w w' : W) (request : Request)
    (ps : list Policy) :
  h (DbGetPolicies (prin_Policies (Actor request))) w = (Ok ps, w') →
  ∃ allowed : bool,
    exec h (ValidateAction (PE := SpecPolicy.engine) request) w =
      (Ok allowed, w', [DbGetPolicies (prin_Policies (Actor request))])
    ∧ (SpecPolicy.matching request ps EffectDeny → allowed = false)
    ∧ (¬ SpecPolicy.matching request ps EffectDeny →
       SpecPolicy.matching request ps EffectAllow →
       allowed = true)
    ∧ (¬ SpecPolicy.matching request ps EffectAllow → allowed = false)
    ∧ (ps = [] → allowed = false)
    ∧ (∀ P s, prin_Policies (Actor request) = [] →
         exec (MemStore.handler P) (ValidateAction (PE := SpecPolicy.engine) request) s =
           (Ok false, s, [DbGetPolicies []])).
Proof.
  intros Hh. exists (SpecPolicy.EvaluateRequest request ps).
  split; [by apply (exec_ValidateAction (PE := SpecPolicy.engine)) |].
  pose proof (EvaluateRequest_true request ps) as Ht.
  repeat split.
  - intros Hd. apply not_true_is_false. rewrite Ht. naive_solver.
  - intros Hnd Ha. apply Ht. done.
  - intros Hna. apply not_true_is_false. rewrite Ht. naive_solver.
  - intros ->. done.
  - intros P s Hnil.
    rewrite (exec_ValidateAction (PE := SpecPolicy.engine) _ s s request []);
      [by rewrite Hnil |].
    by rewrite Hnil.
Qed.

Lemma C3_policy_decision_witness :
  let request := mkRequest Fixture.admin PolicyActionRead "/collections/customers" in
  Fixture.mem (DbGetPolicies (prin_Policies (Actor request))) Fixture.store0 =
    (Ok [Fixture.adminRead; Fixture.adminWrite], Fixture.store0)
  ∧ ∃ allowed : bool,
      exec Fixture.mem (ValidateAction (PE := SpecPolicy.engine) request) Fixture.store0 =
        (Ok allowed, Fixture.store0, [DbGetPolicies (prin_Policies (Actor request))])
      ∧ (SpecPolicy.matching request [Fixture.adminRead; Fixture.adminWrite] EffectDeny →
         allowed = false)
      ∧ (¬ SpecPolicy.matching request [Fixture.adminRead; Fixture.adminWrite] EffectDeny →
         SpecPolicy.matching request [Fixture.adminRead; Fixture.adminWrite] EffectAllow →
         allowed = true)
      ∧ (¬ SpecPolicy.matching request [Fixture.adminRead; Fixture.adminWrite] EffectAllow →
         allowed = false)
      ∧ ([Fixture.adminRead; Fixture.adminWrite] = [] → allowed = false)
      ∧ (∀ P s, prin_Policies (Actor request) = [] →
           exec (MemStore.handler P) (ValidateAction (PE := SpecPolicy.engine) request) s =
             (Ok false, s, [DbGetPolicies []])).
Proof.
  intros request. split; [vm_compute; reflexivity |].
  apply (C3_policy_decision Fixture.mem Fixture.store0 Fixture.store0 request
           [Fixture.adminRead; Fixture.adminWrite]).
  vm_compute; reflexivity.
Defined.

(** ** The order of [range] *)

Section Range.
Context {RO : RangeOrder}.

Lemma range_of_empty {V} : range_of (∅ : gmap string V) = [].
Proof.
  apply Permutation_nil_r. rewrite range_of_perm. by rewrite map_to_list_empty.
Qed.

Lemma range_of_singleton {V} (k : string) (v : V) :
  range_of ({[ k := v ]} : gmap string V) = [(k, v)].
Proof.
  apply Permutation_singleton_r. rewrite range_of_perm.
  by rewrite map_to_list_singleton.
Qed.

Lemma range_of_nil_inv {V} (m : gmap string V) : range_of m = [] → m = ∅.
Proof.
  intros Hnil. apply map_to_list_empty_iff. apply Permutation_nil_r.
  by rewrite <- range_of_perm, Hnil.
Qed.

Lemma range_of_NoDup_fst {V} (m : gmap string V) : NoDup (range_of m).*1.
Proof. rewrite range_of_perm. apply NoDup_fst_map_to_list. Qed.

Lemma elem_of_range_of {V} (m : gmap string V) (k : string) (v : V) :
  (k, v) ∈ range_of m ↔ m !! k = Some v.
Proof. rewrite range_of_perm. apply elem_of_map_to_list. Qed.

Lemma list_to_map_range_of {V} (m : gmap string V) :
  list_to_map (range_of m) = m.
Proof.
  rewrite <- (list_to_map_to_list m) at 2.
  apply list_to_map_proper; [apply range_of_NoDup_fst | apply range_of_perm].
Qed.

End Range.

(** ** Denied principals *)

Section Denied.
Context {PE : PolicyEngine} {PT : PTypeEngine} {RO : RangeOrder}.
Context {W : Type} (h : Handler W).

(** The step every gated operation starts with. *)
Ltac deny_step Hh Hdeny :=
  cbn [negb];
  lazymatch type of Hh with
  | ?h (DbGetPolicies (prin_Policies ?p)) ?w = (Ok ?ps, ?w') =>
      first
        [ rewrite exec_bindE,
            (exec_ValidateAction h w w' (mkRequest p _ _) ps Hh), Hdeny
        | rewrite exec_bind,
            (exec_ValidateAction h w w' (mkRequest p _ _) ps Hh), Hdeny ]
  end;
  reflexivity.

(** C1, as the code has it.  For every storage backend and policy engine
    and each operation that asks the policy engine first (every public
    operation but GetRecordsFilter, GetTokenValue, Login and DeleteToken),
    on an input that reaches the engine, when the engine denies the first
    request the operation returns the Forbidden that carries this request,
    the fetch of the principal's policies is the only call it makes, and
    the backend is left as that fetch leaves it.  CreatePolicy with a
    resource that does not start with a slash returns a ValueError and
    makes no call at all. *)
Theorem C1_denied_before_storage (w w' : W) (principal : Principal)
    (op : GatedOp) (ps : list Policy) :
  reaches_engine op →
  h (DbGetPolicies (prin_Policies principal)) w = (Ok ps, w') →
  EvaluateRequest (first_request principal op) ps = false →
  exec h (run_gated principal op) w =
    (Some (ForbiddenError (first_request principal op)), w',
     [DbGetPolicies (prin_Policies principal)])
  ∧ forbidden_first (exec h (run_gated principal op) w)
  ∧ (∀ (p : Policy) (resource : string),
       first_bad_resource (pol_Resources p) = Some resource →
       exec h (CreatePolicy principal p) w =
         ((p, Err (ValueError ("resources must start with a slash - '" +:+
                     resource +:+ "' is not a valid resource"))), w, [])).
Proof.
  intros Hreach Hh Hdeny.
  assert (exec h (run_gated principal op) w =
    (Some (ForbiddenError (first_request principal op)), w',
     [DbGetPolicies (prin_Policies principal)])) as Hexec.
  { destruct op; unfold run_gated, returned_error; rewrite exec_bind;
      simpl in Hdeny, Hreach.
    - unfold GetCollection. by deny_step Hh Hdeny.
    - unfold GetCollections. by deny_step Hh Hdeny.
    - unfold CreateCollection. by deny_step Hh Hdeny.
    - unfold DeleteCollection. by deny_step Hh Hdeny.
    - unfold CreateRecords. by deny_step Hh Hdeny.
    - destruct Hreach as [Hids Hformats]. unfold GetRecords, first_request.
      destruct recordIDs as [| id ids]; [done |].
      destruct (range_of returnFormats) as [| [field format] rest] eqn:Hr;
        [by apply range_of_nil_inv in Hr |].
      rewrite decide_False by done.
      rewrite exec_bindE, exec_for_range_cons. cbv beta.
      rewrite exec_for_range_cons.
      unfold record_path in Hdeny |- *.
      rewrite exec_bindE, (exec_ValidateAction h w w' (mkRequest principal _ _) ps Hh), Hdeny.
      reflexivity.
    - unfold UpdateRecord. by deny_step Hh Hdeny.
    - unfold DeleteRecord. by deny_step Hh Hdeny.
    - unfold GetPrincipal. by deny_step Hh Hdeny.
    - unfold CreatePrincipal. by deny_step Hh Hdeny.
    - unfold DeletePrincipal. by deny_step Hh Hdeny.
    - unfold CreatePolicy. rewrite Hreach. by deny_step Hh Hdeny.
    - unfold GetPolicy. by deny_step Hh Hdeny.
    - unfold DeletePolicy. by deny_step Hh Hdeny.
    - unfold GetPrincipalPolicies. by deny_step Hh Hdeny.
    - unfold CreateToken, GetRecords. rewrite decide_False by done.
      rewrite !exec_bindE, exec_for_range_cons, range_of_singleton. cbv beta.
      rewrite exec_for_range_cons.
      unfold record_path in Hdeny |- *.
      rewrite exec_bindE, (exec_ValidateAction h w w' (mkRequest principal _ _) ps Hh), Hdeny.
      reflexivity.
    - unfold CreateSubject. by deny_step Hh Hdeny.
    - unfold GetSubject. by deny_step Hh Hdeny.
    - unfold DeleteSubject. by deny_step Hh Hdeny. }
  split; [done |]. split.
  - rewrite Hexec. unfold forbidden_first. simpl. split; [by eexists |].
    split; [by eexists |]. by repeat constructor.
  - intros p resource Hbad. unfold CreatePolicy. by rewrite Hbad.
Qed.

End Denied.

Lemma C1_denied_before_storage_witness :
  let op := OpDeleteCollection "customers" in
  reaches_engine op
  ∧ Fixture.mem (DbGetPolicies (prin_Policies Fixture.nobody)) Fixture.store1 =
      (Ok [], Fixture.store1)
  ∧ EvaluateRequest (PolicyEngine := SpecPolicy.engine)
      (first_request (RO := keyOrder) Fixture.nobody op) [] = false
  ∧ exec Fixture.mem
      (run_gated (PE := SpecPolicy.engine) (PT := SpecPType.engine)
         (RO := keyOrder) Fixture.nobody op) Fixture.store1 =
      (Some (ForbiddenError (first_request (RO := keyOrder) Fixture.nobody op)),
       Fixture.store1, [DbGetPolicies (prin_Policies Fixture.nobody)]).
Proof.
  intros op.
  split; [exact I |]. split; [vm_compute; reflexivity |].
  split; [reflexivity |].
  apply (C1_denied_before_storage (PE := SpecPolicy.engine)
           (PT := SpecPType.engine) (RO := keyOrder)
           Fixture.mem Fixture.store1 Fixture.store1 Fixture.nobody op []).
  - exact I.
  - vm_compute; reflexivity.
  - reflexivity.
Defined.

(** C1 as stated fails.  On the small vault, the principal [nobody] has no
    policy and the policy engine denies it every request; yet CreatePolicy
    with a resource that does not start with a slash returns a ValueError,
    not a Forbidden, and GetRecordsFilter calls the cipher and the index
    lookup of the storage backend before the policy engine is asked. *)
Lemma C1_counterexample :
  (∀ action resource,
     exec Fixture.mem
       (ValidateAction (PE := SpecPolicy.engine)
          (mkRequest Fixture.nobody action resource)) Fixture.store1 =
       (Ok false, Fixture.store1, [DbGetPolicies []]))
  ∧ ¬ forbidden_first
        (exec Fixture.mem
           (run_gated (PE := SpecPolicy.engine) (PT := SpecPType.engine)
              (RO := keyOrder) Fixture.nobody (OpCreatePolicy Fixture.badPolicy))
           Fixture.store1)
  ∧ ¬ forbidden_first
        (exec Fixture.mem
           (returned_error
              (GetRecordsFilter (PE := SpecPolicy.engine) (PT := SpecPType.engine)
                 (RO := keyOrder) Fixture.nobody "customers" "first_name" "John"
                 {[ "first_name" := "plain" ]}) error_of)
           Fixture.store1)
  ∧ (exec Fixture.mem
       (GetRecordsFilter (PE := SpecPolicy.engine) (PT := SpecPType.engine)
          (RO := keyOrder) Fixture.nobody "customers" "first_name" "John"
          {[ "first_name" := "plain" ]}) Fixture.store1).2 =
      [PrivEncrypt "John";
       DbGetRecordsFilter "customers" "first_name" "enc:John";
       DbGetPolicies []].
Proof.
  split; [| split; [| split]].
  - intros action resource.
    by rewrite (exec_ValidateAction (PE := SpecPolicy.engine) Fixture.mem
                  Fixture.store1 Fixture.store1
                  (mkRequest Fixture.nobody action resource) []).
  - intros [[request Hr] _]. vm_compute in Hr. discriminate.
  - intros [_ [[ids Hh] _]]. vm_compute in Hh. discriminate.
  - vm_compute. reflexivity.
Qed.

(** ** Login *)

(** C5, as the code has it.  For every storage backend and every input on
    which Login fails: when the access key or the secret is empty the error
    is the ValueError of the guard, returned before any call; in every other
    case (unknown access key, stored principal without name or hash, wrong
    secret) the error is one and the same Forbidden, the one that carries
    the zero request. *)
Theorem C5_Login_failures {W} (h : Handler W) (w : W)
    (username password : string) (e : error) :
  (exec h (Login username password) w).1.1 = Err e →
  if bool_decide (username = "") || bool_decide (password = "")
  then e = ValueError "username and password must not be empty"
       ∧ exec h (Login username password) w = (Err e, w, [])
  else e = ForbiddenError zeroRequest.
Proof.
  unfold Login, call.
  destruct (bool_decide (username = "") || bool_decide (password = "")).
  - simpl. by intros [= <-].
  - simpl. destruct (h (DbGetPrincipal username) w) as [[dbPrincipal | e0] w1].
    + destruct (bool_decide (prin_Username dbPrincipal = "")
                || bool_decide (prin_Password dbPrincipal = "")).
      * simpl. by intros [= <-].
      * simpl.
        destruct (h (BcryptCompareHashAndPassword (prin_Password dbPrincipal)
                       password) w1) as [[e1 |] w2]; simpl.
        -- by intros [= <-].
        -- done.
    + simpl. destruct (h (LoggerError "Error getting principal") w1) as [[] w2].
      simpl. by intros [= <-].
Qed.

Lemma C5_Login_failures_witness :
  (exec Fixture.mem (Login "admin" "wrong") Fixture.store1).1.1 =
    Err (ForbiddenError zeroRequest)
  ∧ (if bool_decide ("admin" = "") || bool_decide ("wrong" = "")
     then ForbiddenError zeroRequest
            = ValueError "username and password must not be empty"
          ∧ exec Fixture.mem (Login "admin" "wrong") Fixture.store1 =
              (Err (ForbiddenError zeroRequest), Fixture.store1, [])
     else ForbiddenError zeroRequest = ForbiddenError zeroRequest).
Proof.
  split; [vm_compute; reflexivity |].
  apply (C5_Login_failures Fixture.mem Fixture.store1 "admin" "wrong"
           (ForbiddenError zeroRequest)).
  vm_compute; reflexivity.
Defined.

(** C5 as stated fails: Login with an empty access key fails with a
    ValueError, while Login with an unknown access key fails with the
    Forbidden of the zero request, and the two errors differ. *)
Lemma C5_counterexample :
  (exec Fixture.mem (Login "" "secret") Fixture.store1).1.1 =
    Err (ValueError "username and password must not be empty")
  ∧ (exec Fixture.mem (Login "ghost" "secret") Fixture.store1).1.1 =
      Err (ForbiddenError zeroRequest)
  ∧ ValueError "username and password must not be empty"
      ≠ ForbiddenError zeroRequest.
Proof.
  split; [vm_compute; reflexivity |]. split; [vm_compute; reflexivity |]. done.
Qed.

(** ** Errors of the cipher *)

Section Cipher.
Context {PE : PolicyEngine} {PT : PTypeEngine} {RO : RangeOrder}.
Context {W : Type} (h : Handler W).

(** Whatever [Encrypt] answers next to its value, GetRecordsFilter goes
    on to the index lookup with that value. *)
Lemma GetRecordsFilter_ignores_Encrypt_error (w w1 : W) (principal : Principal)
    (collectionName fieldName value val : string) (err : option error)
    (returnFormats : gmap string string) :
  h (PrivEncrypt value) w = ((val, err), w1) →
  exec h (GetRecordsFilter principal collectionName fieldName value
            returnFormats) w =
    let '(r, w2, t) :=
      exec h (bindE (call (DbGetRecordsFilter collectionName fieldName val))
                (λ recordIds, GetRecords principal collectionName recordIds
                                returnFormats)) w1 in
    (r, w2, PrivEncrypt value :: t).
Proof.
  intros Hh. unfold GetRecordsFilter. rewrite exec_bind.
  unfold call at 1. simpl exec at 1. rewrite Hh. simpl.
  reflexivity.
Qed.

End Cipher.

(** C9, at a failing input.  With a cipher whose [Encrypt] fails,
    GetRecordsFilter does not return the cipher's error: it looks the empty
    value up in the index and returns what the rest of the operation
    returns, here the ValueError of GetRecords for the empty id list.  On
    the same vault CreateRecords returns the cipher's error unchanged. *)
Theorem C9_GetRecordsFilter_drops_Encrypt_error :
  Fixture.broken (PrivEncrypt "John") Fixture.store1 =
    (("", Some (OtherError "cipher: invalid key size")), Fixture.store1)
  ∧ exec Fixture.broken
      (GetRecordsFilter (PE := SpecPolicy.engine) (PT := SpecPType.engine)
         (RO := keyOrder) Fixture.admin "customers" "first_name" "John"
         {[ "first_name" := "plain" ]}) Fixture.store1 =
      (Err (ValueError "recordIDs must not be empty"), Fixture.store1,
       [PrivEncrypt "John"; DbGetRecordsFilter "customers" "first_name" ""])
  ∧ exec Fixture.broken
      (CreateRecords (PE := SpecPolicy.engine) (PT := SpecPType.engine)
         (RO := keyOrder) Fixture.admin "customers"
         [ {[ "first_name" := "John" ]} ]) Fixture.store1 =
      (Err (OtherError "cipher: invalid key size"), Fixture.store1,
       [DbGetPolicies ["admin-read"; "admin-write"];
        DbGetCollection "customers"; PrivEncrypt "John"]).
Proof.
  split; [vm_compute; reflexivity |]. split; vm_compute; reflexivity.
Qed.

(** ** Fields of stored records *)

(** C6, at a failing input.  The collection [customers] declares only
    [first_name].  UpdateRecord with a patch on the undeclared field
    [nickname] is not rejected: it encrypts the value, calls the storage
    write, returns no error, and the stored record then has a field the
    schema does not declare.  CreateRecords with the same field returns the
    ValueError before any storage write. *)
Theorem C6_UpdateRecord_stores_undeclared_field :
  let out :=
    exec Fixture.mem
      (UpdateRecord (PE := SpecPolicy.engine) (RO := keyOrder) Fixture.admin
         "customers" "rec_0" {[ "nickname" := "Johnny" ]}) Fixture.store1 in
  col_Fields Fixture.customers !! "nickname" = None
  ∧ out.1.1 = Ok tt
  ∧ out.2 = [DbGetPolicies ["admin-read"; "admin-write"];
             PrivEncrypt "Johnny";
             DbUpdateRecord "customers" "rec_0" {[ "nickname" := "enc:Johnny" ]}]
  ∧ MemStore.records_of out.1.2 "customers" !! "rec_0" =
      Some {[ "first_name" := "enc:John"; "nickname" := "enc:Johnny" ]}
  ∧ exec Fixture.mem
      (CreateRecords (PE := SpecPolicy.engine) (PT := SpecPType.engine)
         (RO := keyOrder) Fixture.admin "customers"
         [ {[ "nickname" := "Johnny" ]} ]) Fixture.store1 =
      (Err (ValueError "Field nickname not found on collection customers"),
       Fixture.store1,
       [DbGetPolicies ["admin-read"; "admin-write"]; DbGetCollection "customers"]).
Proof.
  repeat split; vm_compute; reflexivity.
Qed.

(** ** Loops *)

Section Loops.
Context {W : Type} (h : Handler W).

(** A loop whose body makes no call and cannot fail is a fold. *)
Lemma exec_for_range_silent {T S} (g : T → S → S)
    (body : T → S → Prog (result S)) (l : list T) (s : S) (w : W) :
  (∀ x s0, exec h (body x s0) w = (Ok (g x s0), w, [])) →
  exec h (for_range l s body) w = (Ok (foldl (λ s0 x, g x s0) s l), w, []).
Proof.
  intros Hbody. revert s. induction l as [| x l IH]; intros s; [done |].
  rewrite exec_for_range_cons, Hbody, IH. done.
Qed.

(** A loop whose body leaves the world as it is and whose result is a
    function of the element and the loop state is a fold with early exit. *)
Lemma exec_for_range_fold {T S} (step : T → S → result S)
    (body : T → S → Prog (result S)) (l : list T) (s : S) (w : W) :
  (∀ x s0, x ∈ l → (exec h (body x s0) w).1 = (step x s0, w)) →
  (exec h (for_range l s body) w).1 = (fold_result step l s, w).
Proof.
  revert s. induction l as [| x l IH]; intros s Hbody; [done |].
  rewrite exec_for_range_cons. simpl.
  pose proof (Hbody x s (list_elem_of_here _ _)) as Hx.
  destruct (exec h (body x s) w) as [[r w1] t1]. simpl in Hx.
  injection Hx as -> ->.
  destruct (step x s) as [s' | e]; [| done].
  specialize (IH s' (λ y s0 Hy, Hbody y s0 (list_elem_of_further _ _ _ Hy))).
  destruct (exec h (for_range l s' body) w) as [[r w2] t2]. done.
Qed.

Lemma exec_bindE_fst_Ok {A B} (m : Prog (result A)) (f : A → Prog (result B))
    (w w1 : W) (a : A) :
  (exec h m w).1 = (Ok a, w1) →
  (exec h (bindE m f) w).1 = (exec h (f a) w1).1.
Proof.
  intros Hm. rewrite exec_bindE.
  destruct (exec h m w) as [[r w2] t1]. simpl in Hm. injection Hm as -> ->.
  by destruct (exec h (f a) w1) as [[b w3] t2].
Qed.


End Loops.

Lemma fold_result_total {T S} (g : T → S → S) (l : list T) (s : S) :
  fold_result (λ x s0, Ok (g x s0)) l s = Ok (foldl (λ s0 x, g x s0) s l).
Proof. revert s. induction l as [| x l IH]; intros s; simpl; [done | apply IH]. Qed.

Lemma fold_result_ext {T S} (step step' : T → S → result S) (l : list T) (s : S) :
  (∀ x s0, x ∈ l → step x s0 = step' x s0) →
  fold_result step l s = fold_result step' l s.
Proof.
  revert s. induction l as [| x l IH]; intros s Hext; simpl; [done |].
  rewrite <- (Hext x s) by left.
  destruct (step x s) as [s' | e]; [| done].
  apply IH. intros y s0 Hy. apply Hext. by right.
Qed.

(** Inserting, for each key of a list, a value that depends on the key. *)
Lemma foldl_insert_lookup {V X} (g : string → V) (l : list (string * X))
    (acc : gmap string V) (k : string) :
  foldl (λ a x, <[x.1 := g x.1]> a) acc l !! k =
    if decide (k ∈ l.*1) then Some (g k) else acc !! k.
Proof.
  revert acc. induction l as [| [k0 x0] l IH]; intros acc.
  - rewrite decide_False; [done | by apply not_elem_of_nil].
  - rewrite fmap_cons. cbn [foldl fst]. rewrite IH.
    destruct (decide (k ∈ l.*1)) as [Hin | Hnin].
    + rewrite decide_True; [done | by right].
    + destruct (decide (k = k0)) as [-> | Hne].
      * rewrite decide_True by left. by rewrite lookup_insert_eq.
      * rewrite decide_False.
        -- by rewrite lookup_insert_ne.
        -- intros [? | ?]%elem_of_cons; done.
Qed.

Lemma elem_of_range_of_fst {RO : RangeOrder} {V} (m : gmap string V) (k : string) :
  k ∈ (range_of m).*1 ↔ is_Some (m !! k).
Proof.
  rewrite list_elem_of_fmap. split.
  - intros ([k' v] & -> & Hin). apply elem_of_range_of in Hin. by eexists.
  - intros [v Hv]. exists (k, v). split; [done |]. by apply elem_of_range_of.
Qed.

(** ** GetRecords with no requested field *)

Section EmptyFormats.
Context {PE : PolicyEngine} {PT : PTypeEngine} {RO : RangeOrder}.
Context {W : Type} (h : Handler W).

(** C4.  For every storage backend, principal and non-empty id list,
    GetRecords with an empty format map never calls the policy engine: its
    first call is the storage read of the collection, and it returns the
    error of that read, or the error of the storage read of the records, or
    NotFound for the first id when that read finds nothing, or else one
    record with no field for every record the read found.  It returns a
    Forbidden only if one of the two storage reads returned one. *)
Theorem C4_GetRecords_empty_formats (w : W) (principal : Principal)
    (collectionName : string) (recordIDs : list string) :
  recordIDs ≠ [] →
  let out := exec h (GetRecords principal collectionName recordIDs ∅) w in
  Forall (λ o, is_policy_fetch o = false) out.2
  ∧ head out.2 = Some (DbGetCollection collectionName)
  ∧ match h (DbGetCollection collectionName) w with
    | (Err e, w1) => out = (Err e, w1, [DbGetCollection collectionName])
    | (Ok _, w1) =>
        match h (DbGetRecords collectionName recordIDs) w1 with
        | (Err e, w2) =>
            out = (Err e, w2, [DbGetCollection collectionName;
                               DbGetRecords collectionName recordIDs])
        | (Ok found, w2) =>
            out = (if decide (size found = 0)
                   then Err (NotFoundError "record" (hd "" recordIDs))
                   else Ok ((λ _, ∅) <$> found),
                   w2, [DbGetCollection collectionName;
                        DbGetRecords collectionName recordIDs])
        end
    end
  ∧ (is_forbidden out.1.1 = true →
     is_forbidden (h (DbGetCollection collectionName) w).1 = true
     ∨ ∃ c w1, h (DbGetCollection collectionName) w = (Ok c, w1)
               ∧ is_forbidden (h (DbGetRecords collectionName recordIDs) w1).1 = true).
Proof.
  intros Hids out.
  assert (match h (DbGetCollection collectionName) w with
    | (Err e, w1) => out = (Err e, w1, [DbGetCollection collectionName])
    | (Ok _, w1) =>
        match h (DbGetRecords collectionName recordIDs) w1 with
        | (Err e, w2) =>
            out = (Err e, w2, [DbGetCollection collectionName;
                               DbGetRecords collectionName recordIDs])
        | (Ok found, w2) =>
            out = (if decide (size found = 0)
                   then Err (NotFoundError "record" (hd "" recordIDs))
                   else Ok ((λ _, ∅) <$> found),
                   w2, [DbGetCollection collectionName;
                        DbGetRecords collectionName recordIDs])
        end
    end) as Hout.
  { subst out. unfold GetRecords, call.
    rewrite decide_False by (by destruct recordIDs).
    rewrite range_of_empty, exec_bindE.
    rewrite (exec_for_range_silent h (λ _ s, s)) by (by intros x []).
    rewrite exec_bindE. cbn [exec].
    destruct (h (DbGetCollection collectionName) w) as [[c | e] w1]; [| done].
    cbn [for_range]. repeat (rewrite exec_bindE; cbn [exec]).
    destruct (h (DbGetRecords collectionName recordIDs) w1) as [[found | e] w2];
      [| done].
    destruct (decide (size found = 0)) as [Hz | Hnz]; [done |].
    rewrite (exec_for_range_silent h (λ x s, <[x.1 := ∅]> s)).
    - simpl. do 3 f_equal. apply map_eq. intros k.
      rewrite (foldl_insert_lookup (λ _, ∅)), lookup_fmap, lookup_empty.
      destruct (decide (k ∈ (range_of found).*1)) as [Hin | Hnin].
      + apply elem_of_range_of_fst in Hin as [v ->]. done.
      + destruct (found !! k) eqn:Hk; [| done].
        exfalso. apply Hnin. apply elem_of_range_of_fst. by eexists.
    - by intros [recordId record] s0. }
  destruct (h (DbGetCollection collectionName) w) as [[c | e] w1] eqn:Hc.
  - destruct (h (DbGetRecords collectionName recordIDs) w1) as [[found | e] w2] eqn:Hr.
    + rewrite Hout. cbn [fst snd].
      split; [by repeat constructor |].
      split; [done |]. split; [done |].
      destruct (decide (size found = 0)); done.
    + rewrite Hout. cbn [fst snd].
      split; [by repeat constructor |].
      split; [done |]. split; [done |].
      intros He. right. exists c, w1. by rewrite Hr.
  - rewrite Hout. cbn [fst snd].
    split; [by repeat constructor |].
    split; [done |]. split; [done |].
    intros He. by left.
Qed.

End EmptyFormats.

Lemma C4_GetRecords_empty_formats_witness :
  ["rec_0"] ≠ []
  ∧ exec Fixture.mem
      (GetRecords (PE := SpecPolicy.engine) (PT := SpecPType.engine)
         (RO := keyOrder) Fixture.nobody "customers" ["rec_0"] ∅)
      Fixture.store1 =
      (Ok {[ "rec_0" := ∅ ]}, Fixture.store1,
       [DbGetCollection "customers"; DbGetRecords "customers" ["rec_0"]]).
Proof.
  split; [done |].
  pose proof (C4_GetRecords_empty_formats (PE := SpecPolicy.engine)
                (PT := SpecPType.engine) (RO := keyOrder) Fixture.mem
                Fixture.store1 Fixture.nobody "customers" ["rec_0"]) as Hc4.
  destruct Hc4 as (_ & _ & Hout & _); [done |].
  vm_compute in Hout. vm_compute. exact Hout.
Defined.

(** ** What a successful GetRecords returns *)

Section NonEmpty.
Context {PE : PolicyEngine} {PT : PTypeEngine} {RO : RangeOrder}.
Context {W : Type} (h : Handler W).

(** A loop that starts from a non-empty map, or runs at least once, and
    whose body only returns non-empty maps, returns a non-empty map. *)
Lemma for_range_Ok_non_empty {T V} (body : T → gmap string V → Prog (result (gmap string V)))
    (l : list T) (acc res : gmap string V) (w w' : W) (t : list Op) :
  (∀ x a w0 r w1 t1, exec h (body x a) w0 = (Ok r, w1, t1) → r ≠ ∅) →
  l ≠ [] ∨ acc ≠ ∅ →
  exec h (for_range l acc body) w = (Ok res, w', t) →
  res ≠ ∅.
Proof.
  intros Hbody. revert acc w t. induction l as [| x l IH]; intros acc w t Hne.
  - rewrite exec_for_range_nil. intros [= <- <- <-]. by destruct Hne.
  - rewrite exec_for_range_cons.
    destruct (exec h (body x acc) w) as [[[r | e] w1] t1] eqn:Hx; [| done].
    destruct (exec h (for_range l r body) w1) as [[r2 w2] t2] eqn:Hl.
    intros [= -> <- <-]. eapply IH; [| exact Hl]. right. by eapply Hbody.
Qed.

Lemma exec_Ret_Err_Ok {A} (e : error) (a : A) (w w' : W) (t : list Op) :
  exec h (Ret (Err e : result A)) w = (Ok a, w', t) → False.
Proof. done. Qed.

(** GetRecords never returns an empty map together with a nil error. *)
Lemma GetRecords_Ok_non_empty (w w' : W) (principal : Principal)
    (collectionName : string) (recordIDs : list string)
    (returnFormats : gmap string string) (records : gmap string Record_)
    (t : list Op) :
  exec h (GetRecords principal collectionName recordIDs returnFormats) w =
    (Ok records, w', t) →
  records ≠ ∅.
Proof.
  unfold GetRecords. destruct (decide (length recordIDs = 0)); [done |].
  intros (_ & w1 & t1 & t2 & _ & Hrest & _)%exec_bindE_Ok.
  apply exec_bindE_Ok in Hrest as (col & w2 & t3 & t4 & _ & Hrest & _).
  apply exec_bindE_Ok in Hrest as (_ & w3 & t5 & t6 & _ & Hrest & _).
  apply exec_bindE_Ok in Hrest as (found & w4 & t7 & t8 & _ & Hrest & _).
  destruct (decide (size found = 0)) as [| Hsize]; [done |].
  eapply for_range_Ok_non_empty; [| | exact Hrest].
  - intros [recordId record] a w0 r w5 t9 Hbody.
    apply exec_bindE_Ok in Hbody as (d & w6 & t10 & t11 & _ & Hret & _).
    injection Hret as <- _ _. apply insert_non_empty.
  - left. intros Hnil. apply range_of_nil_inv in Hnil. subst found.
    by rewrite map_size_empty in Hsize.
Qed.

(** C10.  For every storage backend: whenever GetRecords returns a nil
    error its map is non-empty; so when the GetRecords call inside
    CreateToken succeeds the loop over the returned records runs, and
    CreateToken returns the minted token id, or the error the storage
    backend gave when asked to persist the token.  The NotFound after the
    loop is not reached. *)
Theorem C10_CreateToken_after_GetRecords (w w1 : W) (principal : Principal)
    (collectionName recordId fieldName returnFormat : string)
    (records : gmap string Record_) (t1 : list Op) :
  exec h (GetRecords principal collectionName [recordId]
            {[ fieldName := returnFormat ]}) w = (Ok records, w1, t1) →
  records ≠ ∅
  ∧ ∃ id, id ∈ dom records
    ∧ let tokenId := (h (GenerateId "tok") w1).1 in
      let w2 := (h (GenerateId "tok") w1).2 in
      let value := collectionName +:+ "/" +:+ id +:+ "/" +:+
                     fieldName +:+ "/" +:+ returnFormat in
      exec h (CreateToken principal collectionName recordId fieldName
                returnFormat) w =
        (match (h (DbCreateToken tokenId value) w2).1 with
         | Ok _ => Ok tokenId
         | Err e => Err e
         end,
         (h (DbCreateToken tokenId value) w2).2,
         t1 ++ [GenerateId "tok"; DbCreateToken tokenId value]).
Proof.
  intros Hget. pose proof (GetRecords_Ok_non_empty _ _ _ _ _ _ _ _ Hget) as Hne.
  split; [done |].
  destruct (range_of records) as [| [id record] rest] eqn:Hrange.
  { by apply range_of_nil_inv in Hrange. }
  exists id. split.
  { apply elem_of_dom. apply elem_of_range_of_fst. rewrite Hrange. left. }
  unfold CreateToken. rewrite exec_bindE, Hget, exec_bind.
  unfold call. cbn [exec].
  destruct (h (GenerateId "tok") w1) as [tokenId w2]. cbn [fst snd].
  rewrite Hrange, exec_bind. cbn [exec].
  destruct (h (DbCreateToken tokenId _) w2) as [[[] | e] w3]; done.
Qed.

End NonEmpty.

Lemma C10_CreateToken_after_GetRecords_witness :
  exec Fixture.mem
    (GetRecords (PE := SpecPolicy.engine) (PT := SpecPType.engine)
       (RO := keyOrder) Fixture.admin "customers" ["rec_0"]
       {[ "first_name" := "plain" ]}) Fixture.store1 =
    (Ok {[ "rec_0" := {[ "first_name" := "John" ]} ]}, Fixture.store1,
     [DbGetPolicies ["admin-read"; "admin-write"]; DbGetCollection "customers";
      DbGetRecords "customers" ["rec_0"]; PrivDecrypt "enc:John"])
  ∧ ({[ "rec_0" := {[ "first_name" := "John" ]} ]} : gmap string (gmap string string)) ≠ ∅.
Proof.
  assert (exec Fixture.mem
    (GetRecords (PE := SpecPolicy.engine) (PT := SpecPType.engine)
       (RO := keyOrder) Fixture.admin "customers" ["rec_0"]
       {[ "first_name" := "plain" ]}) Fixture.store1 =
    (Ok {[ "rec_0" := {[ "first_name" := "John" ]} ]}, Fixture.store1,
     [DbGetPolicies ["admin-read"; "admin-write"]; DbGetCollection "customers";
      DbGetRecords "customers" ["rec_0"]; PrivDecrypt "enc:John"])) as Hget.
  { vm_compute; reflexivity. }
  split; [exact Hget |].
  exact (proj1 (C10_CreateToken_after_GetRecords (PE := SpecPolicy.engine)
                  (PT := SpecPType.engine) (RO := keyOrder) Fixture.mem
                  Fixture.store1 Fixture.store1 Fixture.admin "customers"
                  "rec_0" "first_name" "plain" _ _ Hget)).
Defined.

(** ** The orchestrator over the in-memory backend *)

Lemma fold_result_unit {T} (l : list T) :
  fold_result (λ (_ : T) (_ : unit), Ok tt) l tt = Ok tt.
Proof. induction l as [| x l IH]; simpl; done. Qed.


Lemma found_singleton (m : gmap string (gmap string string)) (id : string) :
  MemStore.found m [id] =
    match m !! id with
    | Some r => {[ id := r ]}
    | None => ∅
    end.
Proof. unfold MemStore.found. simpl. by destruct (m !! id). Qed.

Section Mem.
Context {PE : PolicyEngine} {PT : PTypeEngine} {RO : RangeOrder}.
Context (P : MemStore.Privatiser).

Lemma mem_ValidateAction (s : MemStore.Store) (request : Request) :
  exec (MemStore.handler P) (ValidateAction request) s =
    (Ok (EvaluateRequest request (attached s (Actor request))), s,
     [DbGetPolicies (prin_Policies (Actor request))]).
Proof. by apply exec_ValidateAction. Qed.

(** The authorization loop of GetRecords passes for a principal that may
    read what it asks for. *)
Lemma mem_authorized (s : MemStore.Store) (principal : Principal)
    (collectionName : string) (recordIDs : list string)
    (returnFormats : gmap string string) :
  may_read s principal collectionName recordIDs returnFormats →
  (exec (MemStore.handler P)
     (for_range recordIDs tt (λ recordID _,
        for_range (range_of returnFormats) tt (λ '(field, format) _,
          let _request := mkRequest principal PolicyActionRead
              (COLLECTIONS_PPATH +:+ "/" +:+ collectionName +:+ RECORDS_PPATH
                 +:+ "/" +:+ recordID +:+ "/" +:+ field +:+ "." +:+ format) in
          bindE (ValidateAction _request) (λ allowed,
            if negb allowed then Ret (Err (ForbiddenError _request))
            else Ret (Ok tt))))) s).1 = (Ok tt, s).
Proof.
  intros Hmay.
  rewrite (exec_for_range_fold _ (λ _ _, Ok tt)); [by rewrite fold_result_unit |].
  intros id [] Hid.
  rewrite (exec_for_range_fold _ (λ _ _, Ok tt)); [by rewrite fold_result_unit |].
  intros [field format] [] Hf. apply elem_of_range_of in Hf.
  rewrite exec_bindE, mem_ValidateAction.
  unfold may_read, record_path in Hmay. cbn [Actor].
  by rewrite (Hmay id field format Hid Hf).
Qed.

(** The loop that checks the requested fields against the schema. *)
Lemma mem_fields_declared (s : MemStore.Store) (col : Collection)
    (collectionName : string) (returnFormats : gmap string string) :
  (∀ field, is_Some (returnFormats !! field) → is_Some (col_Fields col !! field)) →
  (exec (MemStore.handler P)
     (for_range (range_of returnFormats) tt (λ '(field, _) _,
        match col_Fields col !! field with
        | None =>
            Ret (Err (NotFoundError ("Field " +:+ field +:+
                   " not found on collection " +:+ collectionName) ""))
        | Some _ => Ret (Ok tt)
        end)) s).1 = (Ok tt, s).
Proof.
  intros Hdecl.
  rewrite (exec_for_range_fold _ (λ _ _, Ok tt)); [by rewrite fold_result_unit |].
  intros [field format] [] Hf. apply elem_of_range_of in Hf.
  destruct (Hdecl field) as [fld ->]; [by eexists | done].
Qed.


End Mem.

Lemma admin_may_read (ids : list string) (formats : gmap string string) :
  may_read (PE := SpecPolicy.engine) Fixture.store1 Fixture.admin "customers"
    ids formats.
Proof.
  intros id field format _ _. unfold record_path.
  change (SpecPolicy.evaluate
            (mkRequest Fixture.admin PolicyActionRead
               ("/collections" +:+ "/" +:+ "customers" +:+ "/records" +:+ "/"
                  +:+ id +:+ "/" +:+ field +:+ "." +:+ format))
            [Fixture.adminRead; Fixture.adminWrite] false = true).
  reflexivity.
Qed.



(** ** Token payloads *)

Lemma Split_no_sep (s : string) (sep : ascii) :
  contains sep s = false → Split s sep = [s].
Proof.
  induction s as [| c s IH]; simpl; [done |].
  intros [Hc Hs]%orb_false_iff. apply bool_decide_eq_false in Hc.
  rewrite decide_False by done. by rewrite IH.
Qed.

Lemma Split_app (a b : string) (sep : ascii) :
  contains sep a = false →
  Split (a +:+ String sep b) sep = a :: Split b sep.
Proof.
  induction a as [| c a IH]; simpl.
  - intros _. by rewrite decide_True.
  - intros [Hc Ha]%orb_false_iff. apply bool_decide_eq_false in Hc.
    rewrite decide_False by done. by rewrite IH.
Qed.

(** The payload of a token splits back into its four parts when none of
    them contains a slash. *)
Lemma Split_payload (collectionName recordId fieldName returnFormat : string) :
  contains slash collectionName = false → contains slash recordId = false →
  contains slash fieldName = false → contains slash returnFormat = false →
  Split (collectionName +:+ "/" +:+ recordId +:+ "/" +:+ fieldName +:+ "/"
           +:+ returnFormat) slash =
    [collectionName; recordId; fieldName; returnFormat].
Proof.
  intros Hc Hr Hf Ht.
  change (Split (collectionName +:+ String slash (recordId +:+
            String slash (fieldName +:+ String slash returnFormat))) slash = 
          [collectionName; recordId; fieldName; returnFormat]).
  rewrite !Split_app by done. by rewrite Split_no_sep.
Qed.

(** Case analysis on an innermost scrutinee of a hypothesis. *)
Ltac case_inner H :=
  match type of H with
  | context [match ?x with _ => _ end] =>
      lazymatch x with
      | context [match _ with _ => _ end] => fail
      | _ => destruct x eqn:?
      end
  end.

Lemma bind_Ret {A B} (a : A) (f : A → Prog B) : bind (Ret a) f = f a.
Proof. done. Qed.

(** One step of a run on the in-memory backend: compute up to the next
    lookup, then split on it; the cases in which the run fails contradict
    a hypothesis that says it succeeded. *)
Ltac mem_cbn H :=
  cbn [exec bind bindE call for_range MemStore.handler fst snd negb Actor] in H.

Ltac mem_norm H :=
  repeat first
    [ progress mem_cbn H
    | rewrite found_singleton in H
    | rewrite map_size_singleton in H
    | rewrite map_size_empty in H
    | rewrite insert_empty in H
    | rewrite range_of_singleton in H
    | rewrite bind_Ret in H ].

Ltac mem_step H := mem_norm H; first [discriminate H | case_inner H].

Ltac mem_run H := repeat mem_step H; mem_norm H.

Section MemTokens.
Context {PE : PolicyEngine} {PT : PTypeEngine} {RO : RangeOrder}.
Context (P : MemStore.Privatiser).

Lemma mem_CreateToken_Ok (s0 s1 : MemStore.Store) (principal : Principal)
    (collectionName recordId fieldName returnFormat tokenId : string)
    (t : list Op) :
  exec (MemStore.handler P)
    (CreateToken principal collectionName recordId fieldName returnFormat) s0 =
    (Ok tokenId, s1, t) →
  ∃ col,
    MemStore.collections s0 !! collectionName = Some col
    ∧ is_Some (col_Fields col !! fieldName)
    ∧ is_Some (MemStore.records_of s0 collectionName !! recordId)
    ∧ s1 = MemStore.set_tokens (MemStore.set_minted s0 (S (MemStore.minted s0)))
             (<[tokenId := collectionName +:+ "/" +:+ recordId +:+ "/" +:+
                             fieldName +:+ "/" +:+ returnFormat]>
                (MemStore.tokens s0)).
Proof.
  unfold CreateToken, GetRecords, ValidateAction.
  rewrite decide_False by done. intros H. mem_run H.
  injection H as <- <- _. eauto 10.
Qed.




End MemTokens.

Lemma admin_may_read_at (s : MemStore.Store) (collectionName : string)
    (ids : list string) (formats : gmap string string) :
  MemStore.policies s = MemStore.policies Fixture.store1 →
  may_read (PE := SpecPolicy.engine) s Fixture.admin collectionName ids formats.
Proof.
  intros Hs id field format _ _. unfold record_path, attached. rewrite Hs.
  change (SpecPolicy.evaluate
            (mkRequest Fixture.admin PolicyActionRead
               ("/collections" +:+ "/" +:+ collectionName +:+ "/records" +:+ "/"
                  +:+ id +:+ "/" +:+ field +:+ "." +:+ format))
            [Fixture.adminRead; Fixture.adminWrite] false = true).
  reflexivity.
Qed.



(** ** Create, then read *)

Section RoundTrip.
Context {PE : PolicyEngine} {PT : PTypeEngine} {RO : RangeOrder}.
Context (P : MemStore.Privatiser).

Lemma mem_encrypt_loop (s : MemStore.Store) (collection : Collection)
    (collectionName : string) (l : list (string * string))
    (acc : gmap string string) :
  (exec (MemStore.handler P)
     (for_range l acc
        (λ '(fieldName, fieldValue) encryptedRecord,
          match col_Fields collection !! fieldName with
          | None =>
              Ret (Err (ValueError ("Field " +:+ fieldName +:+
                     " not found on collection " +:+ collectionName)))
          | Some fld =>
              match GetPType (fld_Type fld) fieldValue with
              | Err err => Ret (Err err)
              | Ok _ =>
                  bind (call (PrivEncrypt fieldValue)) (λ '(encryptedValue, err),
                    match err with
                    | Some e => Ret (Err e)
                    | None =>
                        Ret (Ok (<[fieldName := encryptedValue]> encryptedRecord))
                    end)
              end
          end)) s).1 =
    (fold_result (encrypt_field P collection collectionName) l acc, s).
Proof.
  apply exec_for_range_fold. intros [fieldName fieldValue] acc0 _.
  unfold encrypt_field.
  destruct (col_Fields collection !! fieldName) as [fld |]; [| done].
  destruct (GetPType (fld_Type fld) fieldValue) as [pv | e]; [| done].
  cbn [exec bind call MemStore.handler].
  by destruct (MemStore.Encrypt P fieldValue) as [c [e |]].
Qed.

Lemma mem_render_loop (s : MemStore.Store) (col : Collection)
    (record : gmap string string) (l : list (string * string))
    (acc : gmap string string) :
  (exec (MemStore.handler P)
     (for_range l acc
        (λ '(field, format) decryptedRecord,
          bind (call (PrivDecrypt (default "" (record !! field))))
            (λ '(decryptedValue, err),
              match err with
              | Some e => Ret (Err e)
              | None =>
                  match GetPType
                          (fld_Type (default zeroField (col_Fields col !! field)))
                          decryptedValue with
                  | Err e => Ret (Err e)
                  | Ok privValue =>
                      match PType_Get privValue format with
                      | Err e => Ret (Err e)
                      | Ok v => Ret (Ok (<[field := v]> decryptedRecord))
                      end
                  end
              end))) s).1 =
    (fold_result (render_field P col record) l acc, s).
Proof.
  apply exec_for_range_fold. intros [field format] acc0 _.
  unfold render_field. cbn [exec bind call MemStore.handler].
  destruct (MemStore.Decrypt P (default "" (record !! field))) as [v [e |]];
    [done |].
  destruct (GetPType _ v) as [pv | e]; [| done].
  by destruct (PType_Get pv format).
Qed.

(** What a successful run of the encryption loop tells about each entry. *)
Lemma encrypt_fold_inv (collection : Collection) (collectionName : string)
    (l : list (string * string)) (acc enc : gmap string string) :
  NoDup l.*1 →
  fold_result (encrypt_field P collection collectionName) l acc = Ok enc →
  (∀ f v, (f, v) ∈ l →
     ∃ fld pv c, col_Fields collection !! f = Some fld
       ∧ GetPType (fld_Type fld) v = Ok pv
       ∧ MemStore.Encrypt P v = (c, None)
       ∧ enc !! f = Some c)
  ∧ (∀ k, k ∉ l.*1 → enc !! k = acc !! k).
Proof.
  revert acc. induction l as [| [f0 v0] l IH]; intros acc Hnd Hfold.
  - simpl in Hfold. injection Hfold as <-. split; [| done].
    intros f v Hin. by apply elem_of_nil in Hin.
  - rewrite fmap_cons in Hnd. apply NoDup_cons in Hnd as [Hf0 Hnd].
    cbn [fold_result] in Hfold. unfold encrypt_field at 1 in Hfold.
    destruct (col_Fields collection !! f0) as [fld |] eqn:Hfld; [| done].
    destruct (GetPType (fld_Type fld) v0) as [pv | e] eqn:Hpv; [| done].
    destruct (MemStore.Encrypt P v0) as [c [e |]] eqn:Hc; [done |].
    destruct (IH _ Hnd Hfold) as [Hin Hout]. split.
    + intros f v [[= -> ->] | Hl]%elem_of_cons; [| by apply Hin].
      exists fld, pv, c. repeat split; try done.
      rewrite (Hout f0 Hf0). apply lookup_insert_eq.
    + intros k Hk. rewrite fmap_cons in Hk. cbn [fst] in Hk.
      apply not_elem_of_cons in Hk as [Hne Hk].
      rewrite (Hout k Hk). by apply lookup_insert_ne.
Qed.

(** A successful CreateRecords of one record on the in-memory backend. *)
Lemma mem_CreateRecords_Ok (s0 s1 : MemStore.Store) (principal : Principal)
    (collectionName idR : string) (R : gmap string string) (t : list Op) :
  exec (MemStore.handler P) (CreateRecords principal collectionName [R]) s0 =
    (Ok [idR], s1, t) →
  ∃ col enc,
    MemStore.collections s1 !! collectionName = Some col
    ∧ fold_result (encrypt_field P col collectionName) (range_of R) ∅ = Ok enc
    ∧ MemStore.records_of s1 collectionName !! idR = Some enc.
Proof.
  unfold CreateRecords. intros H.
  apply exec_bindE_Ok in H as (allowed & w1 & t1 & t2 & Hva & H & ->).
  rewrite mem_ValidateAction in Hva. injection Hva as <- <- <-.
  destruct (EvaluateRequest _ _); [| done]. cbn [negb] in H.
  apply exec_bindE_Ok in H as (col & w2 & t3 & t4 & Hcol & H & ->).
  unfold call in Hcol. cbn [exec MemStore.handler] in Hcol.
  destruct (MemStore.collections s0 !! collectionName) as [c |] eqn:Hc; [| done].
  injection Hcol as <- <- <-.
  apply exec_bindE_Ok in H as (encs & w3 & t5 & t6 & Hloop & H & ->).
  cbn [length seq zip zip_with replicate] in Hloop.
  rewrite exec_for_range_cons in Hloop. cbv beta iota in Hloop.
  rewrite exec_bindE in Hloop.
  pose proof (mem_encrypt_loop s0 c collectionName (range_of R) ∅) as He.
  destruct (exec _ (for_range (range_of R) _ _) s0) as [[r w] tr].
  cbn [fst] in He. injection He as -> ->.
  destruct (fold_result _ _ _) as [enc | e] eqn:Hfold; [| done].
  cbn [exec for_range] in Hloop. injection Hloop as <- <- <-.
  unfold call in H. cbn [exec MemStore.handler] in H. rewrite Hc in H.
  injection H as <- <- _.
  exists c, enc. split; [done |]. split; [done |].
  unfold MemStore.records_of at 1.
  cbn [MemStore.records MemStore.set_records MemStore.set_minted].
  rewrite lookup_insert_eq. cbn [default]. apply lookup_insert_eq.
Qed.

(** C2, on the in-memory backend.  With a cipher whose Decrypt gives back
    what Encrypt was given, and a PType engine whose [plain] projection of a
    parsed value is the raw value: when CreateRecords of the one record [R]
    in a collection returns the id [idR] (so every field of [R] is declared
    on the collection and every value parses), GetRecords of [idR] with the
    projection [plain] for every field of [R], by a principal allowed to
    read those fields, returns exactly [{idR: R}] and leaves the vault as
    it was. *)
Theorem C2_create_then_read (s0 s1 : MemStore.Store) (writer reader : Principal)
    (collectionName idR : string) (R : gmap string string) (t : list Op) :
  (∀ v c, MemStore.Encrypt P v = (c, None) → MemStore.Decrypt P c = (v, None)) →
  (∀ typeName v pv, GetPType typeName v = Ok pv → PType_Get pv "plain" = Ok v) →
  exec (MemStore.handler P) (CreateRecords writer collectionName [R]) s0 =
    (Ok [idR], s1, t) →
  may_read s1 reader collectionName [idR] ((λ _, "plain") <$> R) →
  (exec (MemStore.handler P)
     (GetRecords reader collectionName [idR] ((λ _, "plain") <$> R)) s1).1 =
    (Ok {[ idR := R ]}, s1).
Proof.
  intros Hcipher Hplain Hcreate Hmay.
  apply mem_CreateRecords_Ok in Hcreate as (col & enc & Hcol & Hfold & Hrec).
  apply encrypt_fold_inv in Hfold as [Henc _]; [| apply range_of_NoDup_fst].
  set (formats := (λ _, "plain") <$> R) in *.
  assert (∀ field, is_Some (formats !! field) → is_Some (col_Fields col !! field))
    as Hdecl.
  { intros field [format Hf]. unfold formats in Hf.
    apply lookup_fmap_Some in Hf as (v & _ & Hv).
    apply elem_of_range_of in Hv.
    destruct (Henc _ _ Hv) as (fld & _ & _ & Hfld & _). by eexists. }
  unfold GetRecords. rewrite decide_False by done.
  rewrite (exec_bindE_fst_Ok _ _ _ s1 s1 tt) by (by apply mem_authorized).
  rewrite (exec_bindE_fst_Ok _ _ _ s1 s1 col)
    by (unfold call; cbn [exec MemStore.handler]; by rewrite Hcol).
  rewrite (exec_bindE_fst_Ok _ _ _ s1 s1 tt) by (by apply mem_fields_declared).
  rewrite (exec_bindE_fst_Ok _ _ _ s1 s1 {[ idR := enc ]})
    by (unfold call; cbn [exec MemStore.handler fst];
        by rewrite found_singleton, Hrec).
  rewrite map_size_singleton, decide_False by done.
  rewrite range_of_singleton, exec_for_range_cons. cbv beta iota.
  rewrite exec_bindE.
  pose proof (mem_render_loop s1 col enc (range_of formats) ∅) as Hr.
  destruct (exec _ (for_range (range_of formats) _ _) s1) as [[r w] tr].
  cbn [fst] in Hr. injection Hr as -> ->.
  rewrite (fold_result_ext _ (λ x acc, Ok (<[x.1 := default "" (R !! x.1)]> acc))).
  - rewrite (fold_result_total (λ x acc, <[x.1 := default "" (R !! x.1)]> acc)).
    cbn [exec for_range fst]. rewrite insert_empty.
    do 3 f_equal. apply map_eq. intros k.
    rewrite (foldl_insert_lookup (λ k0, default "" (R !! k0))).
    destruct (decide _) as [Hin | Hnin].
    + apply elem_of_range_of_fst in Hin as [format Hf].
      apply lookup_fmap_Some in Hf as (v & _ & ->). done.
    + rewrite lookup_empty. symmetry.
      destruct (R !! k) as [v |] eqn:Hk; [| done].
      exfalso. apply Hnin, elem_of_range_of_fst.
      unfold formats. rewrite lookup_fmap, Hk. by eexists.
  - intros [field format] acc Hin. apply elem_of_range_of in Hin.
    apply lookup_fmap_Some in Hin as (v & <- & Hv).
    destruct (Henc field v) as (fld & pv & c & Hfld & Hpv & Hc & Hlook);
      [by apply elem_of_range_of |].
    unfold render_field. cbn [fst].
    rewrite Hlook, Hv, Hfld. cbn [from_option id].
    by rewrite (Hcipher _ _ Hc), Hpv, (Hplain _ _ _ Hpv).
Qed.

End RoundTrip.

Lemma substring_all (s : string) : String.substring 0 (String.length s) s = s.
Proof. induction s as [| c s IH]; simpl; [done | by rewrite IH]. Qed.

Lemma markPrivatiser_round_trip (v c : string) :
  MemStore.Encrypt MemStore.markPrivatiser v = (c, None) →
  MemStore.Decrypt MemStore.markPrivatiser c = (v, None).
Proof.
  intros [= <-]. cbn [MemStore.Decrypt MemStore.markPrivatiser].
  change ((if String.prefix "" v
           then (String.substring 0 (String.length v - 0) v, None)
           else ("", Some (OtherError "cipher: message authentication failed")))
          = (v, None)).
  rewrite Nat.sub_0_r, substring_all. by destruct v.
Qed.

Lemma SpecPType_plain (typeName v : string) (pv : SpecPType.value) :
  SpecPType.GetPType typeName v = Ok pv → SpecPType.Get pv "plain" = Ok v.
Proof.
  unfold SpecPType.GetPType. destruct (bool_decide _); [| done].
  by intros [= <-].
Qed.

Lemma C2_create_then_read_witness :
  (exec Fixture.mem
     (GetRecords (PE := SpecPolicy.engine) (PT := SpecPType.engine)
        (RO := keyOrder) Fixture.admin "customers" ["rec_0"]
        ((λ _, "plain") <$> ({[ "first_name" := "John" ]} : gmap string string)))
     Fixture.store1).1 =
    (Ok {[ "rec_0" := {[ "first_name" := "John" ]} ]}, Fixture.store1).
Proof.
  apply (C2_create_then_read (PE := SpecPolicy.engine) (PT := SpecPType.engine)
           (RO := keyOrder) MemStore.markPrivatiser
           Fixture.store0 Fixture.store1 Fixture.admin Fixture.admin
           "customers" "rec_0" {[ "first_name" := "John" ]}
           (exec Fixture.mem
              (CreateRecords (PE := SpecPolicy.engine) (PT := SpecPType.engine)
                 (RO := keyOrder) Fixture.admin "customers"
                 [ {[ "first_name" := "John" ]} ]) Fixture.store0).2).
  - apply markPrivatiser_round_trip.
  - apply SpecPType_plain.
  - vm_compute; reflexivity.
  - apply admin_may_read.
Defined.

(** * Further properties of the orchestrator *)

(** ** Lookups by field value *)

Section Filter.
Context {PE : PolicyEngine} {PT : PTypeEngine} {RO : RangeOrder}.
Context {W : Type} (h : Handler W).

(** When the index lookup of GetRecordsFilter finds no record, the empty
    id list reaches the guard of GetRecords: the caller gets the ValueError
    [recordIDs must not be empty], not an empty result and not NotFound,
    and the policy engine is never asked. *)
Theorem GetRecordsFilter_no_match (w w1 w2 : W) (principal : Principal)
    (collectionName fieldName value : string)
    (returnFormats : gmap string string) (val : string) (e : option error) :
  h (PrivEncrypt value) w = ((val, e), w1) →
  h (DbGetRecordsFilter collectionName fieldName val) w1 = (Ok [], w2) →
  exec h (GetRecordsFilter principal collectionName fieldName value
            returnFormats) w =
    (Err (ValueError "recordIDs must not be empty"), w2,
     [PrivEncrypt value; DbGetRecordsFilter collectionName fieldName val]).
Proof.
  intros He Hf. unfold GetRecordsFilter, call.
  cbn [exec bind bindE]. rewrite He. cbn [exec bind bindE]. rewrite Hf.
  unfold GetRecords. by rewrite decide_True.
Qed.

(** GetRecordsFilter looks the value up before anyone is authorized.  For
    a principal the policy engine denies every request, asking for at least
    one field: the result is a Forbidden exactly when the lookup matched
    some record, and the ValueError of the empty id list when it matched
    none.  The error alone tells such a caller whether the value occurs in
    the collection. *)
Theorem GetRecordsFilter_tells_denied_caller (w w1 w2 w3 : W)
    (principal : Principal) (collectionName fieldName value : string)
    (returnFormats : gmap string string) (val : string) (e : option error)
    (recordIds : list string) (ps : list Policy) :
  h (PrivEncrypt value) w = ((val, e), w1) →
  h (DbGetRecordsFilter collectionName fieldName val) w1 = (Ok recordIds, w2) →
  h (DbGetPolicies (prin_Policies principal)) w2 = (Ok ps, w3) →
  (∀ request, EvaluateRequest request ps = false) →
  returnFormats ≠ ∅ →
  let r := (exec h (GetRecordsFilter principal collectionName fieldName value
                      returnFormats) w).1.1 in
  (recordIds = [] → r = Err (ValueError "recordIDs must not be empty"))
  ∧ (is_forbidden r = true ↔ recordIds ≠ []).
Proof.
  intros He Hf Hp Hdeny Hne r. subst r.
  unfold GetRecordsFilter, call.
  cbn [exec bind bindE]. rewrite He. cbn [exec bind bindE]. rewrite Hf.
  destruct recordIds as [| recordID rest].
  - unfold GetRecords. rewrite decide_True by done. by split.
  - split; [done |]. split; [done | intros _].
    unfold GetRecords. rewrite decide_False by done.
    destruct (range_of returnFormats) as [| [field format] fl] eqn:Hr.
    { by apply range_of_nil_inv in Hr. }
    rewrite exec_bindE, exec_for_range_cons. cbv beta iota.
    rewrite exec_for_range_cons. cbv beta iota.
    rewrite exec_bindE,
      (exec_ValidateAction h w2 w3 (mkRequest principal _ _) ps Hp), Hdeny.
    done.
Qed.

End Filter.

Lemma GetRecordsFilter_no_match_witness :
  exec Fixture.mem
    (GetRecordsFilter (PE := SpecPolicy.engine) (PT := SpecPType.engine)
       (RO := keyOrder) Fixture.nobody "customers" "first_name" "Jane"
       {[ "first_name" := "plain" ]}) Fixture.store1 =
    (Err (ValueError "recordIDs must not be empty"), Fixture.store1,
     [PrivEncrypt "Jane"; DbGetRecordsFilter "customers" "first_name" "enc:Jane"]).
Proof.
  apply (GetRecordsFilter_no_match (PE := SpecPolicy.engine)
           (PT := SpecPType.engine) (RO := keyOrder) Fixture.mem
           Fixture.store1 Fixture.store1 Fixture.store1 Fixture.nobody
           "customers" "first_name" "Jane" {[ "first_name" := "plain" ]}
           "enc:Jane" None).
  - reflexivity.
  - vm_compute; reflexivity.
Defined.

Lemma GetRecordsFilter_tells_denied_caller_witness :
  let r := (exec Fixture.mem
              (GetRecordsFilter (PE := SpecPolicy.engine)
                 (PT := SpecPType.engine) (RO := keyOrder) Fixture.nobody
                 "customers" "first_name" "John"
                 {[ "first_name" := "plain" ]}) Fixture.store1).1.1 in
  (["rec_0"] = [] → r = Err (ValueError "recordIDs must not be empty"))
  ∧ (is_forbidden r = true ↔ ["rec_0"] ≠ []).
Proof.
  apply (GetRecordsFilter_tells_denied_caller (PE := SpecPolicy.engine)
           (PT := SpecPType.engine) (RO := keyOrder) Fixture.mem
           Fixture.store1 Fixture.store1 Fixture.store1 Fixture.store1
           Fixture.nobody "customers" "first_name" "John"
           {[ "first_name" := "plain" ]} "enc:John" None ["rec_0"] []).
  - reflexivity.
  - vm_compute; reflexivity.
  - reflexivity.
  - reflexivity.
  - apply insert_non_empty.
Defined.

(** ** Resolving a token *)

Lemma Split_length (s : string) (sep : ascii) :
  length (Split s sep) = S (count_char sep s).
Proof.
  induction s as [| c s IH]; [done |]. cbn [Split count_char].
  destruct (decide (c = sep)) as [-> | Hne].
  - cbn [length]. by rewrite IH.
  - destruct (Split s sep) as [| x xs]; [done |]. cbn [length] in *. lia.
Qed.

Section Tokens.
Context {PE : PolicyEngine} {PT : PTypeEngine} {RO : RangeOrder}.
Context {W : Type} (h : Handler W).

(** A stored token value that does not hold exactly three slashes does not
    split into four parts: GetTokenValue returns the error that quotes the
    value and the token id, after the token read and nothing else (no
    request to the policy engine, no read of a collection or a record). *)
Theorem GetTokenValue_malformed_value (w w1 : W) (principal : Principal)
    (tokenId recordAndFieldStr : string) :
  h (DbGetTokenValue tokenId) w = (Ok recordAndFieldStr, w1) →
  count_char slash recordAndFieldStr ≠ 3 →
  exec h (GetTokenValue principal tokenId) w =
    (Err (OtherError ("invalid token value: " +:+ recordAndFieldStr +:+
                        " stored in token: " +:+ tokenId)),
     w1, [DbGetTokenValue tokenId]).
Proof.
  intros Ht Hn. unfold GetTokenValue, call.
  cbn [exec bind bindE]. rewrite Ht.
  pose proof (Split_length recordAndFieldStr slash) as Hlen.
  destruct (Split recordAndFieldStr slash) as [| a [| b [| c [| d [| x l]]]]];
    cbn [length] in Hlen; try done.
  exfalso. apply Hn. lia.
Qed.

(** The token is read before anyone is authorized, and authorization is
    that of the field the token names.  When the stored value splits into
    collection, record, field and projection and the policy engine denies
    the principal the read of that field, GetTokenValue returns the
    Forbidden carrying that request; its only calls are the token read and
    the fetch of the principal's policies, so neither the collection nor
    the record is looked up. *)
Theorem GetTokenValue_denied (w w1 w2 : W) (principal : Principal)
    (tokenId recordAndFieldStr : string)
    (collectionName recordId fieldName returnFormat : string)
    (ps : list Policy) :
  h (DbGetTokenValue tokenId) w = (Ok recordAndFieldStr, w1) →
  Split recordAndFieldStr slash =
    [collectionName; recordId; fieldName; returnFormat] →
  h (DbGetPolicies (prin_Policies principal)) w1 = (Ok ps, w2) →
  EvaluateRequest
    (mkRequest principal PolicyActionRead
       (record_path collectionName recordId fieldName returnFormat)) ps = false →
  exec h (GetTokenValue principal tokenId) w =
    (Err (ForbiddenError
            (mkRequest principal PolicyActionRead
               (record_path collectionName recordId fieldName returnFormat))),
     w2, [DbGetTokenValue tokenId; DbGetPolicies (prin_Policies principal)]).
Proof.
  intros Ht Hs Hp Hdeny. unfold GetTokenValue.
  rewrite exec_bindE. unfold call at 1. cbn [exec]. rewrite Ht, Hs.
  unfold GetRecords. rewrite decide_False by done.
  rewrite range_of_singleton.
  rewrite !exec_bindE, exec_for_range_cons. cbv beta iota.
  rewrite exec_for_range_cons. cbv beta iota.
  unfold record_path in Hdeny |- *.
  rewrite exec_bindE,
    (exec_ValidateAction h w1 w2 (mkRequest principal _ _) ps Hp), Hdeny.
  done.
Qed.

End Tokens.

Lemma GetTokenValue_malformed_value_witness :
  exec Fixture.mem
    (GetTokenValue (PE := SpecPolicy.engine) (PT := SpecPType.engine)
       (RO := keyOrder) Fixture.nobody "tok_7")
    (MemStore.set_tokens Fixture.store1 {[ "tok_7" := "customers/rec_0" ]}) =
    (Err (OtherError
            "invalid token value: customers/rec_0 stored in token: tok_7"),
     MemStore.set_tokens Fixture.store1 {[ "tok_7" := "customers/rec_0" ]},
     [DbGetTokenValue "tok_7"]).
Proof.
  apply (GetTokenValue_malformed_value (PE := SpecPolicy.engine)
           (PT := SpecPType.engine) (RO := keyOrder) Fixture.mem
           (MemStore.set_tokens Fixture.store1 {[ "tok_7" := "customers/rec_0" ]})
           (MemStore.set_tokens Fixture.store1 {[ "tok_7" := "customers/rec_0" ]})
           Fixture.nobody "tok_7" "customers/rec_0").
  - vm_compute; reflexivity.
  - vm_compute. lia.
Defined.

Lemma GetTokenValue_denied_witness :
  exec Fixture.mem
    (GetTokenValue (PE := SpecPolicy.engine) (PT := SpecPType.engine)
       (RO := keyOrder) Fixture.nobody "tok_1") Fixture.store2 =
    (Err (ForbiddenError
            (mkRequest Fixture.nobody PolicyActionRead
               (record_path "customers" "rec_0" "first_name" "plain"))),
     Fixture.store2, [DbGetTokenValue "tok_1"; DbGetPolicies []]).
Proof.
  apply (GetTokenValue_denied (PE := SpecPolicy.engine)
           (PT := SpecPType.engine) (RO := keyOrder) Fixture.mem
           Fixture.store2 Fixture.store2 Fixture.store2 Fixture.nobody
           "tok_1" "customers/rec_0/first_name/plain"
           "customers" "rec_0" "first_name" "plain" []).
  - vm_compute; reflexivity.
  - vm_compute; reflexivity.
  - reflexivity.
  - reflexivity.
Defined.

(** ** Login *)

Section LoginOk.
Context {W : Type} (h : Handler W).

(** Login returns a principal exactly when both arguments are non-empty,
    the storage backend has a principal under the username whose name and
    password hash are non-empty, and bcrypt accepts the password against
    that hash.  The principal returned is the stored one, hash included;
    the run makes these two calls only, so Login never asks the policy
    engine and never writes to storage. *)
Theorem Login_success (w w' : W) (username password : string)
    (p : Principal) (t : list Op) :
  exec h (Login username password) w = (Ok p, w', t) ↔
  username ≠ "" ∧ password ≠ ""
  ∧ ∃ w1, h (DbGetPrincipal username) w = (Ok p, w1)
      ∧ prin_Username p ≠ "" ∧ prin_Password p ≠ ""
      ∧ h (BcryptCompareHashAndPassword (prin_Password p) password) w1 =
          (None, w')
      ∧ t = [DbGetPrincipal username;
             BcryptCompareHashAndPassword (prin_Password p) password].
Proof.
  unfold Login, call. split.
  - destruct (bool_decide (username = "")) eqn:Hu; [done |].
    destruct (bool_decide (password = "")) eqn:Hpw; [done |].
    apply bool_decide_eq_false in Hu, Hpw.
    cbn [orb exec bind].
    destruct (h (DbGetPrincipal username) w) as [[q | e] w1] eqn:Hget.
    + destruct (bool_decide (prin_Username q = "")) eqn:Hqu; [done |].
      destruct (bool_decide (prin_Password q = "")) eqn:Hqp; [done |].
      apply bool_decide_eq_false in Hqu, Hqp.
      cbn [orb exec bind].
      destruct (h (BcryptCompareHashAndPassword _ _) w1) as [[e |] w2] eqn:Hcmp;
        [done |].
      intros [= <- <- <-]. eauto 10.
    + cbn [exec bind]. by destruct (h (LoggerError _) w1).
  - intros (Hu & Hpw & w1 & Hget & Hqu & Hqp & Hcmp & ->).
    rewrite !bool_decide_eq_false_2 by done.
    cbn [orb exec bind]. rewrite Hget.
    rewrite !bool_decide_eq_false_2 by done.
    cbn [orb exec bind]. by rewrite Hcmp.
Qed.

End LoginOk.

Lemma Login_success_witness :
  exec Fixture.mem (Login "admin" "secret") Fixture.store1 =
    (Ok Fixture.admin, Fixture.store1,
     [DbGetPrincipal "admin";
      BcryptCompareHashAndPassword "$2a$10$secret" "secret"]).
Proof.
  apply (Login_success Fixture.mem Fixture.store1 Fixture.store1
           "admin" "secret" Fixture.admin).
  split; [done |]. split; [done |].
  exists Fixture.store1.
  split; [vm_compute; reflexivity |].
  split; [done |]. split; [done |].
  split; [vm_compute; reflexivity | reflexivity].
Defined.

(** ** What an operation never calls *)

Ltac call_ok :=
  lazymatch goal with
  | |- calls_only ?Q (call ?o) => apply (calls_only_call Q o)
  end.

(** Walks a program built from calls, binds, loops and case distinctions. *)
Ltac calls_tac :=
  repeat first
    [ apply calls_only_Ret
    | call_ok; reflexivity
    | apply calls_only_bindE
    | apply calls_only_bind
    | apply calls_only_for_range
    | progress intros
    | progress cbv beta
    | match goal with
      | |- calls_only _ (match ?x with _ => _ end) => destruct x
      | |- calls_only _ (if ?b then _ else _) => destruct b
      | |- calls_only _ ((match ?x with _ => _ end) _) => destruct x
      end ].

Section Calls.
Context {PE : PolicyEngine} {PT : PTypeEngine} {RO : RangeOrder}.

Lemma ValidateAction_calls (Q : Op → Prop) (request : Request) :
  (∀ ids, Q (DbGetPolicies ids)) → calls_only Q (ValidateAction request).
Proof.
  intros HQ. unfold ValidateAction. apply calls_only_bindE.
  - call_ok; apply HQ.
  - intros policies. destruct (EvaluateRequest _ _); constructor.
Qed.

Lemma GetRecords_calls (Q : Op → Prop) (principal : Principal)
    (collectionName : string) (recordIDs : list string)
    (returnFormats : gmap string string) :
  (∀ ids, Q (DbGetPolicies ids)) → (∀ n, Q (DbGetCollection n)) →
  (∀ c ids, Q (DbGetRecords c ids)) → (∀ v, Q (PrivDecrypt v)) →
  calls_only Q (GetRecords principal collectionName recordIDs returnFormats).
Proof.
  intros Hp Hc Hr Hd. unfold GetRecords.
  destruct (decide _); [constructor |].
  apply calls_only_bindE.
  { apply calls_only_for_range. intros recordID [].
    apply calls_only_for_range. intros [field format] [].
    apply calls_only_bindE; [by apply ValidateAction_calls |].
    intros allowed. destruct (negb allowed); constructor. }
  intros _. apply calls_only_bindE; [call_ok; apply Hc |].
  intros col. apply calls_only_bindE.
  { apply calls_only_for_range. intros [field format] [].
    destruct (col_Fields col !! field); constructor. }
  intros _. apply calls_only_bindE; [call_ok; apply Hr |].
  intros encryptedRecords. destruct (decide _); [constructor |].
  apply calls_only_for_range. intros [recordId record] records.
  apply calls_only_bindE; [| intros; constructor].
  apply calls_only_for_range. intros [field format] decryptedRecord.
  apply calls_only_bind; [call_ok; apply Hd |].
  intros [decryptedValue [e |]]; [constructor |].
  destruct (GetPType _ _) as [privValue | e]; [| constructor].
  destruct (PType_Get _ _); constructor.
Qed.

(** No operation that returns stored data writes to storage: for every
    storage backend, GetCollection, GetCollections, GetRecords,
    GetRecordsFilter, GetPrincipal, GetPolicy, GetPrincipalPolicies,
    GetSubject, GetTokenValue and Login make no call that creates, updates
    or deletes, whatever their arguments and whatever they return. *)
Theorem read_operations_write_nothing {W} (h : Handler W) (w : W)
    (principal : Principal) (op : ReadOp) :
  Forall (λ o, is_storage_write o = false) (exec h (run_read principal op) w).2.
Proof.
  apply calls_only_trace.
  destruct op; unfold run_read, returned_error;
    (apply calls_only_bind; [| intros; constructor]).
  - unfold GetCollection. apply calls_only_bindE; [by apply ValidateAction_calls |].
    calls_tac.
  - unfold GetCollections. apply calls_only_bindE; [by apply ValidateAction_calls |].
    calls_tac.
  - by apply GetRecords_calls.
  - unfold GetRecordsFilter. apply calls_only_bind; [by call_ok |].
    intros [val e]. apply calls_only_bindE; [by call_ok |].
    intros recordIds. by apply GetRecords_calls.
  - unfold GetPrincipal. apply calls_only_bindE; [by apply ValidateAction_calls |].
    calls_tac.
  - unfold GetPolicy. apply calls_only_bindE; [by apply ValidateAction_calls |].
    calls_tac.
  - unfold GetPrincipalPolicies.
    apply calls_only_bindE; [by apply ValidateAction_calls |]. calls_tac.
  - unfold GetSubject. apply calls_only_bindE; [by apply ValidateAction_calls |].
    calls_tac.
  - unfold GetTokenValue. apply calls_only_bindE; [by call_ok |].
    intros recordAndFieldStr.
    destruct (Split _ _) as [| a [| b [| c [| d [| x l]]]]]; try constructor.
    apply calls_only_bindE; [by apply GetRecords_calls |].
    intros records. destruct (range_of records) as [| [? ?] ?]; constructor.
  - unfold Login. calls_tac.
Qed.

End Calls.

(** ** What a successful run tells *)

Section LoopInv.
Context {W : Type} (h : Handler W).

(** A property of the elements gone through and the loop state that every
    successful round extends holds of the whole list when the loop
    succeeds. *)
Lemma exec_for_range_inv {T S} (Inv : list T → S → Prop)
    (body : T → S → Prog (result S)) (l : list T) (s s' : S) (w w' : W)
    (t : list Op) :
  Inv [] s →
  (∀ pre x s0 s1 w0 w1 t0,
     Inv pre s0 → exec h (body x s0) w0 = (Ok s1, w1, t0) →
     Inv (pre ++ [x]) s1) →
  exec h (for_range l s body) w = (Ok s', w', t) →
  Inv l s'.
Proof.
  revert Inv s w t. induction l as [| x l IH]; intros Inv s w t H0 Hstep Hrun.
  - cbn [for_range exec] in Hrun. by injection Hrun as <- _ _.
  - rewrite exec_for_range_cons in Hrun.
    destruct (exec h (body x s) w) as [[[s1 | e] w1] t1] eqn:Hx; [| done].
    destruct (exec h (for_range l s1 body) w1) as [[r w2] t2] eqn:Hl.
    injection Hrun as -> -> <-.
    apply (IH (λ pre, Inv (x :: pre)) s1 w1 t2); [| | done].
    + apply (Hstep [] x s s1 w w1 t1); done.
    + intros pre y s0 s2 w0 w3 t0 Hpre Hy.
      apply (Hstep (x :: pre) y s0 s2 w0 w3 t0); done.
Qed.

End LoopInv.

Lemma dom_range_of {RO : RangeOrder} {V} (m : gmap string V) :
  list_to_set (range_of m).*1 =@{gset string} dom m.
Proof.
  apply set_eq. intros k.
  rewrite elem_of_list_to_set, elem_of_range_of_fst. by rewrite elem_of_dom.
Qed.

Section ReadShape.
Context {PE : PolicyEngine} {PT : PTypeEngine} {RO : RangeOrder}.
Context {W : Type} (h : Handler W).

(** The rendering loop of GetRecords over one stored record. *)
Lemma render_loop_dom (col : Collection) (record : gmap string string)
    (l : list (string * string)) (r : gmap string string) (w w' : W)
    (t : list Op) :
  exec h
    (for_range l (∅ : gmap string string)
       (λ '(field, format) decryptedRecord,
         bind (call (PrivDecrypt (default "" (record !! field))))
           (λ '(decryptedValue, err),
             match err with
             | Some e => Ret (Err e)
             | None =>
                 match GetPType
                         (fld_Type (default zeroField (col_Fields col !! field)))
                         decryptedValue with
                 | Err e => Ret (Err e)
                 | Ok privValue =>
                     match PType_Get privValue format with
                     | Err e => Ret (Err e)
                     | Ok v => Ret (Ok (<[field := v]> decryptedRecord))
                     end
                 end
             end))) w = (Ok r, w', t) →
  dom r = list_to_set l.*1.
Proof.
  apply (exec_for_range_inv h (λ pre s, dom s =@{gset string} list_to_set pre.*1)).
  - by rewrite dom_empty_L.
  - intros pre [field format] s0 s1 w0 w1 t0 Hpre.
    unfold call. cbn [exec bind].
    destruct (h (PrivDecrypt _) w0) as [[v [e |]] w2]; [done |].
    destruct (GetPType _ v) as [pv | e]; [| done].
    destruct (PType_Get pv format) as [x | e]; [| done].
    intros [= <- _ _].
    rewrite dom_insert_L, Hpre, fmap_app, list_to_set_app_L. cbn. set_solver.
Qed.

(** GetRecords returns what was asked for and nothing else.  For every
    storage backend, when GetRecords returns a nil error: the storage read
    of the records answered a map [found]; the result has one record for
    each id of [found] and for no other id; every returned record has
    exactly the requested fields, each of them declared on the collection
    the storage backend answered.  A field of the stored record that was
    not requested is never returned. *)
Theorem GetRecords_returns_requested_fields (w w' : W) (principal : Principal)
    (collectionName : string) (recordIDs : list string)
    (returnFormats : gmap string string) (records : gmap string Record_)
    (t : list Op) :
  exec h (GetRecords principal collectionName recordIDs returnFormats) w =
    (Ok records, w', t) →
  ∃ col found wa wb wc wd,
    h (DbGetCollection collectionName) wa = (Ok col, wb)
    ∧ h (DbGetRecords collectionName recordIDs) wc = (Ok found, wd)
    ∧ dom records = dom found
    ∧ (∀ id record, records !! id = Some record →
         dom record = dom returnFormats)
    ∧ (∀ field, field ∈ dom returnFormats → is_Some (col_Fields col !! field)).
Proof.
  unfold GetRecords. destruct (decide (length recordIDs = 0)); [done |].
  intros H.
  apply exec_bindE_Ok in H as ([] & wa & t1 & t2 & _ & H & ->).
  apply exec_bindE_Ok in H as (col & wb & t3 & t4 & Hcol & H & ->).
  apply exec_bindE_Ok in H as ([] & wc & t5 & t6 & Hdecl & H & ->).
  apply exec_bindE_Ok in H as (found & wd & t7 & t8 & Hfound & H & ->).
  destruct (decide (size found = 0)); [done |].
  unfold call in Hcol, Hfound. cbn [exec] in Hcol, Hfound.
  destruct (h (DbGetCollection collectionName) wa) as [c1 w1] eqn:Hc.
  injection Hcol as -> -> _.
  destruct (h (DbGetRecords collectionName recordIDs) wc) as [f1 w1] eqn:Hf.
  injection Hfound as -> -> _.
  exists col, found, wa, wb, wc, wd. split; [done |]. split; [done |].
  assert (dom records = list_to_set (range_of found).*1
          ∧ ∀ id record, records !! id = Some record →
              dom record = dom returnFormats) as [Hdom Hrec].
  { revert H.
    apply (exec_for_range_inv h
             (λ pre (s : gmap string Record_),
                dom s =@{gset string} list_to_set pre.*1
                ∧ ∀ id record, s !! id = Some record →
                    dom record = dom returnFormats)).
    - split; [by rewrite dom_empty_L | intros id record Hl].
      by rewrite lookup_empty in Hl.
    - intros pre [recordId record] s0 s1 w0 w1 t0 [Hd Hr] Hbody.
      apply exec_bindE_Ok in Hbody as (r & w2 & t9 & t10 & Hin & Hret & _).
      cbn [exec] in Hret. injection Hret as <- _ _.
      apply render_loop_dom in Hin. rewrite dom_range_of in Hin. split.
      + rewrite dom_insert_L, Hd, fmap_app, list_to_set_app_L. cbn. set_solver.
      + intros id rec0 Hl. destruct (decide (id = recordId)) as [-> | Hne].
        * rewrite lookup_insert_eq in Hl. by injection Hl as <-.
        * rewrite lookup_insert_ne in Hl by done. by eapply Hr. }
  split; [by rewrite Hdom, dom_range_of |]. split; [done |].
  intros field Hfield.
  assert (Forall (λ x, is_Some (col_Fields col !! x.1)) (range_of returnFormats))
    as Hall.
  { revert Hdecl.
    apply (exec_for_range_inv h
             (λ pre (_ : unit), Forall (λ x, is_Some (col_Fields col !! x.1)) pre)).
    - constructor.
    - intros pre [f fmt] [] [] w0 w1 t0 Hpre Hbody.
      apply Forall_app. split; [done |]. constructor; [| constructor].
      cbn [fst]. destruct (col_Fields col !! f); [by eexists | done]. }
  apply elem_of_dom in Hfield as [format Hfield].
  apply elem_of_range_of in Hfield.
  by apply (proj1 (Forall_forall _ _) Hall (field, format)).
Qed.

End ReadShape.

Lemma GetRecords_returns_requested_fields_witness :
  ∃ col found wa wb wc wd,
    Fixture.mem (DbGetCollection "customers") wa = (Ok col, wb)
    ∧ Fixture.mem (DbGetRecords "customers" ["rec_0"]) wc = (Ok found, wd)
    ∧ dom ({[ "rec_0" := {[ "first_name" := "John" ]} ]} : gmap string (gmap string string))
        = dom found
    ∧ (∀ id record,
         ({[ "rec_0" := {[ "first_name" := "John" ]} ]}
            : gmap string (gmap string string)) !! id = Some record →
         dom record = dom ({[ "first_name" := "plain" ]} : gmap string string))
    ∧ (∀ field, field ∈ dom ({[ "first_name" := "plain" ]} : gmap string string) →
         is_Some (col_Fields col !! field)).
Proof.
  apply (GetRecords_returns_requested_fields (PE := SpecPolicy.engine)
           (PT := SpecPType.engine) (RO := keyOrder) Fixture.mem
           Fixture.store1 Fixture.store1 Fixture.admin "customers" ["rec_0"]
           {[ "first_name" := "plain" ]}
           {[ "rec_0" := {[ "first_name" := "John" ]} ]}
           (exec Fixture.mem
              (GetRecords (PE := SpecPolicy.engine) (PT := SpecPType.engine)
                 (RO := keyOrder) Fixture.admin "customers" ["rec_0"]
                 {[ "first_name" := "plain" ]}) Fixture.store1).2).
  vm_compute; reflexivity.
Defined.

Section WriteShape.
Context {PE : PolicyEngine} {PT : PTypeEngine} {RO : RangeOrder}.
Context {W : Type} (h : Handler W).



(** UpdateRecord never looks at the schema.  For every storage backend and
    whatever it returns, UpdateRecord makes no read of the collection; and
    when it returns a nil error, the last call of the run is the storage
    update, whose patch has exactly the field names of the record given,
    declared on the collection or not. *)
Theorem UpdateRecord_never_reads_schema (w w' : W) (principal : Principal)
    (collectionName recordID : string) (record : Record_)
    (r : result unit) (t : list Op) :
  exec h (UpdateRecord principal collectionName recordID record) w = (r, w', t) →
  Forall (λ o, is_schema_read o = false) t
  ∧ (r = Ok tt →
     ∃ encryptedRecord t0,
       t = t0 ++ [DbUpdateRecord collectionName recordID encryptedRecord]
       ∧ dom encryptedRecord = dom record).
Proof.
  intros H. split.
  - apply (f_equal snd) in H. cbn [snd] in H. rewrite <- H.
    apply calls_only_trace. unfold UpdateRecord.
    apply calls_only_bindE; [by apply ValidateAction_calls |]. calls_tac.
  - intros ->. unfold UpdateRecord in H.
    apply exec_bindE_Ok in H as (allowed & wa & t1 & t2 & Hva & H & ->).
    destruct allowed; [| done]. cbn [negb] in H.
    apply exec_bindE_Ok in H as (enc & wb & t3 & t4 & Hloop & H & ->).
    apply exec_bindE_Ok in H as ([] & wc & t5 & t6 & Hupd & Hret & ->).
    unfold call in Hupd. cbn [exec] in Hupd, Hret.
    destruct (h (DbUpdateRecord collectionName recordID enc) wb) as [r1 w1].
    injection Hupd as _ _ <-. injection Hret as _ <-.
    exists enc, (t1 ++ t3). split; [by rewrite !app_assoc, app_nil_r |].
    rewrite <- (dom_range_of record). revert Hloop.
    apply (exec_for_range_inv h
             (λ pre (s : gmap string string),
                dom s =@{gset string} list_to_set pre.*1)).
    + by rewrite dom_empty_L.
    + intros pre [f v] s0 s1 w0 w2 t0 Hd.
      unfold call. cbn [exec bind].
      destruct (h (PrivEncrypt v) w0) as [[c [e |]] w3]; [done |].
      intros [= <- _ _].
      rewrite dom_insert_L, Hd, fmap_app, list_to_set_app_L. cbn. set_solver.
Qed.

End WriteShape.


Lemma UpdateRecord_never_reads_schema_witness :
  Forall (λ o, is_schema_read o = false)
    [DbGetPolicies ["admin-read"; "admin-write"]; PrivEncrypt "Johnny";
     DbUpdateRecord "customers" "rec_0" {[ "nickname" := "enc:Johnny" ]}]
  ∧ (Ok tt = Ok tt →
     ∃ encryptedRecord t0,
       [DbGetPolicies ["admin-read"; "admin-write"]; PrivEncrypt "Johnny";
        DbUpdateRecord "customers" "rec_0" {[ "nickname" := "enc:Johnny" ]}] =
         t0 ++ [DbUpdateRecord "customers" "rec_0" encryptedRecord]
       ∧ dom encryptedRecord =
           dom ({[ "nickname" := "Johnny" ]} : gmap string string)).
Proof.
  apply (UpdateRecord_never_reads_schema (PE := SpecPolicy.engine)
           (RO := keyOrder) Fixture.mem Fixture.store1
           (exec Fixture.mem
              (UpdateRecord (PE := SpecPolicy.engine) (RO := keyOrder)
                 Fixture.admin "customers" "rec_0"
                 {[ "nickname" := "Johnny" ]}) Fixture.store1).1.2
           Fixture.admin "customers" "rec_0" {[ "nickname" := "Johnny" ]}).
  vm_compute; reflexivity.
Defined.

(** ** The authorization loop of GetRecords *)

Section AuthLoop.
Context {PE : PolicyEngine} {PT : PTypeEngine} {RO : RangeOrder}.
Context {W : Type} (h : Handler W).
Context (principal : Principal) (collectionName : string)
  (ps : list Policy) (w : W).
Hypothesis Hfetch : h (DbGetPolicies (prin_Policies principal)) w = (Ok ps, w).

(** The loop over the requested fields of one record. *)
Lemma exec_field_checks (recordID : string) (fl : list (string * string)) :
  let out :=
    exec h
      (for_range fl tt (λ '(field, format) _,
         let _request := mkRequest principal PolicyActionRead
             (COLLECTIONS_PPATH +:+ "/" +:+ collectionName +:+ RECORDS_PPATH
                +:+ "/" +:+ recordID +:+ "/" +:+ field +:+ "." +:+ format) in
         bindE (ValidateAction _request) (λ allowed,
           if negb allowed then Ret (Err (ForbiddenError _request))
           else Ret (Ok tt)))) w in
  out.1.2 = w
  ∧ Forall (λ o, o = DbGetPolicies (prin_Policies principal)) out.2
  ∧ ((out.1.1 = Ok tt ∧ length out.2 = length fl
      ∧ ∀ field format, (field, format) ∈ fl →
          EvaluateRequest
            (mkRequest principal PolicyActionRead
               (record_path collectionName recordID field format)) ps = true)
     ∨ ∃ field format,
         (field, format) ∈ fl
         ∧ EvaluateRequest
             (mkRequest principal PolicyActionRead
                (record_path collectionName recordID field format)) ps = false
         ∧ out.1.1 =
             Err (ForbiddenError
                    (mkRequest principal PolicyActionRead
                       (record_path collectionName recordID field format)))).
Proof using Hfetch.
  induction fl as [| [field format] fl IH]; cbv zeta in *.
  - cbn. split; [done |]. split; [constructor |]. left.
    split; [done |]. split; [done |]. intros f fmt Hin.
    by apply elem_of_nil in Hin.
  - rewrite exec_for_range_cons. cbv beta iota.
    rewrite exec_bindE,
      (exec_ValidateAction h w w (mkRequest principal _ _) ps Hfetch).
    fold (record_path collectionName recordID field format).
    destruct (EvaluateRequest _ ps) eqn:Hev; cbn [negb exec].
    + destruct IH as (Hw & Hall & Hres).
      destruct (exec h (for_range fl tt _) w) as [[r w1] t1].
      cbn [fst snd] in *. subst w1. split; [done |].
      split; [by constructor |].
      destruct Hres as [(-> & Hlen & Hok) | (f & fmt & Hin & Hd & ->)].
      * left. split; [done |]. split; [cbn [length app]; by rewrite Hlen |].
        intros f fmt [[= -> ->] | Hin]%elem_of_cons; [done | by apply Hok].
      * right. exists f, fmt. split; [by right | done].
    + cbn [fst snd]. split; [done |]. split; [by repeat constructor |].
      right. exists field, format. split; [by left | done].
Qed.

(** The loop over the requested records. *)
Lemma exec_record_checks (recordIDs : list string) (fl : list (string * string)) :
  let out :=
    exec h
      (for_range recordIDs tt (λ recordID _,
         for_range fl tt (λ '(field, format) _,
           let _request := mkRequest principal PolicyActionRead
               (COLLECTIONS_PPATH +:+ "/" +:+ collectionName +:+ RECORDS_PPATH
                  +:+ "/" +:+ recordID +:+ "/" +:+ field +:+ "." +:+ format) in
           bindE (ValidateAction _request) (λ allowed,
             if negb allowed then Ret (Err (ForbiddenError _request))
             else Ret (Ok tt))))) w in
  out.1.2 = w
  ∧ Forall (λ o, o = DbGetPolicies (prin_Policies principal)) out.2
  ∧ ((out.1.1 = Ok tt ∧ length out.2 = length recordIDs * length fl
      ∧ ∀ recordID field format,
          recordID ∈ recordIDs → (field, format) ∈ fl →
          EvaluateRequest
            (mkRequest principal PolicyActionRead
               (record_path collectionName recordID field format)) ps = true)
     ∨ ∃ recordID field format,
         recordID ∈ recordIDs ∧ (field, format) ∈ fl
         ∧ EvaluateRequest
             (mkRequest principal PolicyActionRead
                (record_path collectionName recordID field format)) ps = false
         ∧ out.1.1 =
             Err (ForbiddenError
                    (mkRequest principal PolicyActionRead
                       (record_path collectionName recordID field format)))).
Proof using Hfetch.
  induction recordIDs as [| recordID recordIDs IH]; cbv zeta in *.
  - cbn. split; [done |]. split; [constructor |]. left.
    split; [done |]. split; [done |]. intros id f fmt Hin.
    by apply elem_of_nil in Hin.
  - rewrite exec_for_range_cons. cbv beta.
    pose proof (exec_field_checks recordID fl) as Hin. cbv zeta in Hin.
    destruct (exec h (for_range fl tt _) w) as [[r w1] t1].
    cbn [fst snd] in Hin. destruct Hin as (-> & Hall1 & Hres1).
    destruct Hres1 as [(-> & Hlen1 & Hok1) | (f & fmt & Hin & Hd & ->)].
    + destruct IH as (Hw & Hall & Hres).
      destruct (exec h (for_range recordIDs tt _) w) as [[r w1] t2].
      cbn [fst snd] in *. subst w1. split; [done |].
      split; [by apply Forall_app |].
      destruct Hres as [(-> & Hlen & Hok) | (id & f & fmt & Hid & Hin & Hd & ->)].
      * left. split; [done |].
        split; [rewrite length_app, Hlen1, Hlen; cbn [length]; lia |].
        intros id f fmt [-> | Hid]%elem_of_cons Hin; [by apply Hok1 | by apply Hok].
      * right. exists id, f, fmt. split; [by right | done].
    + cbn [fst snd]. split; [done |]. split; [done |].
      right. exists recordID, f, fmt. split; [by left | done].
Qed.

(** One denied field denies the whole read.  When the policy engine denies
    the principal one of the requested (record, field, projection) triples,
    GetRecords returns the Forbidden of a denied triple among those
    requested; every call it makes is the fetch of the principal's
    policies, so no collection and no record is read, also not for the
    triples that are allowed. *)
Theorem GetRecords_one_denied_field (recordIDs : list string)
    (returnFormats : gmap string string) (recordID field format : string) :
  recordID ∈ recordIDs →
  returnFormats !! field = Some format →
  EvaluateRequest
    (mkRequest principal PolicyActionRead
       (record_path collectionName recordID field format)) ps = false →
  let out :=
    exec h (GetRecords principal collectionName recordIDs returnFormats) w in
  out.1.2 = w
  ∧ Forall (λ o, o = DbGetPolicies (prin_Policies principal)) out.2
  ∧ ∃ recordID' field' format',
      recordID' ∈ recordIDs
      ∧ returnFormats !! field' = Some format'
      ∧ EvaluateRequest
          (mkRequest principal PolicyActionRead
             (record_path collectionName recordID' field' format')) ps = false
      ∧ out.1.1 =
          Err (ForbiddenError
                 (mkRequest principal PolicyActionRead
                    (record_path collectionName recordID' field' format'))).
Proof using Hfetch.
  intros Hid Hf Hdeny out. subst out. unfold GetRecords.
  rewrite decide_False by (by destruct recordIDs; [apply elem_of_nil in Hid |]).
  rewrite exec_bindE.
  pose proof (exec_record_checks recordIDs (range_of returnFormats)) as Hchk.
  cbv zeta in Hchk.
  destruct (exec h (for_range recordIDs tt _) w) as [[r w1] t1].
  cbn [fst snd] in Hchk. destruct Hchk as (-> & Hall & Hres).
  destruct Hres as [(-> & _ & Hok) | (id & f & fmt & Hin1 & Hin2 & Hd & ->)].
  - rewrite (Hok recordID field format Hid) in Hdeny; [done |].
    by apply elem_of_range_of.
  - cbn [fst snd]. split; [done |]. split; [done |].
    exists id, f, fmt. split; [done |]. split; [by apply elem_of_range_of | done].
Qed.

(** An authorized read asks the policy engine once per requested triple.
    When the policy engine allows the principal every requested (record,
    field, projection) triple, the run of GetRecords starts with as many
    fetches of the principal's policies as there are record ids times
    requested fields, all before the first read of a collection or a
    record, and makes no fetch after them. *)
Theorem GetRecords_policy_fetches (recordIDs : list string)
    (returnFormats : gmap string string) :
  recordIDs ≠ [] →
  (∀ recordID field format,
     recordID ∈ recordIDs → returnFormats !! field = Some format →
     EvaluateRequest
       (mkRequest principal PolicyActionRead
          (record_path collectionName recordID field format)) ps = true) →
  ∃ rest,
    (exec h (GetRecords principal collectionName recordIDs returnFormats) w).2 =
      replicate (length recordIDs * size returnFormats)
        (DbGetPolicies (prin_Policies principal)) ++ rest
    ∧ Forall (λ o, is_policy_fetch o = false) rest.
Proof using Hfetch.
  intros Hne Hallow. unfold GetRecords.
  rewrite decide_False by (by destruct recordIDs).
  rewrite exec_bindE.
  pose proof (exec_record_checks recordIDs (range_of returnFormats)) as Hchk.
  cbv zeta in Hchk.
  destruct (exec h (for_range recordIDs tt _) w) as [[r w1] t1].
  cbn [fst snd] in Hchk. destruct Hchk as (-> & Hall & Hres).
  destruct Hres as [(-> & Hlen & _) | (id & f & fmt & Hin1 & Hin2 & Hd & ->)].
  - match goal with
    | |- context [exec h ?p w] =>
        pose proof (calls_only_trace h (λ o, is_policy_fetch o = false) p w) as Ht;
        destruct (exec h p w) as [[r w1] t2]
    end.
    exists t2. cbn [snd]. split.
    + f_equal. rewrite <- (length_map_to_list returnFormats).
      rewrite <- (Permutation_length (range_of_perm returnFormats)), <- Hlen.
      clear -Hall. induction Hall as [| o t1 -> _ IH]; [done |].
      cbn [length replicate]. by rewrite <- IH.
    + apply Ht. calls_tac.
  - rewrite (Hallow id f fmt Hin1) in Hd; [done |]. by apply elem_of_range_of.
Qed.

End AuthLoop.

Lemma GetRecords_one_denied_field_witness :
  let out :=
    exec Fixture.mem
      (GetRecords (PE := SpecPolicy.engine) (PT := SpecPType.engine)
         (RO := keyOrder) Scenario.clerk "customers" ["rec_0"]
         {[ "first_name" := "plain"; "last_name" := "plain" ]})
      Scenario.store in
  out.1.2 = Scenario.store
  ∧ Forall (λ o, o = DbGetPolicies (prin_Policies Scenario.clerk)) out.2
  ∧ ∃ recordID' field' format',
      recordID' ∈ ["rec_0"]
      ∧ ({[ "first_name" := "plain"; "last_name" := "plain" ]}
           : gmap string string) !! field' = Some format'
      ∧ EvaluateRequest (PolicyEngine := SpecPolicy.engine)
          (mkRequest Scenario.clerk PolicyActionRead
             (record_path "customers" recordID' field' format'))
          [Scenario.nameOnly] = false
      ∧ out.1.1 =
          Err (ForbiddenError
                 (mkRequest Scenario.clerk PolicyActionRead
                    (record_path "customers" recordID' field' format'))).
Proof.
  apply (GetRecords_one_denied_field (PE := SpecPolicy.engine)
           (PT := SpecPType.engine) (RO := keyOrder) Fixture.mem
           Scenario.clerk "customers" [Scenario.nameOnly] Scenario.store
           ltac:(vm_compute; reflexivity)
           ["rec_0"] {[ "first_name" := "plain"; "last_name" := "plain" ]}
           "rec_0" "last_name" "plain").
  - by left.
  - vm_compute; reflexivity.
  - vm_compute; reflexivity.
Defined.

Lemma GetRecords_policy_fetches_witness :
  ∃ rest,
    (exec Fixture.mem
       (GetRecords (PE := SpecPolicy.engine) (PT := SpecPType.engine)
          (RO := keyOrder) Fixture.admin "customers" ["rec_0"; "rec_9"]
          {[ "first_name" := "plain" ]}) Fixture.store1).2 =
      replicate
        (length ["rec_0"; "rec_9"]
           * size ({[ "first_name" := "plain" ]} : gmap string string))
        (DbGetPolicies (prin_Policies Fixture.admin)) ++ rest
    ∧ Forall (λ o, is_policy_fetch o = false) rest.
Proof.
  apply (GetRecords_policy_fetches (PE := SpecPolicy.engine)
           (PT := SpecPType.engine) (RO := keyOrder) Fixture.mem
           Fixture.admin "customers" [Fixture.adminRead; Fixture.adminWrite]
           Fixture.store1 ltac:(vm_compute; reflexivity)
           ["rec_0"; "rec_9"] {[ "first_name" := "plain" ]}).
  - done.
  - intros recordID field format _ _. unfold record_path.
    change (SpecPolicy.evaluate
              (mkRequest Fixture.admin PolicyActionRead
                 ("/collections" +:+ "/" +:+ "customers" +:+ "/records" +:+ "/"
                    +:+ recordID +:+ "/" +:+ field +:+ "." +:+ format))
              [Fixture.adminRead; Fixture.adminWrite] false = true).
    reflexivity.
Defined.

(** ** Creating policies and principals *)

Lemma first_bad_resource_None (resources : list string) :
  first_bad_resource resources = None →
  Forall (λ resource, HasPrefix resource "/" = true) resources.
Proof.
  unfold first_bad_resource. induction resources as [| r l IH]; [constructor |].
  rewrite filter_cons. destruct (decide (HasPrefix r "/" = false)) as [Hb | Hg].
  - done.
  - intros Hl. constructor; [by destruct (HasPrefix r "/") | by apply IH].
Qed.

Section Create.
Context {PE : PolicyEngine} {PT : PTypeEngine} {RO : RangeOrder}.
Context {W : Type} (h : Handler W).

(** The one call of ValidateAction, whatever storage answers. *)
Lemma exec_ValidateAction_any (request : Request) (w : W) :
  exec h (ValidateAction request) w =
    (match (h (DbGetPolicies (prin_Policies (Actor request))) w).1 with
     | Ok ps => Ok (EvaluateRequest request ps)
     | Err e => Err e
     end,
     (h (DbGetPolicies (prin_Policies (Actor request))) w).2,
     [DbGetPolicies (prin_Policies (Actor request))]).
Proof.
  unfold ValidateAction, call. rewrite exec_bindE. cbn [exec].
  destruct (h (DbGetPolicies _) w) as [[ps | e] w1]; [| done].
  cbn [fst snd]. by destruct (EvaluateRequest request ps).
Qed.

(** The one call of Validate. *)
Lemma exec_Validate_trace (payload : Payload) (w : W) :
  (exec h (Validate payload) w).2 = [ValidatorStruct payload].
Proof.
  unfold Validate, call. cbn [exec bind].
  destruct (h (ValidatorStruct payload) w) as [[| | errs] w1]; try done.
  by destruct (decide _).
Qed.

(** What CreatePolicy hands to storage.  For every storage backend and
    whatever CreatePolicy returns: a policy reaches the storage write only
    if every one of its resources starts with a slash; it is the caller's
    policy with a freshly minted id in place of the id the caller gave; and
    it is the policy the caller holds after the call. *)
Theorem CreatePolicy_stores_slash_resources (w w' : W) (principal : Principal)
    (p p' : Policy) (r : result unit) (t : list Op) :
  exec h (CreatePolicy principal p) w = ((p', r), w', t) →
  ∀ q, DbCreatePolicy q ∈ t →
    q = p'
    ∧ Forall (λ resource, HasPrefix resource "/" = true) (pol_Resources q)
    ∧ ∃ w0, q = set_pol_Id p (h (GenerateId "pol") w0).1.
Proof.
  unfold CreatePolicy.
  destruct (first_bad_resource (pol_Resources p)) as [bad |] eqn:Hbad.
  { intros [= _ _ _ <-] q Hq. by apply elem_of_nil in Hq. }
  apply first_bad_resource_None in Hbad.
  rewrite exec_bind, exec_ValidateAction_any.
  destruct (h (DbGetPolicies _) w) as [[ps | e] w1]; cbn [fst snd].
  2: { intros [= _ _ _ <-] q Hq. by apply list_elem_of_singleton in Hq. }
  destruct (EvaluateRequest _ ps); cbn [negb].
  2: { intros [= _ _ _ <-] q Hq. by apply list_elem_of_singleton in Hq. }
  rewrite exec_bind.
  pose proof (exec_Validate_trace (PPolicy p) w1) as Hv.
  destruct (exec h (Validate (PPolicy p)) w1) as [[[[] | e] w2] t2];
    cbn [snd] in Hv; subst t2.
  2: { intros [= _ _ _ <-] q Hq. cbn in Hq. set_solver. }
  unfold call. cbn [exec bind].
  destruct (h (GenerateId "pol") w2) as [id w3] eqn:Hid.
  destruct (h (DbCreatePolicy (set_pol_Id p id)) w3) as [r1 w4].
  intros [= <- _ _ <-] q Hq. cbn in Hq.
  assert (q = set_pol_Id p id) as -> by set_solver.
  split; [done |]. split; [done |]. exists w2. by rewrite Hid.
Qed.

(** What CreatePrincipal does to the struct it is given.  When the policy
    engine allows the actor: the password is replaced by what bcrypt
    returned (the error of bcrypt is not looked at), then the id by a
    minted one and the creation time by the clock's; the validator is
    given this struct, so the length rules on the password apply to the
    hash; the caller holds this struct after the call, also when
    validation or storage then fails; and no other struct reaches the
    storage write. *)
Theorem CreatePrincipal_hashes_before_validating (w w1 w2 w3 w4 : W)
    (actor principal : Principal) (ps : list Policy)
    (hashedPassword : string) (e : option error) (id now : string) :
  h (DbGetPolicies (prin_Policies actor)) w = (Ok ps, w1) →
  EvaluateRequest (mkRequest actor PolicyActionWrite PRINCIPALS_PPATH) ps = true →
  h (BcryptGenerateFromPassword (prin_Password principal)) w1 =
    ((hashedPassword, e), w2) →
  h (GenerateId "prin") w2 = (id, w3) →
  h TimeNow w3 = (now, w4) →
  let stored :=
    set_prin_CreatedAt
      (set_prin_Id (set_prin_Password principal hashedPassword) id) now in
  let out := exec h (CreatePrincipal actor principal) w in
  out.1.1.1 = stored
  ∧ take 5 out.2 =
      [DbGetPolicies (prin_Policies actor);
       BcryptGenerateFromPassword (prin_Password principal);
       GenerateId "prin"; TimeNow; ValidatorStruct (PPrincipal stored)]
  ∧ ∀ q, DbCreatePrincipal q ∈ out.2 → q = stored.
Proof.
  intros Hp Hallow Hhash Hid Hnow stored out. subst out.
  unfold CreatePrincipal.
  rewrite exec_bind,
    (exec_ValidateAction h w w1 (mkRequest actor _ _) ps Hp), Hallow.
  cbn [negb]. unfold call. cbn [exec bind].
  rewrite Hhash. cbn [exec bind]. rewrite Hid. cbn [exec bind]. rewrite Hnow.
  fold stored. rewrite exec_bind.
  pose proof (exec_Validate_trace (PPrincipal stored) w4) as Hv.
  destruct (exec h (Validate (PPrincipal stored)) w4) as [[[[] | err] w5] t5];
    cbn [snd] in Hv; subst t5.
  - cbn [exec]. destruct (h (DbCreatePrincipal stored) w5) as [r1 w6].
    cbn. split; [done |]. split; [done |]. intros q Hq. set_solver.
  - cbn. split; [done |]. split; [done |]. intros q Hq. set_solver.
Qed.

End Create.

Lemma CreatePolicy_stores_slash_resources_witness :
  set_pol_Id Scenario.nameOnly "pol_1" = set_pol_Id Scenario.nameOnly "pol_1"
  ∧ Forall (λ resource, HasPrefix resource "/" = true)
      (pol_Resources (set_pol_Id Scenario.nameOnly "pol_1"))
  ∧ ∃ w0, set_pol_Id Scenario.nameOnly "pol_1" =
            set_pol_Id Scenario.nameOnly (Fixture.mem (GenerateId "pol") w0).1.
Proof.
  apply (CreatePolicy_stores_slash_resources (PE := SpecPolicy.engine)
           Fixture.mem Fixture.store1
           (exec Fixture.mem
              (CreatePolicy (PE := SpecPolicy.engine) Fixture.admin
                 Scenario.nameOnly) Fixture.store1).1.2
           Fixture.admin Scenario.nameOnly
           (set_pol_Id Scenario.nameOnly "pol_1") (Ok tt)
           [DbGetPolicies ["admin-read"; "admin-write"];
            ValidatorStruct (PPolicy Scenario.nameOnly); GenerateId "pol";
            DbCreatePolicy (set_pol_Id Scenario.nameOnly "pol_1")]).
  - vm_compute; reflexivity.
  - do 3 right. left.
Defined.

Lemma CreatePrincipal_hashes_before_validating_witness :
  let stored :=
    set_prin_CreatedAt
      (set_prin_Id (set_prin_Password Scenario.clerk "$2a$10$$2a$10$letmein")
         "prin_1") "2023-01-01T00:00:00Z" in
  let out :=
    exec Fixture.mem
      (CreatePrincipal (PE := SpecPolicy.engine) Fixture.admin Scenario.clerk)
      Fixture.store1 in
  out.1.1.1 = stored
  ∧ take 5 out.2 =
      [DbGetPolicies (prin_Policies Fixture.admin);
       BcryptGenerateFromPassword (prin_Password Scenario.clerk);
       GenerateId "prin"; TimeNow; ValidatorStruct (PPrincipal stored)]
  ∧ ∀ q, DbCreatePrincipal q ∈ out.2 → q = stored.
Proof.
  apply (CreatePrincipal_hashes_before_validating (PE := SpecPolicy.engine)
           Fixture.mem Fixture.store1 Fixture.store1 Fixture.store1
           (MemStore.set_minted Fixture.store1 2)
           (MemStore.set_minted Fixture.store1 2)
           Fixture.admin Scenario.clerk [Fixture.adminRead; Fixture.adminWrite]
           "$2a$10$$2a$10$letmein" None "prin_1" "2023-01-01T00:00:00Z").
  - vm_compute; reflexivity.
  - vm_compute; reflexivity.
  - vm_compute; reflexivity.
  - vm_compute; reflexivity.
  - vm_compute; reflexivity.
Defined.

(** ** Tokens on the in-memory backend *)

Section MemTokenValue.
Context {PE : PolicyEngine} {PT : PTypeEngine} {RO : RangeOrder}.
Context (P : MemStore.Privatiser).

Lemma mem_CreateToken_value (s0 s1 : MemStore.Store) (principal : Principal)
    (collectionName recordId fieldName returnFormat tokenId : string)
    (t : list Op) :
  exec (MemStore.handler P)
    (CreateToken principal collectionName recordId fieldName returnFormat) s0 =
    (Ok tokenId, s1, t) →
  ∃ col fld record plain pv value,
    EvaluateRequest
      (mkRequest principal PolicyActionRead
         (record_path collectionName recordId fieldName returnFormat))
      (attached s0 principal) = true
    ∧ MemStore.collections s0 !! collectionName = Some col
    ∧ col_Fields col !! fieldName = Some fld
    ∧ MemStore.records_of s0 collectionName !! recordId = Some record
    ∧ MemStore.Decrypt P (default "" (record !! fieldName)) = (plain, None)
    ∧ GetPType (fld_Type fld) plain = Ok pv
    ∧ PType_Get pv returnFormat = Ok value
    ∧ s1 = MemStore.set_tokens (MemStore.set_minted s0 (S (MemStore.minted s0)))
             (<[tokenId := collectionName +:+ "/" +:+ recordId +:+ "/" +:+
                             fieldName +:+ "/" +:+ returnFormat]>
                (MemStore.tokens s0)).
Proof.
  unfold CreateToken, GetRecords, ValidateAction.
  rewrite decide_False by done. intros H. mem_run H.
  injection H as <- <- _.
  match goal with
  | Hc : MemStore.collections s0 !! _ = Some ?c, Hf : col_Fields ?c !! _ = Some ?f,
    Hr : MemStore.records_of s0 _ !! _ = Some ?g,
    Hd : MemStore.Decrypt P _ = (?s, None), Hp : GetPType _ ?s = Ok ?a,
    Hg : PType_Get ?a _ = Ok ?v |- _ =>
      exists c, f, g, s, a, v
  end.
  repeat split; done.
Qed.

(** GetRecords of one field of one stored record. *)
Lemma mem_GetRecords_single (s : MemStore.Store) (principal : Principal)
    (collectionName recordId fieldName returnFormat : string)
    (col : Collection) (fld : Field) (record : gmap string string)
    (plain : string) (pv : PType) (value : string) :
  EvaluateRequest
    (mkRequest principal PolicyActionRead
       (record_path collectionName recordId fieldName returnFormat))
    (attached s principal) = true →
  MemStore.collections s !! collectionName = Some col →
  col_Fields col !! fieldName = Some fld →
  MemStore.records_of s collectionName !! recordId = Some record →
  MemStore.Decrypt P (default "" (record !! fieldName)) = (plain, None) →
  GetPType (fld_Type fld) plain = Ok pv →
  PType_Get pv returnFormat = Ok value →
  (exec (MemStore.handler P)
     (GetRecords principal collectionName [recordId]
        {[ fieldName := returnFormat ]}) s).1 =
    (Ok {[ recordId := {[ fieldName := value ]} ]}, s).
Proof.
  intros Hallow Hcol Hfld Hrec Hdec Hpv Hget.
  unfold record_path, attached in Hallow.
  unfold GetRecords, ValidateAction. rewrite decide_False by done.
  rewrite !range_of_singleton.
  cbn [exec bind bindE call for_range MemStore.handler fst snd negb Actor].
  rewrite Hallow.
  cbn [exec bind bindE call for_range MemStore.handler fst snd negb Actor].
  rewrite Hcol.
  cbn [exec bind bindE call for_range MemStore.handler fst snd negb Actor].
  rewrite Hfld.
  cbn [exec bind bindE call for_range MemStore.handler fst snd negb Actor].
  rewrite found_singleton, Hrec, map_size_singleton, decide_False by done.
  rewrite range_of_singleton.
  cbn [exec bind bindE call for_range MemStore.handler fst snd negb Actor].
  rewrite Hdec.
  cbn [exec bind bindE call for_range MemStore.handler fst snd from_option id].
  rewrite Hpv, Hget.
  cbn [exec bind bindE call for_range MemStore.handler fst snd].
  by rewrite !insert_empty.
Qed.

(** A token resolves to what it was created over.  On the in-memory
    backend, when CreateToken returns a token id and none of the collection
    name, the record id, the field name and the projection contains a
    slash: GetTokenValue of that token by the same principal returns the
    one field in the one projection, with the value GetRecords returned
    for it when the token was created, and leaves the vault as it was. *)
Theorem CreateToken_then_GetTokenValue (s0 s1 : MemStore.Store)
    (principal : Principal)
    (collectionName recordId fieldName returnFormat tokenId : string)
    (t : list Op) :
  contains slash collectionName = false →
  contains slash recordId = false →
  contains slash fieldName = false →
  contains slash returnFormat = false →
  exec (MemStore.handler P)
    (CreateToken principal collectionName recordId fieldName returnFormat) s0 =
    (Ok tokenId, s1, t) →
  ∃ value,
    (exec (MemStore.handler P)
       (GetRecords principal collectionName [recordId]
          {[ fieldName := returnFormat ]}) s0).1.1 =
      Ok {[ recordId := {[ fieldName := value ]} ]}
    ∧ (exec (MemStore.handler P) (GetTokenValue principal tokenId) s1).1 =
        (Ok {[ fieldName := value ]}, s1).
Proof.
  intros Hc Hr Hf Ht Hcreate.
  apply mem_CreateToken_value in Hcreate
    as (col & fld & record & plain & pv & value
        & Hallow & Hcol & Hfld & Hrec & Hdec & Hpv & Hget & ->).
  exists value. split.
  - by erewrite mem_GetRecords_single.
  - set (s1 := MemStore.set_tokens _ _).
    unfold GetTokenValue.
    erewrite exec_bindE_fst_Ok; last first.
    { unfold call. cbn [exec MemStore.handler fst].
      subst s1. cbn [MemStore.tokens MemStore.set_tokens].
      by rewrite lookup_insert_eq. }
    rewrite Split_payload by done.
    erewrite exec_bindE_fst_Ok;
      [| by apply (mem_GetRecords_single s1 principal collectionName recordId
                     fieldName returnFormat col fld record plain pv value)].
    by rewrite range_of_singleton.
Qed.

End MemTokenValue.

Lemma CreateToken_then_GetTokenValue_witness :
  ∃ value,
    (exec Fixture.mem
       (GetRecords (PE := SpecPolicy.engine) (PT := SpecPType.engine)
          (RO := keyOrder) Fixture.admin "customers" ["rec_0"]
          {[ "first_name" := "masked" ]}) Fixture.store1).1.1 =
      Ok {[ "rec_0" := {[ "first_name" := value ]} ]}
    ∧ (exec Fixture.mem
         (GetTokenValue (PE := SpecPolicy.engine) (PT := SpecPType.engine)
            (RO := keyOrder) Fixture.admin "tok_1")
         (exec Fixture.mem
            (CreateToken (PE := SpecPolicy.engine) (PT := SpecPType.engine)
               (RO := keyOrder) Fixture.admin "customers" "rec_0"
               "first_name" "masked") Fixture.store1).1.2).1 =
        (Ok {[ "first_name" := value ]},
         (exec Fixture.mem
            (CreateToken (PE := SpecPolicy.engine) (PT := SpecPType.engine)
               (RO := keyOrder) Fixture.admin "customers" "rec_0"
               "first_name" "masked") Fixture.store1).1.2).
Proof.
  apply (CreateToken_then_GetTokenValue (PE := SpecPolicy.engine)
           (PT := SpecPType.engine) (RO := keyOrder) MemStore.markPrivatiser
           Fixture.store1 _ Fixture.admin
           "customers" "rec_0" "first_name" "masked" "tok_1"
           (exec Fixture.mem
              (CreateToken (PE := SpecPolicy.engine) (PT := SpecPType.engine)
                 (RO := keyOrder) Fixture.admin "customers" "rec_0"
                 "first_name" "masked") Fixture.store1).2).
  - reflexivity.
  - reflexivity.
  - reflexivity.
  - reflexivity.
  - vm_compute; reflexivity.
Defined.

(** ** Update, then read *)

Section UpdateRead.
Context {PE : PolicyEngine} {PT : PTypeEngine} {RO : RangeOrder}.
Context (P : MemStore.Privatiser).

Lemma mem_encrypt_value_loop (s : MemStore.Store) (l : list (string * string))
    (acc : gmap string string) :
  (exec (MemStore.handler P)
     (for_range l acc
        (λ '(recordFieldName, recordFieldValue) encryptedRecord,
          bind (call (PrivEncrypt recordFieldValue)) (λ '(encryptedValue, err),
            match err with
            | Some e => Ret (Err e)
            | None =>
                Ret (Ok (<[recordFieldName := encryptedValue]> encryptedRecord))
            end))) s).1 =
    (fold_result (encrypt_value P) l acc, s).
Proof.
  apply exec_for_range_fold. intros [f v] acc0 _.
  unfold encrypt_value. cbn [exec bind call MemStore.handler].
  by destruct (MemStore.Encrypt P v) as [c [e |]].
Qed.

Lemma encrypt_value_fold_inv (l : list (string * string))
    (acc enc : gmap string string) :
  NoDup l.*1 →
  fold_result (encrypt_value P) l acc = Ok enc →
  (∀ f v, (f, v) ∈ l →
     ∃ c, MemStore.Encrypt P v = (c, None) ∧ enc !! f = Some c)
  ∧ (∀ k, k ∉ l.*1 → enc !! k = acc !! k).
Proof.
  revert acc. induction l as [| [f0 v0] l IH]; intros acc Hnd Hfold.
  - simpl in Hfold. injection Hfold as <-. split; [| done].
    intros f v Hin. by apply elem_of_nil in Hin.
  - rewrite fmap_cons in Hnd. apply NoDup_cons in Hnd as [Hf0 Hnd].
    cbn [fold_result] in Hfold. unfold encrypt_value at 1 in Hfold.
    destruct (MemStore.Encrypt P v0) as [c [e |]] eqn:Hc; [done |].
    destruct (IH _ Hnd Hfold) as [Hin Hout]. split.
    + intros f v [[= -> ->] | Hl]%elem_of_cons; [| by apply Hin].
      exists c. split; [done |]. rewrite (Hout f0 Hf0). apply lookup_insert_eq.
    + intros k Hk. rewrite fmap_cons in Hk. cbn [fst] in Hk.
      apply not_elem_of_cons in Hk as [Hne Hk].
      rewrite (Hout k Hk). by apply lookup_insert_ne.
Qed.

(** A successful UpdateRecord on the in-memory backend. *)
Lemma mem_UpdateRecord_Ok (s0 s1 : MemStore.Store) (principal : Principal)
    (collectionName recordID : string) (record : gmap string string)
    (t : list Op) :
  exec (MemStore.handler P)
    (UpdateRecord principal collectionName recordID record) s0 = (Ok tt, s1, t) →
  ∃ enc old,
    fold_result (encrypt_value P) (range_of record) ∅ = Ok enc
    ∧ MemStore.records_of s0 collectionName !! recordID = Some old
    ∧ s1 = MemStore.set_records s0
             (<[collectionName :=
                  <[recordID := enc ∪ old]> (MemStore.records_of s0 collectionName)]>
                (MemStore.records s0)).
Proof.
  unfold UpdateRecord. intros H.
  apply exec_bindE_Ok in H as (allowed & w1 & t1 & t2 & Hva & H & ->).
  rewrite mem_ValidateAction in Hva. injection Hva as <- <- <-.
  destruct (EvaluateRequest _ _); [| done]. cbn [negb] in H.
  apply exec_bindE_Ok in H as (enc & w2 & t3 & t4 & Hloop & H & ->).
  pose proof (mem_encrypt_value_loop s0 (range_of record) ∅) as He.
  rewrite Hloop in He. cbn [fst] in He. injection He as Hfold ->.
  apply exec_bindE_Ok in H as ([] & w3 & t5 & t6 & Hupd & Hret & _).
  unfold call in Hupd. cbn [exec MemStore.handler] in Hupd, Hret.
  destruct (MemStore.records_of s0 collectionName !! recordID) as [old |] eqn:Hold;
    [| done].
  injection Hret as ->. injection Hupd as <- _. by exists enc, old.
Qed.

(** Reading back, in the plain projection, values that are stored
    encrypted under their field names. *)
Lemma mem_read_back (s : MemStore.Store) (reader : Principal)
    (collectionName idR : string) (R stored : gmap string string)
    (col : Collection) :
  (∀ v c, MemStore.Encrypt P v = (c, None) → MemStore.Decrypt P c = (v, None)) →
  (∀ typeName v pv, GetPType typeName v = Ok pv → PType_Get pv "plain" = Ok v) →
  MemStore.collections s !! collectionName = Some col →
  MemStore.records_of s collectionName !! idR = Some stored →
  (∀ f v, R !! f = Some v →
     ∃ fld pv c, col_Fields col !! f = Some fld
       ∧ GetPType (fld_Type fld) v = Ok pv
       ∧ MemStore.Encrypt P v = (c, None)
       ∧ stored !! f = Some c) →
  may_read s reader collectionName [idR] ((λ _, "plain") <$> R) →
  (exec (MemStore.handler P)
     (GetRecords reader collectionName [idR] ((λ _, "plain") <$> R)) s).1 =
    (Ok {[ idR := R ]}, s).
Proof.
  intros Hcipher Hplain Hcol Hrec Henc Hmay.
  set (formats := (λ _, "plain") <$> R) in *.
  assert (∀ field, is_Some (formats !! field) → is_Some (col_Fields col !! field))
    as Hdecl.
  { intros field [format Hf]. unfold formats in Hf.
    apply lookup_fmap_Some in Hf as (v & _ & Hv).
    destruct (Henc _ _ Hv) as (fld & _ & _ & Hfld & _). by eexists. }
  unfold GetRecords. rewrite decide_False by done.
  rewrite (exec_bindE_fst_Ok _ _ _ s s tt) by (by apply mem_authorized).
  rewrite (exec_bindE_fst_Ok _ _ _ s s col)
    by (unfold call; cbn [exec MemStore.handler]; by rewrite Hcol).
  rewrite (exec_bindE_fst_Ok _ _ _ s s tt) by (by apply mem_fields_declared).
  rewrite (exec_bindE_fst_Ok _ _ _ s s {[ idR := stored ]})
    by (unfold call; cbn [exec MemStore.handler fst];
        by rewrite found_singleton, Hrec).
  rewrite map_size_singleton, decide_False by done.
  rewrite range_of_singleton, exec_for_range_cons. cbv beta iota.
  rewrite exec_bindE.
  pose proof (mem_render_loop P s col stored (range_of formats) ∅) as Hr.
  destruct (exec _ (for_range (range_of formats) _ _) s) as [[r w] tr].
  cbn [fst] in Hr. injection Hr as -> ->.
  rewrite (fold_result_ext _ (λ x acc, Ok (<[x.1 := default "" (R !! x.1)]> acc))).
  - rewrite (fold_result_total (λ x acc, <[x.1 := default "" (R !! x.1)]> acc)).
    cbn [exec for_range fst]. rewrite insert_empty.
    do 3 f_equal. apply map_eq. intros k.
    rewrite (foldl_insert_lookup (λ k0, default "" (R !! k0))).
    destruct (decide _) as [Hin | Hnin].
    + apply elem_of_range_of_fst in Hin as [format Hf].
      apply lookup_fmap_Some in Hf as (v & _ & ->). done.
    + rewrite lookup_empty. symmetry.
      destruct (R !! k) as [v |] eqn:Hk; [| done].
      exfalso. apply Hnin, elem_of_range_of_fst.
      unfold formats. rewrite lookup_fmap, Hk. by eexists.
  - intros [field format] acc Hin. apply elem_of_range_of in Hin.
    apply lookup_fmap_Some in Hin as (v & <- & Hv).
    destruct (Henc field v Hv) as (fld & pv & c & Hfld & Hpv & Hc & Hlook).
    unfold render_field. cbn [fst].
    rewrite Hlook, Hv, Hfld. cbn [from_option id].
    by rewrite (Hcipher _ _ Hc), Hpv, (Hplain _ _ _ Hpv).
Qed.

(** Update, then read.  On the in-memory backend, with a cipher whose
    Decrypt gives back what Encrypt was given and a PType engine whose
    [plain] projection of a parsed value is the raw value: when UpdateRecord
    with a patch returns a nil error, and every field of the patch is
    declared on the collection with a value that parses under its type
    (UpdateRecord itself checks neither), GetRecords of that record with
    [plain] for every field of the patch, by a principal allowed to read
    them, returns exactly the patch. *)
Theorem UpdateRecord_then_GetRecords (s0 s1 : MemStore.Store)
    (writer reader : Principal) (collectionName recordID : string)
    (record : gmap string string) (col : Collection) (t : list Op) :
  (∀ v c, MemStore.Encrypt P v = (c, None) → MemStore.Decrypt P c = (v, None)) →
  (∀ typeName v pv, GetPType typeName v = Ok pv → PType_Get pv "plain" = Ok v) →
  exec (MemStore.handler P)
    (UpdateRecord writer collectionName recordID record) s0 = (Ok tt, s1, t) →
  MemStore.collections s0 !! collectionName = Some col →
  (∀ f v, record !! f = Some v →
     ∃ fld pv, col_Fields col !! f = Some fld
       ∧ GetPType (fld_Type fld) v = Ok pv) →
  may_read s1 reader collectionName [recordID] ((λ _, "plain") <$> record) →
  (exec (MemStore.handler P)
     (GetRecords reader collectionName [recordID] ((λ _, "plain") <$> record))
     s1).1 =
    (Ok {[ recordID := record ]}, s1).
Proof.
  intros Hcipher Hplain Hupd Hcol Hdecl Hmay.
  apply mem_UpdateRecord_Ok in Hupd as (enc & old & Hfold & Hold & ->).
  apply encrypt_value_fold_inv in Hfold as [Henc _]; [| apply range_of_NoDup_fst].
  apply (mem_read_back _ reader collectionName recordID record (enc ∪ old) col);
    try done.
  - unfold MemStore.records_of at 1.
    cbn [MemStore.records MemStore.set_records].
    rewrite lookup_insert_eq. cbn [from_option id]. apply lookup_insert_eq.
  - intros f v Hv. destruct (Hdecl f v Hv) as (fld & pv & Hfld & Hpv).
    destruct (Henc f v) as (c & Hc & Hlook); [by apply elem_of_range_of |].
    exists fld, pv, c. repeat split; try done.
    apply lookup_union_Some_l, Hlook.
Qed.

End UpdateRead.

Lemma UpdateRecord_then_GetRecords_witness :
  (exec Fixture.mem
     (GetRecords (PE := SpecPolicy.engine) (PT := SpecPType.engine)
        (RO := keyOrder) Fixture.admin "customers" ["rec_0"]
        ((λ _, "plain") <$> ({[ "first_name" := "Jane" ]} : gmap string string)))
     (exec Fixture.mem
        (UpdateRecord (PE := SpecPolicy.engine) (RO := keyOrder) Fixture.admin
           "customers" "rec_0" {[ "first_name" := "Jane" ]}) Fixture.store1).1.2).1 =
    (Ok {[ "rec_0" := {[ "first_name" := "Jane" ]} ]},
     (exec Fixture.mem
        (UpdateRecord (PE := SpecPolicy.engine) (RO := keyOrder) Fixture.admin
           "customers" "rec_0" {[ "first_name" := "Jane" ]}) Fixture.store1).1.2).
Proof.
  apply (UpdateRecord_then_GetRecords (PE := SpecPolicy.engine)
           (PT := SpecPType.engine) (RO := keyOrder) MemStore.markPrivatiser
           Fixture.store1 _ Fixture.admin Fixture.admin "customers" "rec_0"
           {[ "first_name" := "Jane" ]} Fixture.customers
           (exec Fixture.mem
              (UpdateRecord (PE := SpecPolicy.engine) (RO := keyOrder)
                 Fixture.admin "customers" "rec_0"
                 {[ "first_name" := "Jane" ]}) Fixture.store1).2).
  - apply markPrivatiser_round_trip.
  - apply SpecPType_plain.
  - vm_compute; reflexivity.
  - vm_compute; reflexivity.
  - intros f v Hv. apply lookup_singleton_Some in Hv as [<- <-].
    exists (mkField "string" true), (SpecPType.mkValue "string" "Jane").
    split; vm_compute; reflexivity.
  - by apply admin_may_read_at.
Defined.

(** ** Creating a principal, then logging in *)

Lemma validate_principal_Username (q : Principal) :
  MemStore.validate (PPrincipal q) = VNil → prin_Username q ≠ "".
Proof.
  intros H Hu. unfold MemStore.validate, MemStore.required in H.
  rewrite Hu in H. rewrite (bool_decide_eq_true_2 ("" = "")) in H by done.
  cbn [app] in H. discriminate H.
Qed.

Lemma validate_field_errors (payload : Payload)
    (errs : list (string * string * string)) :
  MemStore.validate payload = VFieldErrors errs → errs ≠ [].
Proof.
  unfold MemStore.validate. cbv zeta.
  match goal with
  | |- match ?l with _ => _ end = _ → _ => destruct l
  end; [done |].
  by intros [= <-].
Qed.

Section PrincipalLogin.
Context {PE : PolicyEngine}.
Context (P : MemStore.Privatiser).

Lemma mem_CreatePrincipal_Ok (s0 s1 : MemStore.Store)
    (actor principal stored : Principal) (t : list Op) :
  exec (MemStore.handler P) (CreatePrincipal actor principal) s0 =
    ((stored, Ok tt), s1, t) →
  prin_Username stored = prin_Username principal
  ∧ prin_Username stored ≠ ""
  ∧ prin_Password stored = "$2a$10$" +:+ prin_Password principal
  ∧ MemStore.principals s1 !! prin_Username principal = Some stored.
Proof.
  unfold CreatePrincipal, Validate, ValidateAction. intros H. mem_run H.
  - injection H as <- <- _. cbn. split; [done |]. split.
    + by eapply (validate_principal_Username
                   (set_prin_CreatedAt (set_prin_Id (set_prin_Password _ _) _) _)).
    + split; [done |]. apply lookup_insert_eq.
  - exfalso.
    match goal with
    | Hv : MemStore.validate _ = VFieldErrors ?errs |- _ =>
        apply validate_field_errors in Hv; destruct errs; done
    end.
Qed.

(** The password a principal was created with logs it in, and no other
    does.  On the in-memory backend (bcrypt as a hash that accepts exactly
    the password it was made from): when CreatePrincipal returns a nil
    error for a principal with a non-empty password, Login with its
    username and that password returns the stored principal, whose password
    field is the hash; Login with any other non-empty password returns the
    Forbidden of the zero request.  Neither changes the vault. *)
Theorem CreatePrincipal_then_Login (s0 s1 : MemStore.Store)
    (actor principal stored : Principal) (t : list Op) :
  exec (MemStore.handler P) (CreatePrincipal actor principal) s0 =
    ((stored, Ok tt), s1, t) →
  prin_Password principal ≠ "" →
  (exec (MemStore.handler P)
     (Login (prin_Username principal) (prin_Password principal)) s1).1 =
    (Ok stored, s1)
  ∧ ∀ password,
      password ≠ "" → password ≠ prin_Password principal →
      (exec (MemStore.handler P)
         (Login (prin_Username principal) password) s1).1 =
        (Err (ForbiddenError zeroRequest), s1).
Proof.
  intros Hcreate Hpw.
  apply mem_CreatePrincipal_Ok in Hcreate as (Hu & Hne & Hhash & Hstored).
  rewrite Hu in Hne.
  assert (prin_Password stored ≠ "") as Hh by (by rewrite Hhash).
  split.
  - unfold Login, call. rewrite !bool_decide_eq_false_2 by done.
    cbn [orb exec bind MemStore.handler]. rewrite Hstored.
    rewrite Hu, !bool_decide_eq_false_2 by done.
    cbn [orb exec bind MemStore.handler].
    by rewrite Hhash, bool_decide_eq_true_2.
  - intros password Hp Hother.
    unfold Login, call. rewrite !bool_decide_eq_false_2 by done.
    cbn [orb exec bind MemStore.handler]. rewrite Hstored.
    rewrite Hu, !bool_decide_eq_false_2 by done.
    cbn [orb exec bind MemStore.handler].
    rewrite Hhash, bool_decide_eq_false_2; [done |].
    intros Heq. apply Hother. symmetry.
    by repeat (injection Heq as Heq).
Qed.

End PrincipalLogin.

Lemma CreatePrincipal_then_Login_witness :
  let created :=
    exec Fixture.mem
      (CreatePrincipal (PE := SpecPolicy.engine) Fixture.admin
         (mkPrincipal "" "clerk" "letmein" "" "" "" ["name-only"]))
      Fixture.store1 in
  (exec Fixture.mem (Login "clerk" "letmein") created.1.2).1 =
    (Ok created.1.1.1, created.1.2)
  ∧ ∀ password,
      password ≠ "" → password ≠ "letmein" →
      (exec Fixture.mem (Login "clerk" password) created.1.2).1 =
        (Err (ForbiddenError zeroRequest), created.1.2).
Proof.
  apply (CreatePrincipal_then_Login (PE := SpecPolicy.engine)
           MemStore.markPrivatiser Fixture.store1 _ Fixture.admin
           (mkPrincipal "" "clerk" "letmein" "" "" "" ["name-only"]) _
           (exec Fixture.mem
              (CreatePrincipal (PE := SpecPolicy.engine) Fixture.admin
                 (mkPrincipal "" "clerk" "letmein" "" "" "" ["name-only"]))
              Fixture.store1).2).
  - vm_compute; reflexivity.
  - done.
Defined.

(** ** A requested field the collection does not have *)

Section Undeclared.
Context {PE : PolicyEngine} {PT : PTypeEngine} {RO : RangeOrder}.
Context {W : Type} (h : Handler W).

(** The loop of GetRecords that checks the requested fields. *)
Lemma exec_declared_check (col : Collection) (collectionName : string)
    (fl : list (string * string)) (w : W) :
  let out :=
    exec h
      (for_range fl tt (λ '(field, _) _,
         match col_Fields col !! field with
         | None =>
             Ret (Err (NotFoundError ("Field " +:+ field +:+
                    " not found on collection " +:+ collectionName) ""))
         | Some _ => Ret (Ok tt)
         end)) w in
  out.1.2 = w ∧ out.2 = []
  ∧ ((out.1.1 = Ok tt
      ∧ ∀ field format, (field, format) ∈ fl → is_Some (col_Fields col !! field))
     ∨ ∃ field format,
         (field, format) ∈ fl ∧ col_Fields col !! field = None
         ∧ out.1.1 =
             Err (NotFoundError ("Field " +:+ field +:+
                    " not found on collection " +:+ collectionName) "")).
Proof.
  induction fl as [| [field format] fl IH]; cbv zeta in *.
  - cbn. split; [done |]. split; [done |]. left. split; [done |].
    intros f fmt Hin. by apply elem_of_nil in Hin.
  - rewrite exec_for_range_cons. cbv beta iota.
    destruct (col_Fields col !! field) as [fld |] eqn:Hfld; cbn [exec].
    + destruct IH as (Hw & Ht & Hres).
      destruct (exec h (for_range fl tt _) w) as [[r w1] t1].
      cbn [fst snd] in *. subst w1 t1. split; [done |]. split; [done |].
      destruct Hres as [[-> Hok] | (f & fmt & Hin & Hnone & ->)].
      * left. split; [done |].
        intros f fmt [[= -> ->] | Hin]%elem_of_cons; [by eexists | by eapply Hok].
      * right. exists f, fmt. split; [by right | done].
    + cbn [fst snd]. split; [done |]. split; [done |].
      right. exists field, format. split; [by left | done].
Qed.

(** Asking for a field the collection does not have.  When the policy
    engine allows the principal everything it asks for and the storage
    backend answers a collection on which one of the requested fields is
    not declared, GetRecords returns a NotFound whose resource name is the
    whole sentence [Field f not found on collection c], for a requested
    field [f] that is not declared, and whose value is empty; it has read
    the collection but no record, and has decrypted nothing. *)
Theorem GetRecords_undeclared_field (w w1 : W) (principal : Principal)
    (collectionName : string) (recordIDs : list string)
    (returnFormats : gmap string string) (ps : list Policy)
    (col : Collection) (field format : string) :
  h (DbGetPolicies (prin_Policies principal)) w = (Ok ps, w) →
  recordIDs ≠ [] →
  (∀ recordID field format,
     recordID ∈ recordIDs → returnFormats !! field = Some format →
     EvaluateRequest
       (mkRequest principal PolicyActionRead
          (record_path collectionName recordID field format)) ps = true) →
  h (DbGetCollection collectionName) w = (Ok col, w1) →
  returnFormats !! field = Some format →
  col_Fields col !! field = None →
  ∃ field',
    is_Some (returnFormats !! field') ∧ col_Fields col !! field' = None
    ∧ exec h (GetRecords principal collectionName recordIDs returnFormats) w =
        (Err (NotFoundError ("Field " +:+ field' +:+
                " not found on collection " +:+ collectionName) ""),
         w1,
         replicate (length recordIDs * size returnFormats)
           (DbGetPolicies (prin_Policies principal))
           ++ [DbGetCollection collectionName]).
Proof.
  intros Hfetch Hne Hallow Hcol Hfield Hnone. unfold GetRecords.
  rewrite decide_False by (by destruct recordIDs).
  rewrite exec_bindE.
  pose proof (exec_record_checks h principal collectionName ps w Hfetch
                recordIDs (range_of returnFormats)) as Hchk.
  cbv zeta in Hchk.
  destruct (exec h (for_range recordIDs tt _) w) as [[r w0] t1].
  cbn [fst snd] in Hchk. destruct Hchk as (-> & Hall & Hres).
  destruct Hres as [(-> & Hlen & _) | (id & f & fmt & Hin1 & Hin2 & Hd & ->)].
  2: { rewrite (Hallow id f fmt Hin1) in Hd; [done |]. by apply elem_of_range_of. }
  assert (t1 = replicate (length recordIDs * size returnFormats)
                 (DbGetPolicies (prin_Policies principal))) as ->.
  { rewrite <- (length_map_to_list returnFormats).
    rewrite <- (Permutation_length (range_of_perm returnFormats)), <- Hlen.
    clear -Hall. induction Hall as [| o t1 -> _ IH]; [done |].
    cbn [length replicate]. by rewrite <- IH. }
  rewrite exec_bindE. unfold call at 1. cbn [exec]. rewrite Hcol.
  rewrite exec_bindE.
  pose proof (exec_declared_check col collectionName (range_of returnFormats) w1)
    as Hdecl.
  cbv zeta in Hdecl.
  destruct (exec h (for_range (range_of returnFormats) tt _) w1) as [[r w2] t2].
  cbn [fst snd] in Hdecl. destruct Hdecl as (-> & -> & Hres).
  destruct Hres as [[-> Hok] | (f & fmt & Hin & Hn & ->)].
  - destruct (Hok field format) as [fld Hfld]; [by apply elem_of_range_of |].
    by rewrite Hfld in Hnone.
  - exists f. split; [apply elem_of_range_of in Hin; by eexists |].
    split; [done |]. by rewrite app_nil_r.
Qed.

(** CreateRecords writes once, at the end, or not at all.  For every
    storage backend and whatever CreateRecords returns: either the run
    holds no storage write, or its last call is the one storage write of
    the whole batch and what CreateRecords returns is what that write
    answered.  So when CreateRecords returns an error of its own (a
    Forbidden, an undeclared field, a value that does not parse, an error
    of the cipher), no record of the batch has been stored. *)
Theorem CreateRecords_writes_once_at_the_end (w w' : W) (principal : Principal)
    (collectionName : string) (records : list Record_)
    (r : result (list string)) (t : list Op) :
  exec h (CreateRecords principal collectionName records) w = (r, w', t) →
  Forall (λ o, is_storage_write o = false) t
  ∨ ∃ t0 encryptedRecords wc,
      t = t0 ++ [DbCreateRecords collectionName encryptedRecords]
      ∧ Forall (λ o, is_storage_write o = false) t0
      ∧ length encryptedRecords = length records
      ∧ h (DbCreateRecords collectionName encryptedRecords) wc = (r, w').
Proof.
  unfold CreateRecords. rewrite exec_bindE, exec_ValidateAction_any.
  destruct (h (DbGetPolicies _) w) as [[ps | e] wa]; cbn [fst snd].
  2: { intros [= <- <- <-]. left. by repeat constructor. }
  destruct (EvaluateRequest _ ps); cbn [negb exec].
  2: { intros [= <- <- <-]. left. by repeat constructor. }
  rewrite exec_bindE. unfold call at 1. cbn [exec].
  destruct (h (DbGetCollection collectionName) wa) as [[col | e] wb].
  2: { intros [= <- <- <-]. left. by repeat constructor. }
  rewrite exec_bindE.
  match goal with
  | |- context [exec h (for_range ?l ?s ?body) wb] =>
      pose proof (calls_only_trace h (λ o, is_storage_write o = false)
                    (for_range l s body) wb) as Ht;
      pose proof (exec_for_range_inv h
                    (λ _ (s0 : list (gmap string string)),
                       length s0 = length records) body l s) as Hlen;
      destruct (exec h (for_range l s body) wb) as [[[encs | e] wc] t5] eqn:Hloop
  end; cbn [snd] in Ht.
  2: { intros [= <- <- <-]. left. repeat constructor. apply Ht. calls_tac. }
  unfold call. cbn [exec].
  destruct (h (DbCreateRecords collectionName encs) wc) as [r1 w1] eqn:Hw.
  intros [= <- <- <-]. right.
  exists ([DbGetPolicies (prin_Policies principal)]
            ++ [DbGetCollection collectionName] ++ t5), encs, wc.
  split; [by rewrite <- !app_assoc |]. split.
  - repeat constructor. apply Ht. calls_tac.
  - split; [| done]. apply (Hlen encs wb wc t5); [by rewrite length_replicate | | done].
    intros pre [i record] s0 s1 w0 w2 t0 Hl Hbody.
    apply exec_bindE_Ok in Hbody as (enc & w3 & t7 & t8 & _ & Hret & _).
    cbn [exec] in Hret. injection Hret as <- _ _. by rewrite length_insert.
Qed.

End Undeclared.

Lemma GetRecords_undeclared_field_witness :
  ∃ field',
    is_Some (({[ "first_name" := "plain"; "last_name" := "plain" ]}
                : gmap string string) !! field')
    ∧ col_Fields Fixture.customers !! field' = None
    ∧ exec Fixture.mem
        (GetRecords (PE := SpecPolicy.engine) (PT := SpecPType.engine)
           (RO := keyOrder) Fixture.admin "customers" ["rec_0"]
           {[ "first_name" := "plain"; "last_name" := "plain" ]})
        Fixture.store1 =
        (Err (NotFoundError ("Field " +:+ field' +:+
                " not found on collection " +:+ "customers") ""),
         Fixture.store1,
         replicate
           (length ["rec_0"]
              * size ({[ "first_name" := "plain"; "last_name" := "plain" ]}
                        : gmap string string))
           (DbGetPolicies (prin_Policies Fixture.admin))
           ++ [DbGetCollection "customers"]).
Proof.
  apply (GetRecords_undeclared_field (PE := SpecPolicy.engine)
           (PT := SpecPType.engine) (RO := keyOrder) Fixture.mem
           Fixture.store1 Fixture.store1 Fixture.admin "customers" ["rec_0"]
           {[ "first_name" := "plain"; "last_name" := "plain" ]}
           [Fixture.adminRead; Fixture.adminWrite] Fixture.customers
           "last_name" "plain").
  - vm_compute; reflexivity.
  - done.
  - intros recordID field format _ _. unfold record_path.
    change (SpecPolicy.evaluate
              (mkRequest Fixture.admin PolicyActionRead
                 ("/collections" +:+ "/" +:+ "customers" +:+ "/records" +:+ "/"
                    +:+ recordID +:+ "/" +:+ field +:+ "." +:+ format))
              [Fixture.adminRead; Fixture.adminWrite] false = true).
    reflexivity.
  - vm_compute; reflexivity.
  - vm_compute; reflexivity.
  - vm_compute; reflexivity.
Defined.

Lemma CreateRecords_writes_once_at_the_end_witness :
  Forall (λ o, is_storage_write o = false)
    [DbGetPolicies ["admin-read"; "admin-write"]; DbGetCollection "customers";
     PrivEncrypt "John"]
  ∨ ∃ t0 encryptedRecords wc,
      [DbGetPolicies ["admin-read"; "admin-write"]; DbGetCollection "customers";
       PrivEncrypt "John"] =
        t0 ++ [DbCreateRecords "customers" encryptedRecords]
      ∧ Forall (λ o, is_storage_write o = false) t0
      ∧ length encryptedRecords =
          length [ ({[ "first_name" := "John" ]} : gmap string string);
                   {[ "nickname" := "Johnny" ]} ]
      ∧ Fixture.mem (DbCreateRecords "customers" encryptedRecords) wc =
          (Err (ValueError "Field nickname not found on collection customers"),
           Fixture.store0).
Proof.
  apply (CreateRecords_writes_once_at_the_end (PE := SpecPolicy.engine)
           (PT := SpecPType.engine) (RO := keyOrder) Fixture.mem
           Fixture.store0 Fixture.store0 Fixture.admin "customers"
           [ {[ "first_name" := "John" ]}; {[ "nickname" := "Johnny" ]} ]).
  vm_compute; reflexivity.
Defined.

(** ** Deleting a token *)

Section MemDeleteToken.
Context {PE : PolicyEngine} {PT : PTypeEngine} {RO : RangeOrder}.
Context (P : MemStore.Privatiser).

(** DeleteToken takes no principal and asks no one.  On the in-memory
    backend, once CreateToken has returned a token id: DeleteToken of that
    id makes the storage delete as its only call and returns nil; after it,
    GetTokenValue of the id returns the storage backend's own not-found
    error to every principal, allowed to read the field or not, after the
    token read and before any request to the policy engine. *)
Theorem DeleteToken_then_GetTokenValue (s0 s1 : MemStore.Store)
    (creator : Principal)
    (collectionName recordId fieldName returnFormat tokenId : string)
    (t : list Op) :
  exec (MemStore.handler P)
    (CreateToken creator collectionName recordId fieldName returnFormat) s0 =
    (Ok tokenId, s1, t) →
  let s2 := MemStore.set_tokens s1 (delete tokenId (MemStore.tokens s1)) in
  exec (MemStore.handler P) (DeleteToken tokenId) s1 =
    (Ok tt, s2, [DbDeleteToken tokenId])
  ∧ ∀ principal,
      exec (MemStore.handler P) (GetTokenValue principal tokenId) s2 =
        (Err ErrNotFound, s2, [DbGetTokenValue tokenId]).
Proof.
  intros Hcreate s2.
  apply mem_CreateToken_Ok in Hcreate as (col & _ & _ & _ & Hs1).
  assert (MemStore.tokens s1 !! tokenId =
            Some (collectionName +:+ "/" +:+ recordId +:+ "/" +:+
                    fieldName +:+ "/" +:+ returnFormat)) as Htok.
  { rewrite Hs1. cbn [MemStore.tokens MemStore.set_tokens].
    apply lookup_insert_eq. }
  split.
  - unfold DeleteToken, call. cbn [exec MemStore.handler]. by rewrite Htok.
  - intros principal. unfold GetTokenValue, call.
    cbn [exec bind bindE MemStore.handler].
    subst s2. cbn [MemStore.tokens MemStore.set_tokens].
    by rewrite lookup_delete_eq.
Qed.

End MemDeleteToken.

Lemma DeleteToken_then_GetTokenValue_witness :
  let s2 :=
    MemStore.set_tokens Fixture.store2
      (delete "tok_1" (MemStore.tokens Fixture.store2)) in
  exec Fixture.mem (DeleteToken "tok_1") Fixture.store2 =
    (Ok tt, s2, [DbDeleteToken "tok_1"])
  ∧ ∀ principal,
      exec Fixture.mem
        (GetTokenValue (PE := SpecPolicy.engine) (PT := SpecPType.engine)
           (RO := keyOrder) principal "tok_1") s2 =
        (Err ErrNotFound, s2, [DbGetTokenValue "tok_1"]).
Proof.
  apply (DeleteToken_then_GetTokenValue (PE := SpecPolicy.engine)
           (PT := SpecPType.engine) (RO := keyOrder) MemStore.markPrivatiser
           Fixture.store1 Fixture.store2 Fixture.admin
           "customers" "rec_0" "first_name" "plain" "tok_1"
           (exec Fixture.mem
              (CreateToken (PE := SpecPolicy.engine) (PT := SpecPType.engine)
                 (RO := keyOrder) Fixture.admin "customers" "rec_0"
                 "first_name" "plain") Fixture.store1).2).
  vm_compute; reflexivity.
Defined.

(** ** When the policies cannot be fetched *)

Section FetchFails.
Context {PE : PolicyEngine} {PT : PTypeEngine} {RO : RangeOrder}.
Context {W : Type} (h : Handler W).

Ltac fail_step Hh :=
  lazymatch type of Hh with
  | ?h (DbGetPolicies (prin_Policies ?p)) ?w = (Err ?e, ?w') =>
      first
        [ rewrite exec_bindE,
            (exec_ValidateAction_Err h w w' (mkRequest p _ _) e Hh)
        | rewrite exec_bind,
            (exec_ValidateAction_Err h w w' (mkRequest p _ _) e Hh) ]
  end;
  reflexivity.

(** The operations fail closed.  For every storage backend and each
    operation that asks the policy engine first, on an input that reaches
    the engine: when the fetch of the principal's policies fails, the
    operation returns the error of that fetch as it is, the fetch is the
    only call it makes, and the policy engine is never given a chance to
    allow. *)
Theorem policy_fetch_failure_fails_closed (w w' : W) (principal : Principal)
    (op : GatedOp) (e : error) :
  reaches_engine op →
  h (DbGetPolicies (prin_Policies principal)) w = (Err e, w') →
  exec h (run_gated principal op) w =
    (Some e, w', [DbGetPolicies (prin_Policies principal)]).
Proof.
  intros Hreach Hh.
  destruct op; unfold run_gated, returned_error; rewrite exec_bind;
    simpl in Hreach.
  - unfold GetCollection. by fail_step Hh.
  - unfold GetCollections. by fail_step Hh.
  - unfold CreateCollection. by fail_step Hh.
  - unfold DeleteCollection. by fail_step Hh.
  - unfold CreateRecords. by fail_step Hh.
  - destruct Hreach as [Hids Hformats]. unfold GetRecords.
    destruct recordIDs as [| id ids]; [done |].
    destruct (range_of returnFormats) as [| [field format] rest] eqn:Hr;
      [by apply range_of_nil_inv in Hr |].
    rewrite decide_False by done.
    rewrite exec_bindE, exec_for_range_cons. cbv beta.
    rewrite exec_for_range_cons. cbv beta iota.
    rewrite exec_bindE,
      (exec_ValidateAction_Err h w w' (mkRequest principal _ _) e Hh).
    reflexivity.
  - unfold UpdateRecord. by fail_step Hh.
  - unfold DeleteRecord. by fail_step Hh.
  - unfold GetPrincipal. by fail_step Hh.
  - unfold CreatePrincipal. by fail_step Hh.
  - unfold DeletePrincipal. by fail_step Hh.
  - unfold CreatePolicy. rewrite Hreach. by fail_step Hh.
  - unfold GetPolicy. by fail_step Hh.
  - unfold DeletePolicy. by fail_step Hh.
  - unfold GetPrincipalPolicies. by fail_step Hh.
  - unfold CreateToken, GetRecords. rewrite decide_False by done.
    rewrite !exec_bindE, exec_for_range_cons, range_of_singleton. cbv beta.
    rewrite exec_for_range_cons. cbv beta iota.
    rewrite exec_bindE,
      (exec_ValidateAction_Err h w w' (mkRequest principal _ _) e Hh).
    reflexivity.
  - unfold CreateSubject. by fail_step Hh.
  - unfold GetSubject. by fail_step Hh.
  - unfold DeleteSubject. by fail_step Hh.
Qed.

End FetchFails.

Lemma policy_fetch_failure_fails_closed_witness :
  exec downHandler
    (run_gated (PE := SpecPolicy.engine) (PT := SpecPType.engine)
       (RO := keyOrder) Fixture.admin
       (OpGetRecords "customers" ["rec_0"] {[ "first_name" := "plain" ]})) tt =
    (Some ErrDown, tt, [DbGetPolicies (prin_Policies Fixture.admin)]).
Proof.
  apply (policy_fetch_failure_fails_closed (PE := SpecPolicy.engine)
           (PT := SpecPType.engine) (RO := keyOrder) downHandler tt tt
           Fixture.admin
           (OpGetRecords "customers" ["rec_0"] {[ "first_name" := "plain" ]})
           ErrDown).
  - split; [done | apply insert_non_empty].
  - reflexivity.
Defined.

(** ** Creating a collection, then reading it *)

Section MemCollections.
Context {PE : PolicyEngine}.
Context (P : MemStore.Privatiser).

(** The caller holds what was stored.  On the in-memory backend, when
    CreateCollection returns a nil error: the struct the caller holds
    afterwards is the one given with only its id replaced (by a minted
    one, whatever id the caller put there); and GetCollection under the
    collection's name, by a principal allowed to read it, returns exactly
    that struct and leaves the vault as it was. *)
Theorem CreateCollection_then_GetCollection (s0 s1 : MemStore.Store)
    (actor reader : Principal) (col stored : Collection) (t : list Op) :
  exec (MemStore.handler P) (CreateCollection actor col) s0 =
    ((stored, Ok tt), s1, t) →
  EvaluateRequest
    (mkRequest reader PolicyActionRead
       (COLLECTIONS_PPATH +:+ "/" +:+ col_Name col))
    (attached s1 reader) = true →
  stored = set_col_Id col (col_Id stored)
  ∧ (exec (MemStore.handler P) (GetCollection reader (col_Name col)) s1).1 =
      (Ok stored, s1).
Proof.
  unfold CreateCollection, Validate, ValidateAction. intros H Hallow.
  mem_run H.
  - injection H as <- <- _. split; [done |].
    unfold GetCollection, ValidateAction.
    cbn [exec bind bindE call MemStore.handler fst snd negb Actor].
    unfold attached in Hallow. cbn [MemStore.policies MemStore.set_collections
      MemStore.set_minted] in Hallow |- *.
    rewrite Hallow.
    cbn [exec bind bindE call MemStore.handler fst snd negb Actor
           MemStore.collections MemStore.set_collections col_Name set_col_Id].
    by rewrite lookup_insert_eq.
  - exfalso.
    match goal with
    | Hv : MemStore.validate _ = VFieldErrors ?errs |- _ =>
        apply validate_field_errors in Hv; destruct errs; done
    end.
Qed.

End MemCollections.

Lemma CreateCollection_then_GetCollection_witness :
  let created :=
    exec Fixture.mem
      (CreateCollection (PE := SpecPolicy.engine) Fixture.admin
         (mkCollection "mine" "orders"
            {[ "total" := mkField "string" false ]} "" "" ""))
      Fixture.store1 in
  created.1.1.1 =
    set_col_Id
      (mkCollection "mine" "orders" {[ "total" := mkField "string" false ]} "" "" "")
      (col_Id created.1.1.1)
  ∧ (exec Fixture.mem
       (GetCollection (PE := SpecPolicy.engine) Fixture.admin "orders")
       created.1.2).1 = (Ok created.1.1.1, created.1.2).
Proof.
  apply (CreateCollection_then_GetCollection (PE := SpecPolicy.engine)
           MemStore.markPrivatiser Fixture.store1 _ Fixture.admin Fixture.admin
           (mkCollection "mine" "orders"
              {[ "total" := mkField "string" false ]} "" "" "") _
           (exec Fixture.mem
              (CreateCollection (PE := SpecPolicy.engine) Fixture.admin
                 (mkCollection "mine" "orders"
                    {[ "total" := mkField "string" false ]} "" "" ""))
              Fixture.store1).2).
  - vm_compute; reflexivity.
  - vm_compute; reflexivity.
Defined.

(** ** One storage call behind the policy check *)

Section PassThrough.
Context {PE : PolicyEngine} {PT : PTypeEngine} {RO : RangeOrder}.
Context {W : Type} (h : Handler W).

Ltac allow_step Hh Hallow :=
  lazymatch type of Hh with
  | ?h (DbGetPolicies (prin_Policies ?p)) ?w = (Ok ?ps, ?w') =>
      rewrite exec_bindE,
        (exec_ValidateAction h w w' (mkRequest p _ _) ps Hh), Hallow
  end;
  cbn [negb]; unfold call; cbn [exec bindE bind];
  match goal with
  | |- context [h ?o ?w1] => by destruct (h o w1) as [[x | e] w2]
  end.

(** Storage errors are not translated.  For the operations that read or
    delete one entity (GetCollection, GetCollections, DeleteCollection,
    DeleteRecord, GetPrincipal, DeletePrincipal, GetPolicy, DeletePolicy,
    GetPrincipalPolicies, GetSubject, DeleteSubject), when the policy
    engine allows the request: the run is the policy fetch and one storage
    call, and the error returned is the error of that call as it is; a
    missing entity comes back as the storage backend's own not-found
    error, not as a NotFound of the orchestrator. *)
Theorem allowed_operation_returns_storage_error (w w1 : W)
    (principal : Principal) (op : GatedOp) (o : Op) (ps : list Policy) :
  storage_call principal op = Some o →
  h (DbGetPolicies (prin_Policies principal)) w = (Ok ps, w1) →
  EvaluateRequest (first_request principal op) ps = true →
  exec h (run_gated principal op) w =
    (resp_error o (h o w1).1, (h o w1).2,
     [DbGetPolicies (prin_Policies principal); o]).
Proof.
  intros Hcall Hh Hallow.
  destruct op; try discriminate Hcall; injection Hcall as <-;
    unfold run_gated, returned_error; rewrite exec_bind;
    simpl in Hallow; cbn [resp_error].
  - unfold GetCollection. allow_step Hh Hallow.
  - unfold GetCollections. allow_step Hh Hallow.
  - unfold DeleteCollection. allow_step Hh Hallow.
  - unfold DeleteRecord. allow_step Hh Hallow.
  - unfold GetPrincipal. allow_step Hh Hallow.
  - unfold DeletePrincipal. allow_step Hh Hallow.
  - unfold GetPolicy. allow_step Hh Hallow.
  - unfold DeletePolicy. allow_step Hh Hallow.
  - unfold GetPrincipalPolicies. allow_step Hh Hallow.
  - unfold GetSubject. allow_step Hh Hallow.
  - unfold DeleteSubject. allow_step Hh Hallow.
Qed.

End PassThrough.

Lemma allowed_operation_returns_storage_error_witness :
  exec Fixture.mem
    (run_gated (PE := SpecPolicy.engine) (PT := SpecPType.engine)
       (RO := keyOrder) Fixture.admin (OpDeleteRecord "customers" "rec_9"))
    Fixture.store1 =
    (Some ErrNotFound, Fixture.store1,
     [DbGetPolicies (prin_Policies Fixture.admin);
      DbDeleteRecord "customers" "rec_9"]).
Proof.
  apply (allowed_operation_returns_storage_error (PE := SpecPolicy.engine)
           (PT := SpecPType.engine) (RO := keyOrder) Fixture.mem
           Fixture.store1 Fixture.store1 Fixture.admin
           (OpDeleteRecord "customers" "rec_9")
           (DbDeleteRecord "customers" "rec_9")
           [Fixture.adminRead; Fixture.adminWrite]).
  - reflexivity.
  - vm_compute; reflexivity.
  - vm_compute; reflexivity.
Defined.
